(** * SLO evaluation engine: status, burn-rate series and burn alerts

    A shallow embedding of
    - [packages/api/src/controllers/sloStatus.ts] ([getSLOStatus],
      [getSLOBurnRate]) and
    - [packages/api/src/controllers/sloAlerts.ts] ([sendSLOBurnAlert],
      [checkSLOBurnAlerts]),
    followed by the readiness scorecard
    ([packages/api/src/services/scorecard.ts],
    [packages/api/src/tasks/runReadinessChecks.ts]).

    Conventions of the embedding.
    - The arithmetic of the status is given twice.  In [JS.number] a number
      is an exact rational or one of [Infinity], [-Infinity], [NaN]: the
      formulas as written, without rounding, overflow or the sign of zero.
      In [Double.double] it is an IEEE-754 binary64 value and every
      operation rounds as the JavaScript operator does: the values the code
      returns.  Statements about the exact value of a result are made on the
      second.
    - A count that ClickHouse returns is a natural number; [Number] reads it
      as the nearest binary64 value, which is the count itself up to [2^53].
      The sums of the counts are taken as ClickHouse gives them when its
      64-bit sum does not overflow.
    - A valid [Date] is its time value, an integer count of milliseconds.
    - The document store, the ClickHouse tables, the clock, the webhook
      transport and the logger live in a [World] that every controller
      threads through; each access is appended to the world's trace.  The
      lookup of the SLO, the creation of the ClickHouse client, a query and
      the webhook transport can each fail.
    - ClickHouse is a table of rows and an answer to each query of the
      controllers; it rejects a query when it is down and when a time bound
      of the query is not a [DateTime], as the first 19 characters of
      [toISOString] are not for a year outside 0000..9999. *)

From Stdlib Require Import QArith Qround ZArith NArith List Sorted String Bool.
From Stdlib Require Import Lia Lqa SpecFloat.
Import ListNotations.

Open Scope Q_scope.

(* ================================================================== *)
(** ** JavaScript numbers *)

Module JS.

Inductive number : Type :=
| Fin (q : Q)
| Infinity
| NegInfinity
| NaN.

Definition Qlt_bool (a b : Q) : bool := negb (Qle_bool b a).

Definition ofZ (z : Z) : number := Fin (inject_Z z).

(** The binary64 value nearest to a natural number, ties to the even
    mantissa: the number is cut to its 53 leading bits and rounded on the bits
    cut off.  Up to [2^53] every natural number is its own nearest value. *)
Definition nearestDouble (n : N) : N :=
  let bits := N.size n in
  if (bits <=? 53)%N then n
  else
    let k := (bits - 53)%N in
    let q := N.shiftr n k in
    let r := N.land n (N.ones k) in
    let half := N.shiftl 1 (k - 1) in
    let q' := if (r <? half)%N then q
              else if (half <? r)%N then N.succ q
              else if N.even q then q else N.succ q in
    N.shiftl q' k.

(** [Number(s)] for the decimal numeral [s] of a count, as ClickHouse writes
    a 64-bit integer in JSON. *)
Definition ofN (n : N) : number :=
  let m := nearestDouble n in
  if (N.size m <=? 1024)%N then ofZ (Z.of_N m) else Infinity.

Definition neg (x : number) : number :=
  match x with
  | Fin a => Fin (- a)
  | Infinity => NegInfinity
  | NegInfinity => Infinity
  | NaN => NaN
  end.

Definition add (x y : number) : number :=
  match x, y with
  | NaN, _ | _, NaN => NaN
  | Fin a, Fin b => Fin (a + b)
  | Infinity, NegInfinity | NegInfinity, Infinity => NaN
  | Infinity, _ | _, Infinity => Infinity
  | NegInfinity, _ | _, NegInfinity => NegInfinity
  end.

Definition sub (x y : number) : number := add x (neg y).

(** The infinity of the given sign. *)
Definition inf (positive : bool) : number :=
  if positive then Infinity else NegInfinity.

(** An infinity of the given sign times the finite [q]. *)
Definition scaleInf (positive : bool) (q : Q) : number :=
  if Qeq_bool q 0 then NaN
  else if Qlt_bool 0 q then inf positive
  else inf (negb positive).

Definition mul (x y : number) : number :=
  match x, y with
  | NaN, _ | _, NaN => NaN
  | Fin a, Fin b => Fin (a * b)
  | Infinity, Fin b | Fin b, Infinity => scaleInf true b
  | NegInfinity, Fin b | Fin b, NegInfinity => scaleInf false b
  | Infinity, Infinity | NegInfinity, NegInfinity => Infinity
  | Infinity, NegInfinity | NegInfinity, Infinity => NegInfinity
  end.

(** [x / y]; a zero divisor is read as [+0]. *)
Definition div (x y : number) : number :=
  match x, y with
  | NaN, _ | _, NaN => NaN
  | Fin a, Fin b => if Qeq_bool b 0 then scaleInf true a else Fin (a / b)
  | Fin _, (Infinity | NegInfinity) => Fin 0
  | Infinity, Fin b => if Qle_bool 0 b then Infinity else NegInfinity
  | NegInfinity, Fin b => if Qle_bool 0 b then NegInfinity else Infinity
  | (Infinity | NegInfinity), (Infinity | NegInfinity) => NaN
  end.

(** [x <= y] *)
Definition leb (x y : number) : bool :=
  match x, y with
  | NaN, _ | _, NaN => false
  | Fin a, Fin b => Qle_bool a b
  | NegInfinity, _ | _, Infinity => true
  | _, _ => false
  end.

(** [x < y] *)
Definition ltb (x y : number) : bool :=
  match x, y with
  | NaN, _ | _, NaN => false
  | _, _ => negb (leb y x)
  end.

(** [x >= y] and [x > y] *)
Definition geb (x y : number) : bool := leb y x.
Definition gtb (x y : number) : bool := ltb y x.

(** [x === y] *)
Definition eqb (x y : number) : bool :=
  match x, y with
  | Fin a, Fin b => Qeq_bool a b
  | Infinity, Infinity | NegInfinity, NegInfinity => true
  | _, _ => false
  end.

(** [Math.max(x, y)] *)
Definition max (x y : number) : number :=
  match x, y with
  | NaN, _ | _, NaN => NaN
  | _, _ => if leb x y then y else x
  end.

(** [x || 0] on a number: [0] and [NaN] are falsy. *)
Definition orZero (x : number) : number :=
  match x with
  | NaN => Fin 0
  | Fin a => if Qeq_bool a 0 then Fin 0 else x
  | _ => x
  end.

(** Two numbers denote the same value (rationals up to [==]). *)
Definition same (x y : number) : Prop :=
  match x, y with
  | Fin a, Fin b => a == b
  | Infinity, Infinity | NegInfinity, NegInfinity | NaN, NaN => True
  | _, _ => False
  end.

Definition isNaN (x : number) : bool :=
  match x with NaN => true | _ => false end.

End JS.

Import JS.

Declare Scope js_scope.
Delimit Scope js_scope with js.
Bind Scope js_scope with number.
Notation "x + y" := (add x y) : js_scope.
Notation "x - y" := (sub x y) : js_scope.
Notation "x * y" := (mul x y) : js_scope.
Notation "x <= y" := (leb x y) : js_scope.
Notation "x < y" := (ltb x y) : js_scope.
Notation "x >= y" := (geb x y) : js_scope.
Notation "x > y" := (gtb x y) : js_scope.
Notation "x === y" := (eqb x y) (at level 70, no associativity) : js_scope.
Notation "x / y" := (div x y) : js_scope.

(* ================================================================== *)
(** ** Data model *)

(** [SLOStatus] of [@/models/slo]. *)
Inductive SLOStatus : Type := HEALTHY | AT_RISK | BREACHED.

(** ['warning' | 'critical'] *)
Inductive Severity : Type := warning | critical.

Definition Severity_eqb (a b : Severity) : bool :=
  match a, b with
  | warning, warning | critical, critical => true
  | _, _ => false
  end.

(** The time value of a valid [Date], in milliseconds. *)
Definition Date : Type := Z.

Module Threshold.
Record t : Type := mk { burnRate : number; severity : Severity }.
End Threshold.

Module BurnAlerts.
Record t : Type := mk { enabled : bool; thresholds : list Threshold.t }.
End BurnAlerts.

Module LastAlert.
Record t : Type := mk { severity : Severity; timestamp : Date }.
End LastAlert.

(** [ISLO] of [@/models/slo], with the fields the two controllers read.
    An optional field is an [option]. *)
Module SLO.
Record t : Type := mk {
    id : string;
    team : string;
    serviceName : string;
    sloName : string;
    targetValue : number;
    timeWindow : string;
    sourceTable : string;
    filter : option string;
    goodCondition : option string;
    burnAlerts : option BurnAlerts.t;
    lastBurnAlertState : option LastAlert.t
  }.
End SLO.

(** [SLOStatusResult] *)
Module Result.
Record t : Type := mk {
    slo : SLO.t;
    achieved : number;
    target : number;
    errorBudgetRemaining : number;
    status : SLOStatus;
    numerator : number;
    denominator : number;
    windowStart : option Date;   (* [None]: the Invalid Date *)
    windowEnd : Date;
    timestamp : Date;
    burnRate : option number
  }.
End Result.

(** One element of the array [getSLOBurnRate] returns.  The timestamp is kept
    as the stored bucket time (seconds). *)
Module Point.
Record t : Type := mk {
    timestamp : Z;
    achieved : number;
    burnRate : number;
    errorBudgetRemaining : number
  }.
End Point.

(** A row of [default.slo_aggregates]; [timestamp] is a ClickHouse [DateTime]
    (whole seconds). *)
Module Aggregate.
Record t : Type := mk {
    slo_id : string;
    timestamp : Z;
    numerator_count : N;
    denominator_count : N
  }.
End Aggregate.

(** A row [{numerator, denominator}] of a query result. *)
Module Counts.
Record t : Type := mk { numerator : number; denominator : number }.
End Counts.

(** A row [{timestamp, numerator, denominator}] of the burn-rate query. *)
Module Bucket.
Record t : Type := mk { timestamp : Z; numerator : N; denominator : N }.
End Bucket.

(* ================================================================== *)
(** ** Arithmetic with a record of the divisions evaluated

    [Calc A] is a value together with the divisors of the [/] operations that
    were evaluated to obtain it, in evaluation order. *)

Definition Calc (A : Type) : Type := (A * list number)%type.

Definition value {A} (c : Calc A) : A := fst c.
Definition divisors {A} (c : Calc A) : list number := snd c.

Definition ret {A} (a : A) : Calc A := (a, []).

Definition bind {A B} (c : Calc A) (k : A -> Calc B) : Calc B :=
  let (b, ds) := k (fst c) in (b, snd c ++ ds).

Definition divide (x y : number) : Calc number := (div x y, [y]).

Notation "x <- c ;; k" := (bind c (fun x => k))
  (at level 61, c at next level, right associativity).
Notation "x ./ y" := (divide x y) (at level 40, left associativity).

(* ================================================================== *)
(** ** [getSLOStatus]: from the counts to the result (lines 104-164) *)

Definition statusOf (slo : SLO.t) (timeWindowMs : number)
    (windowStart : option Date) (now : Date) (numerator denominator : number)
  : Calc Result.t :=
  (* If no data, return empty state *)
  if ((denominator === Fin 0) && (numerator === Fin 0))%js then
    ret {| Result.slo := slo;
           Result.achieved := Fin 100;
           Result.target := SLO.targetValue slo;
           Result.errorBudgetRemaining := Fin 100;
           Result.status := HEALTHY;
           Result.numerator := Fin 0;
           Result.denominator := Fin 0;
           Result.windowStart := windowStart;
           Result.windowEnd := now;
           Result.timestamp := now;
           Result.burnRate := None |}
  else
    (* Calculate achieved percentage *)
    achieved <- (if (denominator > Fin 0)%js
                 then q <- numerator ./ denominator ;; ret (q * Fin 100)%js
                 else ret (Fin 100)) ;;
    (* Calculate error budget remaining *)
    t100 <- SLO.targetValue slo ./ Fin 100 ;;
    let errorBudgetTotal := ((Fin 1 - t100) * timeWindowMs)%js in
    a100 <- achieved ./ Fin 100 ;;
    let errorBudgetUsed := ((Fin 1 - a100) * timeWindowMs)%js in
    let errorBudgetRemaining :=
      max (Fin 0) (errorBudgetTotal - errorBudgetUsed)%js in
    errorBudgetRemainingPercent <-
      (if (errorBudgetTotal > Fin 0)%js
       then q <- errorBudgetRemaining ./ errorBudgetTotal ;;
            ret (q * Fin 100)%js
       else ret (Fin 0)) ;;
    (* Calculate burn rate: actualErrorRate / expectedErrorRate *)
    t100' <- SLO.targetValue slo ./ Fin 100 ;;
    let expectedErrorRate := (Fin 1 - t100')%js in
    actualErrorRate <- (if (denominator > Fin 0)%js
                        then q <- numerator ./ denominator ;; ret (Fin 1 - q)%js
                        else ret (Fin 0)) ;;
    burnRate <- (if (expectedErrorRate > Fin 0)%js
                 then actualErrorRate ./ expectedErrorRate
                 else ret (if (actualErrorRate > Fin 0)%js
                           then Infinity else Fin 0)) ;;
    (* Determine status *)
    let status :=
      if (achieved >= SLO.targetValue slo)%js then HEALTHY
      else if ((errorBudgetRemainingPercent > Fin 0)
               && (errorBudgetRemainingPercent <= Fin 10))%js then AT_RISK
      else BREACHED in
    ret {| Result.slo := slo;
           Result.achieved := achieved;
           Result.target := SLO.targetValue slo;
           Result.errorBudgetRemaining := errorBudgetRemainingPercent;
           Result.status := status;
           Result.numerator := numerator;
           Result.denominator := denominator;
           Result.windowStart := windowStart;
           Result.windowEnd := now;
           Result.timestamp := now;
           Result.burnRate := Some burnRate |}.

(* ================================================================== *)
(** ** The same computation in binary64

    [Double.double] is an IEEE-754 binary64 value as the Standard Library
    specifies it ([SpecFloat], 53 bits of precision, one [NaN]); the four
    operations round to nearest, ties to even, as the JavaScript operators
    do.  [statusOf64] is lines 104-164 once more, operation by operation, on
    these values: it gives the bits the code computes, where [statusOf]
    gives the value of the same formulas without rounding. *)

Module Double.

Definition double : Type := spec_float.

Definition prec : Z := 53.
Definition emax : Z := 1024.

(** An integer literal, and [Number(s)] on an integer numeral: the nearest
    binary64 value. *)
Definition num (z : Z) : double := binary_normalize prec emax z 0 false.

Definition NaN : double := S754_nan.
Definition Infinity : double := S754_infinity false.

Definition add : double -> double -> double := SFadd prec emax.
Definition sub : double -> double -> double := SFsub prec emax.
Definition mul : double -> double -> double := SFmul prec emax.
Definition div : double -> double -> double := SFdiv prec emax.

Definition ltb : double -> double -> bool := SFltb.
Definition leb : double -> double -> bool := SFleb.
Definition gtb (x y : double) : bool := SFltb y x.
Definition geb (x y : double) : bool := SFleb y x.
Definition eqb : double -> double -> bool := SFeqb.

(** [Math.max(x, y)]: [NaN] if either is; [+0] counts as larger than [-0]. *)
Definition max (x y : double) : double :=
  match x, y with
  | S754_nan, _ | _, S754_nan => S754_nan
  | S754_zero sx, S754_zero sy => S754_zero (sx && sy)
  | _, _ => if SFltb x y then y else x
  end.


(** The integer a value denotes, when it denotes one. *)
Definition toZ (x : double) : option Z :=
  match x with
  | S754_zero _ => Some 0%Z
  | S754_finite s m e =>
      let v := match e with
               | Zneg k => if (Zpos m mod 2 ^ Zpos k =? 0)%Z
                           then Some (Zpos m / 2 ^ Zpos k)%Z else None
               | _ => Some (Z.shiftl (Zpos m) e)
               end in
      option_map (fun z => if s then (- z)%Z else z) v
  | _ => None
  end.

End Double.

Declare Scope f64_scope.
Delimit Scope f64_scope with f64.
Bind Scope f64_scope with Double.double.
Notation "x + y" := (Double.add x y) : f64_scope.
Notation "x - y" := (Double.sub x y) : f64_scope.
Notation "x * y" := (Double.mul x y) : f64_scope.
Notation "x / y" := (Double.div x y) : f64_scope.
Notation "x <= y" := (Double.leb x y) : f64_scope.
Notation "x < y" := (Double.ltb x y) : f64_scope.
Notation "x >= y" := (Double.geb x y) : f64_scope.
Notation "x > y" := (Double.gtb x y) : f64_scope.
Notation "x === y" := (Double.eqb x y) (at level 70, no associativity)
  : f64_scope.

(** The numbers of [SLOStatusResult]. *)
Module Status64.
Record t : Type := mk {
    achieved : Double.double;
    target : Double.double;
    errorBudgetRemaining : Double.double;
    status : SLOStatus;
    numerator : Double.double;
    denominator : Double.double;
    burnRate : option Double.double
  }.
End Status64.

Abbreviation num := Double.num.

Definition statusOf64 (targetValue timeWindowMs numerator denominator
                       : Double.double) : Status64.t :=
  (* If no data, return empty state *)
  if ((denominator === num 0) && (numerator === num 0))%f64 then
    {| Status64.achieved := num 100;
       Status64.target := targetValue;
       Status64.errorBudgetRemaining := num 100;
       Status64.status := HEALTHY;
       Status64.numerator := num 0;
       Status64.denominator := num 0;
       Status64.burnRate := None |}
  else
    (* Calculate achieved percentage *)
    let achieved := (if denominator > num 0
                     then (numerator / denominator) * num 100
                     else num 100)%f64 in
    (* Calculate error budget remaining *)
    let errorBudgetTotal :=
      ((num 1 - targetValue / num 100) * timeWindowMs)%f64 in
    let errorBudgetUsed :=
      ((num 1 - achieved / num 100) * timeWindowMs)%f64 in
    let errorBudgetRemaining :=
      Double.max (num 0) (errorBudgetTotal - errorBudgetUsed)%f64 in
    let errorBudgetRemainingPercent :=
      (if errorBudgetTotal > num 0
       then (errorBudgetRemaining / errorBudgetTotal) * num 100
       else num 0)%f64 in
    (* Calculate burn rate: actualErrorRate / expectedErrorRate *)
    let expectedErrorRate := (num 1 - targetValue / num 100)%f64 in
    let actualErrorRate :=
      (if denominator > num 0 then num 1 - numerator / denominator
       else num 0)%f64 in
    let burnRate :=
      (if expectedErrorRate > num 0 then actualErrorRate / expectedErrorRate
       else if actualErrorRate > num 0 then Double.Infinity
       else num 0)%f64 in
    (* Determine status *)
    let status :=
      if (achieved >= targetValue)%f64 then HEALTHY
      else if ((errorBudgetRemainingPercent > num 0)
               && (errorBudgetRemainingPercent <= num 10))%f64 then AT_RISK
      else BREACHED in
    {| Status64.achieved := achieved;
       Status64.target := targetValue;
       Status64.errorBudgetRemaining := errorBudgetRemainingPercent;
       Status64.status := status;
       Status64.numerator := numerator;
       Status64.denominator := denominator;
       Status64.burnRate := Some burnRate |}.

(* ================================================================== *)
(** ** The world the controllers run in *)

(** The three ClickHouse queries, with their interpolated text or bound
    parameters. *)
Inductive Query : Type :=
| RealtimeQuery (sourceTable filter goodCondition : string)
                (startTime endTime : Z)
| StatusQuery (sloId : string) (windowStart : Z)
| BurnRateQuery (sloId : string) (timeStart timeEnd : Z).

(** [IWebhook], by its id. *)
Definition IWebhook : Type := string.

Inductive Effect : Type :=
| FindOne (sloId teamId : string)           (* SLO.findOne *)
| ClickHouse (q : Query)                    (* clickhouseClient.query *)
| Webhook (webhook : IWebhook) (sloId : string)
          (severity : Severity) (time : Z)  (* handleSendGenericWebhook *)
| LogInfo (msg : string)
| LogWarn (msg : string)
| LogError (msg : string).

Inductive Exn : Type :=
| MongoError         (* a rejected MongoDB call *)
| ClientError        (* createNativeClient throws *)
| SLONotFound        (* Error('SLO not found') *)
| RangeError         (* Invalid time value *)
| MsError            (* ms() on an empty string *)
| ClickHouseError
| WebhookError.

Record World : Type := mkWorld {
  clock : Z;                          (* Date.now() *)
  mongoUp : bool;                     (* false: every MongoDB call rejects *)
  slos : list SLO.t;                  (* the SLO collection *)
  clientOk : bool;                    (* false: createNativeClient throws *)
  clickhouseUp : bool;                (* false: every query rejects *)
  slo_aggregates : list Aggregate.t;  (* default.slo_aggregates *)
  rawCounts : string -> string -> string -> Z -> Z -> list Counts.t;
                                      (* answer of the real-time query *)
  webhookUp : bool;                   (* false: the send rejects *)
  trace : list Effect                 (* effects so far, oldest first *)
}.

Inductive Outcome (A : Type) : Type :=
| Ok (a : A)
| Throw (e : Exn).
Arguments Ok {A} a.
Arguments Throw {A} e.

Definition M (A : Type) : Type := World -> Outcome A * World.

Definition pure {A} (a : A) : M A := fun w => (Ok a, w).
Definition throw {A} (e : Exn) : M A := fun w => (Throw e, w).

Definition andThen {A B} (m : M A) (k : A -> M B) : M B :=
  fun w => match m w with
           | (Ok a, w') => k a w'
           | (Throw e, w') => (Throw e, w')
           end.

(** [try { m } catch (error) { h error }] *)
Definition tryCatch {A} (m : M A) (h : Exn -> M A) : M A :=
  fun w => match m w with
           | (Ok a, w') => (Ok a, w')
           | (Throw e, w') => h e w'
           end.

Notation "'let!' x ':=' m 'in' k" := (andThen m (fun x => k))
  (at level 10, x name, m at level 100, k at level 200).
Notation "m ';;;' k" := (andThen m (fun _ => k))
  (at level 100, right associativity).

(** The world with one more effect on its trace. *)
Definition logged (w : World) (e : Effect) : World :=
  mkWorld (clock w) (mongoUp w) (slos w) (clientOk w) (clickhouseUp w)
          (slo_aggregates w) (rawCounts w) (webhookUp w) (trace w ++ [e]).

Definition emit (e : Effect) : M unit := fun w => (Ok tt, logged w e).

(** The world with another trace and everything else as it is. *)
Definition withTrace (w : World) (t : list Effect) : World :=
  mkWorld (clock w) (mongoUp w) (slos w) (clientOk w) (clickhouseUp w)
          (slo_aggregates w) (rawCounts w) (webhookUp w) t.

Definition dateNow : M Z := fun w => (Ok (clock w), w).

(** [SLO.findOne({ _id: sloId, team: teamId })] *)
Definition matchesSLO (sloId teamId : string) (s : SLO.t) : bool :=
  String.eqb (SLO.id s) sloId && String.eqb (SLO.team s) teamId.

Definition findOne (sloId teamId : string) : M (option SLO.t) :=
  emit (FindOne sloId teamId) ;;;
  fun w => if mongoUp w
           then (Ok (find (matchesSLO sloId teamId) (slos w)), w)
           else (Throw MongoError, w).

(** [createNativeClient({ url, username, password, request_timeout })] *)
Definition createNativeClient : M unit :=
  fun w => if clientOk w then (Ok tt, w) else (Throw ClientError, w).

(** *** Dates *)

(** [new Date(x)]: the time value is [x] cut to an integer, toward zero;
    [None] is the Invalid Date. *)
Definition newDate (x : number) : option Date :=
  match x with
  | Fin q =>
      if Qle_bool (-8640000000000000) q && Qle_bool q 8640000000000000
      then Some (Z.quot (Qnum q) (Zpos (Qden q))) else None
  | _ => None
  end.

(** [d.toISOString()] throws on the Invalid Date. *)
Definition toISOString (d : option Date) : M Date :=
  match d with
  | Some t => pure t
  | None => throw RangeError
  end.

(** [iso.slice(0, 19).replace('T', ' ')], read as a ClickHouse [DateTime]:
    the instant cut to the whole second. *)
Definition sqlDateTime (t : Date) : Z := (t / 1000)%Z.

(** [toISOString] writes a year outside 0000..9999 with a sign and six
    digits; the first 19 characters of such a string are no [DateTime]. *)
Definition fourDigitYear (t : Date) : bool :=
  (-62167219200000 <=? t)%Z && (t <=? 253402300799999)%Z.

(** *** ClickHouse *)

Fixpoint sumN (l : list N) : N :=
  match l with
  | [] => 0%N
  | n :: l' => (n + sumN l')%N
  end.

(** [WHERE slo_id = {sloId} AND timestamp >= {windowStart}] *)
Definition inWindow (sloId : string) (windowStart : Z) (r : Aggregate.t)
  : bool :=
  String.eqb (Aggregate.slo_id r) sloId
  && (windowStart <=? Aggregate.timestamp r)%Z.

(** [SELECT sum(numerator_count), sum(denominator_count)]: one row. *)
Definition statusRows (rows : list Aggregate.t) (sloId : string)
    (windowStart : Z) : list Counts.t :=
  let sel := List.filter (inWindow sloId windowStart) rows in
  [ Counts.mk (ofN (sumN (map Aggregate.numerator_count sel)))
              (ofN (sumN (map Aggregate.denominator_count sel))) ].

(** [WHERE slo_id = {sloId} AND timestamp >= {timeStart}
     AND timestamp <= {timeEnd}] *)
Definition inRange (sloId : string) (timeStart timeEnd : Z)
    (r : Aggregate.t) : bool :=
  String.eqb (Aggregate.slo_id r) sloId
  && (timeStart <=? Aggregate.timestamp r)%Z
  && (Aggregate.timestamp r <=? timeEnd)%Z.

(** [GROUP BY timestamp ORDER BY timestamp ASC]: the row joins the bucket of
    its timestamp, or opens one at its place in the ascending order. *)
Fixpoint addToBucket (r : Aggregate.t) (bs : list Bucket.t) : list Bucket.t :=
  let ts := Aggregate.timestamp r in
  match bs with
  | [] => [ Bucket.mk ts (Aggregate.numerator_count r)
                      (Aggregate.denominator_count r) ]
  | b :: bs' =>
      if (ts <? Bucket.timestamp b)%Z then
        Bucket.mk ts (Aggregate.numerator_count r)
                  (Aggregate.denominator_count r) :: b :: bs'
      else if (ts =? Bucket.timestamp b)%Z then
        Bucket.mk ts (Aggregate.numerator_count r + Bucket.numerator b)%N
                  (Aggregate.denominator_count r + Bucket.denominator b)%N
        :: bs'
      else b :: addToBucket r bs'
  end.

Definition groupByTimestamp (rows : list Aggregate.t) : list Bucket.t :=
  fold_right addToBucket [] rows.

Definition burnRateRows (rows : list Aggregate.t) (sloId : string)
    (timeStart timeEnd : Z) : list Bucket.t :=
  groupByTimestamp (List.filter (inRange sloId timeStart timeEnd) rows).

(** ClickHouse answers a query when it is up and can read the time bounds of
    the query; it rejects the query otherwise. *)
Definition accepts (w : World) (bounds : list Date) : bool :=
  clickhouseUp w && forallb fourDigitYear bounds.

(** [await clickhouseClient.query(...)] then [await res.json()], for a query
    with the given time bounds. *)
Definition clickhouse {A} (q : Query) (bounds : list Date)
    (answer : World -> A) : M A :=
  emit (ClickHouse q) ;;;
  fun w => if accepts w bounds then (Ok (answer w), w)
           else (Throw ClickHouseError, w).

(** [Number(data.data?.[0]?.f || 0)] *)
Definition firstOr0 (data : list Counts.t) (f : Counts.t -> number) : number :=
  match data with
  | [] => Fin 0
  | row :: _ => orZero (f row)
  end.

(** A string in a condition: [undefined] and the empty string are falsy. *)
Definition truthy (s : option string) : bool :=
  match s with
  | Some s => negb (String.eqb s EmptyString)
  | None => false
  end.

Definition text (s : option string) : string :=
  match s with Some s => s | None => "undefined"%string end.

Section Controllers.

(** The [ms] package: [None] when it throws (empty string), [Some NaN] when it
    answers [undefined]. *)
Variable ms : string -> option number.

Definition msM (s : string) : M number :=
  match ms s with
  | Some n => pure n
  | None => throw MsError
  end.

(* ================================================================== *)
(** ** [getSLOStatus] *)

Definition getSLOStatus (sloId teamId : string) (realtime : bool)
  : M (option Result.t) :=
  let! slo := findOne sloId teamId in
  match slo with
  | None => pure None
  | Some slo =>
    createNativeClient ;;;
    tryCatch
      (let! timeWindowMs := msM (SLO.timeWindow slo) in
       let! now := dateNow in
       let windowStart := newDate (ofZ now - timeWindowMs)%js in
       let! counts :=
         if realtime && truthy (SLO.filter slo)
                     && truthy (SLO.goodCondition slo) then
           (* Real-time computation from raw events (only works with builder
              mode) *)
           let! startTime := toISOString windowStart in
           let! endTime := dateNow in
           let! realtimeData :=
             clickhouse
               (RealtimeQuery (SLO.sourceTable slo) (text (SLO.filter slo))
                              (text (SLO.goodCondition slo))
                              (sqlDateTime startTime) (sqlDateTime endTime))
               [startTime; endTime]
               (fun w => rawCounts w (SLO.sourceTable slo)
                                   (text (SLO.filter slo))
                                   (text (SLO.goodCondition slo))
                                   (sqlDateTime startTime)
                                   (sqlDateTime endTime)) in
           pure (firstOr0 realtimeData Counts.numerator,
                 firstOr0 realtimeData Counts.denominator)
         else
           (* Calculate status from slo_aggregates *)
           let! start := toISOString windowStart in
           let! statusData :=
             clickhouse
               (StatusQuery (SLO.id slo) (sqlDateTime start))
               [start]
               (fun w => statusRows (slo_aggregates w) (SLO.id slo)
                                    (sqlDateTime start)) in
           pure (firstOr0 statusData Counts.numerator,
                 firstOr0 statusData Counts.denominator) in
       let! end_ := dateNow in
       pure (Some (value (statusOf slo timeWindowMs windowStart end_
                                   (fst counts) (snd counts)))))
      (fun error =>
         emit (LogWarn "Failed to get SLO status from ClickHouse aggregates"%string)
         ;;; pure None)
  end.

(* ================================================================== *)
(** ** [getSLOBurnRate] *)

(** The body of the [map] callback (lines 243-261). *)
Definition pointOf (expectedErrorRate : number) (d : Bucket.t) : Point.t :=
  let num := ofN (Bucket.numerator d) in
  let den := ofN (Bucket.denominator d) in
  let achieved := if (den > Fin 0)%js then ((num / den) * Fin 100)%js
                  else Fin 100 in
  let actualErrorRate := if (den > Fin 0)%js then (Fin 1 - num / den)%js
                         else Fin 0 in
  let burnRate :=
    if (expectedErrorRate > Fin 0)%js
    then (actualErrorRate / expectedErrorRate)%js
    else if (actualErrorRate > Fin 0)%js then Infinity else Fin 0 in
  {| Point.timestamp := Bucket.timestamp d;
     Point.achieved := achieved;
     Point.burnRate := burnRate;
     Point.errorBudgetRemaining := Fin 0 (* Not computed per-bucket *) |}.

Definition getSLOBurnRate (sloId teamId : string)
    (timeStart timeEnd : option Date) : M (list Point.t) :=
  let! slo := findOne sloId teamId in
  match slo with
  | None => throw SLONotFound
  | Some slo =>
    createNativeClient ;;;
    let! timeStart := toISOString timeStart in
    let! timeEnd := toISOString timeEnd in
    let! data :=
      clickhouse
        (BurnRateQuery (SLO.id slo) (sqlDateTime timeStart)
                       (sqlDateTime timeEnd))
        [timeStart; timeEnd]
        (fun w => burnRateRows (slo_aggregates w) (SLO.id slo)
                               (sqlDateTime timeStart)
                               (sqlDateTime timeEnd)) in
    let expectedErrorRate := (Fin 1 - SLO.targetValue slo / Fin 100)%js in
    pure (map (pointOf expectedErrorRate) data)
  end.

End Controllers.

(* ================================================================== *)
(** ** [sendSLOBurnAlert]

    The rendered title and body are not represented; the send is recorded with
    the webhook, the SLO, the severity and the time of the event id. *)

Definition handleSendGenericWebhook (webhook : IWebhook) (sloId : string)
    (severity : Severity) (now : Z) : M unit :=
  emit (Webhook webhook sloId severity now) ;;;
  fun w => if webhookUp w then (Ok tt, w) else (Throw WebhookError, w).

Definition sendSLOBurnAlert (slo : SLO.t) (burnRate : number)
    (severity : Severity) (webhook : IWebhook)
    (achieved target errorBudgetRemaining : number) : M unit :=
  let! now := dateNow in
  tryCatch
    (handleSendGenericWebhook webhook (SLO.id slo) severity now ;;;
     emit (LogInfo "Sent SLO burn alert notification"%string))
    (fun err =>
       emit (LogError "Failed to send SLO burn alert notification"%string) ;;;
       throw err).

(* ================================================================== *)
(** ** [checkSLOBurnAlerts] *)

(** The returned [{ shouldAlert, severity? }]. *)
Module Decision.
Record t : Type := mk { shouldAlert : bool; severity : option Severity }.
End Decision.

(** [Array.prototype.sort(cmp)]: a stable sort; [x] is moved behind [y] when
    [cmp(x, y) > 0] (a [NaN] comparison counts as [0]). *)
Fixpoint insertSorted {A} (cmp : A -> A -> number) (x : A) (l : list A)
  : list A :=
  match l with
  | [] => [x]
  | y :: l' => if (cmp x y > Fin 0)%js then y :: insertSorted cmp x l'
               else x :: l
  end.

Definition sort {A} (cmp : A -> A -> number) (l : list A) : list A :=
  fold_right (insertSorted cmp) [] l.

(** [!lastAlert || lastAlert.severity !== threshold.severity
     || lastAlert.timestamp < oneHourAgo] *)
Definition shouldAlertNow (lastAlert : option LastAlert.t)
    (threshold : Threshold.t) (oneHourAgo : Date) : bool :=
  match lastAlert with
  | None => true
  | Some lastAlert =>
      negb (Severity_eqb (LastAlert.severity lastAlert)
                         (Threshold.severity threshold))
      || (LastAlert.timestamp lastAlert <? oneHourAgo)%Z
  end.

(** The [for (const threshold of sortedThresholds)] loop (lines 104-126). *)
Fixpoint scanThresholds (slo : SLO.t) (burnRate : number)
    (sortedThresholds : list Threshold.t) : M Decision.t :=
  match sortedThresholds with
  | [] => pure (Decision.mk false None)
  | threshold :: rest =>
      if (burnRate >= Threshold.burnRate threshold)%js then
        let lastAlert := SLO.lastBurnAlertState slo in
        let! now := dateNow in
        let oneHourAgo := (now - 60 * 60 * 1000)%Z in
        if shouldAlertNow lastAlert threshold oneHourAgo then
          pure (Decision.mk true (Some (Threshold.severity threshold)))
        else
          (* break *)
          pure (Decision.mk false None)
      else scanThresholds slo burnRate rest
  end.

(** [!slo.burnAlerts?.enabled || !slo.burnAlerts.thresholds.length] *)
Definition alertsOff (slo : SLO.t) : bool :=
  match SLO.burnAlerts slo with
  | None => true
  | Some b => negb (BurnAlerts.enabled b)
              || (List.length (BurnAlerts.thresholds b) =? 0)%nat
  end.

Definition thresholdsOf (slo : SLO.t) : list Threshold.t :=
  match SLO.burnAlerts slo with
  | None => []
  | Some b => BurnAlerts.thresholds b
  end.

Definition byBurnRateDesc (a b : Threshold.t) : number :=
  (Threshold.burnRate b - Threshold.burnRate a)%js.

Definition checkSLOBurnAlerts (slo : SLO.t)
    (burnRate achieved target errorBudgetRemaining : number)
    (webhook : option IWebhook) : M Decision.t :=
  (* Check if burn alerts are enabled *)
  if alertsOff slo then pure (Decision.mk false None)
  else
    match webhook with
    | None =>
        emit (LogWarn
          "SLO has burn alerts enabled but no webhook configured"%string) ;;;
        pure (Decision.mk false None)
    | Some _ =>
        (* Sort thresholds by burn rate (descending) to check critical first *)
        let sortedThresholds := sort byBurnRateDesc (thresholdsOf slo) in
        (* Find the highest threshold that's been exceeded *)
        scanThresholds slo burnRate sortedThresholds
    end.

(** Running a controller in a world. *)
Definition result {A} (m : M A) (w : World) : Outcome A := fst (m w).
Definition after {A} (m : M A) (w : World) : World := snd (m w).


(* ================================================================== *)
(** ** Names for the quantities of [statusOf] *)

(** The test of the empty state. *)
Definition noData (n d : number) : bool := ((d === Fin 0) && (n === Fin 0))%js.

(** [errorBudgetTotal] and [errorBudgetRemainingPercent] as [statusOf]
    computes them from the target, the window and [achieved]. *)
Definition errorBudgetTotalOf (t W : number) : number :=
  ((Fin 1 - t / Fin 100) * W)%js.

Definition errorBudgetUsedOf (W achieved : number) : number :=
  ((Fin 1 - achieved / Fin 100) * W)%js.

Definition errorBudgetPercentOf (t W achieved : number) : number :=
  let errorBudgetTotal := errorBudgetTotalOf t W in
  let errorBudgetUsed := errorBudgetUsedOf W achieved in
  let errorBudgetRemaining :=
    max (Fin 0) (errorBudgetTotal - errorBudgetUsed)%js in
  if (errorBudgetTotal > Fin 0)%js
  then ((errorBudgetRemaining / errorBudgetTotal) * Fin 100)%js
  else Fin 0.

(** [0 < p && p <= 10] *)
Definition lowBudget (p : number) : bool := ((p > Fin 0) && (p <= Fin 10))%js.

(* ================================================================== *)
(** ** Names used in the statements *)

(** The per-bucket counts of the burn-rate query as the [map] callback reads
    them, [Number(d.numerator)] and [Number(d.denominator)], and the sum of
    such numbers. *)
Definition bucketNumerators (buckets : list Bucket.t) : list number :=
  map (fun d => ofN (Bucket.numerator d)) buckets.

Definition bucketDenominators (buckets : list Bucket.t) : list number :=
  map (fun d => ofN (Bucket.denominator d)) buckets.

Definition sumOf (l : list number) : number := fold_left add l (Fin 0).

(** The same sum in binary64, left to right. *)
Definition sumOf64 (l : list Double.double) : Double.double :=
  fold_left Double.add l (num 0).

(** The counts [getSLOStatus] reads in the world [w]. *)
Definition countsRead (w : World) (slo : SLO.t) (realtime : bool)
    (ws : Date) : number * number :=
  let data :=
    if realtime && truthy (SLO.filter slo) && truthy (SLO.goodCondition slo)
    then rawCounts w (SLO.sourceTable slo) (text (SLO.filter slo))
                   (text (SLO.goodCondition slo))
                   (sqlDateTime ws) (sqlDateTime (clock w))
    else statusRows (slo_aggregates w) (SLO.id slo) (sqlDateTime ws) in
  (firstOr0 data Counts.numerator, firstOr0 data Counts.denominator).

(** [filter && goodCondition] *)
Definition builderMode (slo : SLO.t) : bool :=
  truthy (SLO.filter slo) && truthy (SLO.goodCondition slo).

(** The time bounds of the query [getSLOStatus] sends. *)
Definition statusBounds (w : World) (slo : SLO.t) (realtime : bool)
    (ws : Date) : list Date :=
  if realtime && builderMode slo then [ws; clock w] else [ws].


(** The candidate of [checkSLOBurnAlerts]: the first threshold, in sorted
    order, that the burn rate reaches. *)
Definition matchedThreshold (slo : SLO.t) (burnRate : number)
  : option Threshold.t :=
  find (fun th => (burnRate >= Threshold.burnRate th)%js)
       (sort byBurnRateDesc (thresholdsOf slo)).

Definition noAlert : Decision.t := Decision.mk false None.

(** The decision once a threshold is matched. *)
Definition decisionFor (slo : SLO.t) (now : Z) (th : Threshold.t) : Decision.t :=
  if shouldAlertNow (SLO.lastBurnAlertState slo) th (now - 60 * 60 * 1000)%Z
  then Decision.mk true (Some (Threshold.severity th))
  else noAlert.

Definition descending (l : list Threshold.t) : Prop :=
  StronglySorted
    (fun a b => (Threshold.burnRate b <= Threshold.burnRate a)%js = true) l.

Definition noNaN (l : list Threshold.t) : Prop :=
  Forall (fun th => isNaN (Threshold.burnRate th) = false) l.

(* ================================================================== *)
(** ** A small world *)

(** [ms] on the windows used below. *)
Definition msExample (s : string) : option number :=
  if String.eqb s "30d" then Some (Fin 2592000000)
  else if String.eqb s "7d" then Some (Fin 604800000)
  else if String.eqb s "1h" then Some (Fin 3600000)
  else if String.eqb s "-1ms" then Some (Fin (-1))
  else if String.eqb s EmptyString then None
  else Some NaN.

Definition ladder : list Threshold.t :=
  [ Threshold.mk (Fin 1) warning; Threshold.mk (Fin 3) critical ].

(** A builder-mode SLO with a burn-alert ladder and no alert history. *)
Definition checkoutSLO : SLO.t :=
  {| SLO.id := "slo-1"; SLO.team := "team-1";
     SLO.serviceName := "checkout"; SLO.sloName := "availability";
     SLO.targetValue := Fin 99.9; SLO.timeWindow := "30d";
     SLO.sourceTable := "otel_logs";
     SLO.filter := Some "ServiceName = 'checkout'"%string;
     SLO.goodCondition := Some "SeverityNumber < 17"%string;
     SLO.burnAlerts := Some (BurnAlerts.mk true ladder);
     SLO.lastBurnAlertState := None |}.

(** A raw-mode SLO: no [filter], no [goodCondition]. *)
Definition rawSLO : SLO.t :=
  {| SLO.id := "slo-raw"; SLO.team := "team-1";
     SLO.serviceName := "search"; SLO.sloName := "latency";
     SLO.targetValue := Fin 99; SLO.timeWindow := "7d";
     SLO.sourceTable := "otel_traces";
     SLO.filter := None; SLO.goodCondition := None;
     SLO.burnAlerts := None;
     SLO.lastBurnAlertState := None |}.

Definition exampleWorld : World :=
  {| clock := 2592000000000;
     mongoUp := true;
     slos := [checkoutSLO; rawSLO];
     clientOk := true;
     clickhouseUp := true;
     slo_aggregates :=
       [ Aggregate.mk "slo-1" 2591999000 998 1000;
         Aggregate.mk "slo-1" 2591999000 1 1;
         Aggregate.mk "slo-1" 2591998000 1 1;
         Aggregate.mk "slo-raw" 2591998000 90 100;
         Aggregate.mk "slo-1" 2589000000 5 50 ];
     rawCounts := fun _ _ _ _ _ => [ Counts.mk (Fin 7) (Fin 8) ];
     webhookUp := true;
     trace := [] |}.

(** The status of [checkoutSLO] in [exampleWorld], from the three rows of the
    window. *)
Definition checkoutStatus : Result.t :=
  value (statusOf checkoutSLO (Fin 2592000000) (Some 2589408000000%Z)
                  2592000000000%Z (ofN 1000) (ofN 1002)).

(** [checkoutSLO] after a warning alert at the time [at_]. *)
Definition warnedAt (at_ : Date) : SLO.t :=
  {| SLO.id := SLO.id checkoutSLO; SLO.team := SLO.team checkoutSLO;
     SLO.serviceName := SLO.serviceName checkoutSLO;
     SLO.sloName := SLO.sloName checkoutSLO;
     SLO.targetValue := SLO.targetValue checkoutSLO;
     SLO.timeWindow := SLO.timeWindow checkoutSLO;
     SLO.sourceTable := SLO.sourceTable checkoutSLO;
     SLO.filter := SLO.filter checkoutSLO;
     SLO.goodCondition := SLO.goodCondition checkoutSLO;
     SLO.burnAlerts := SLO.burnAlerts checkoutSLO;
     SLO.lastBurnAlertState := Some (LastAlert.mk warning at_) |}.

(** [checkoutSLO] with a threshold whose rate is [NaN] between the two of
    the ladder. *)
Definition nanLadder : list Threshold.t :=
  [ Threshold.mk (Fin 1) warning; Threshold.mk NaN critical;
    Threshold.mk (Fin 3) critical ].

Definition nanLadderSLO : SLO.t :=
  {| SLO.id := SLO.id checkoutSLO; SLO.team := SLO.team checkoutSLO;
     SLO.serviceName := SLO.serviceName checkoutSLO;
     SLO.sloName := SLO.sloName checkoutSLO;
     SLO.targetValue := SLO.targetValue checkoutSLO;
     SLO.timeWindow := SLO.timeWindow checkoutSLO;
     SLO.sourceTable := SLO.sourceTable checkoutSLO;
     SLO.filter := SLO.filter checkoutSLO;
     SLO.goodCondition := SLO.goodCondition checkoutSLO;
     SLO.burnAlerts := Some (BurnAlerts.mk true nanLadder);
     SLO.lastBurnAlertState := None |}.

(** An SLO outside the data model: a target above [100] and a negative
    window. *)
Definition overTargetSLO : SLO.t :=
  {| SLO.id := "slo-x"; SLO.team := "team-1";
     SLO.serviceName := "x"; SLO.sloName := "x";
     SLO.targetValue := Fin 200; SLO.timeWindow := "-1ms";
     SLO.sourceTable := "otel_logs";
     SLO.filter := None; SLO.goodCondition := None;
     SLO.burnAlerts := None;
     SLO.lastBurnAlertState := None |}.

(** An SLO with no tolerance: a target of [100]. *)
Definition strictSLO : SLO.t :=
  {| SLO.id := "slo-strict"; SLO.team := "team-1";
     SLO.serviceName := "ledger"; SLO.sloName := "durability";
     SLO.targetValue := Fin 100; SLO.timeWindow := "30d";
     SLO.sourceTable := "otel_logs";
     SLO.filter := None; SLO.goodCondition := None;
     SLO.burnAlerts := None;
     SLO.lastBurnAlertState := None |}.

(** An SLO with more events than [2^53]: one bucket of [2^53] events, all
    good, and three buckets of one event each. *)
Definition busySLO : SLO.t :=
  {| SLO.id := "slo-busy"; SLO.team := "team-1";
     SLO.serviceName := "gateway"; SLO.sloName := "availability";
     SLO.targetValue := Fin 99; SLO.timeWindow := "30d";
     SLO.sourceTable := "otel_logs";
     SLO.filter := None; SLO.goodCondition := None;
     SLO.burnAlerts := None;
     SLO.lastBurnAlertState := None |}.

Definition busyWorld : World :=
  {| clock := 2592000000000;
     mongoUp := true;
     slos := [busySLO];
     clientOk := true;
     clickhouseUp := true;
     slo_aggregates :=
       [ Aggregate.mk "slo-busy" 2591996000 9007199254740992
                      9007199254740992;
         Aggregate.mk "slo-busy" 2591997000 1 1;
         Aggregate.mk "slo-busy" 2591998000 1 1;
         Aggregate.mk "slo-busy" 2591999000 1 1 ];
     rawCounts := fun _ _ _ _ _ => [];
     webhookUp := true;
     trace := [] |}.

(** [exampleWorld] before any aggregate row is written. *)
Definition quietWorld : World :=
  {| clock := clock exampleWorld;
     mongoUp := true;
     slos := slos exampleWorld;
     clientOk := true;
     clickhouseUp := true;
     slo_aggregates := [];
     rawCounts := fun _ _ _ _ _ => [];
     webhookUp := false;
     trace := [] |}.

(* ================================================================== *)
(** ** Readiness scorecard

    [packages/api/src/services/scorecard.ts] ([getScorecardForTeam],
    [calculateServiceScore]) and the evaluation of one service in
    [packages/api/src/tasks/runReadinessChecks.ts].  The documents keep the
    fields the score depends on; messages, evidence and log lines are left
    out.  MongoDB is taken to answer every call. *)

(** [Math.round(x)]: the integer nearest to [x], halves upwards. *)
Definition mathRound (x : number) : number :=
  match x with
  | Fin q => Fin (inject_Z (Qfloor (q + (1 # 2))))
  | _ => x
  end.

Module CheckStatus.
Inductive t : Type := PASS | FAIL.
End CheckStatus.

Module ServiceReadiness.
Inductive t : Type := GOLD | SILVER | BRONZE | FAIL.
End ServiceReadiness.

(** [IScorecardColumn] *)
Module Pillar.
Record t : Type := mk { key : string; label : string; weight : number }.
End Pillar.

(** [IScorecardRule] *)
Module Rule.
Record t : Type := mk {
  id : string; pillar : string; weight : number; description : string }.
End Rule.

(** [IScorecard] *)
Module ScorecardDoc.
Record t : Type := mk {
  team : string; pillars : list Pillar.t; rules : list Rule.t }.
End ScorecardDoc.

(** [IServiceCheck] *)
Module ServiceCheck.
Record t : Type := mk {
  service : string;
  team : string;
  checkType : string;
  status : CheckStatus.t;
  pillar : option string;
  checkWeight : option number }.
End ServiceCheck.

(** [IService], with the fields the readiness code reads and writes. *)
Module Service.
Record t : Type := mk {
  _id : string;
  team : string;
  name : string;
  owner : option string;
  runbookUrl : option string;
  repoUrl : option string;
  readiness : option ServiceReadiness.t;
  score : option number;
  lastSeenAt : option Date }.
End Service.

(** The collections the readiness code works on, the answer of the telemetry
    count query per service name and table ([None]: the query rejects), and
    the clock. *)
Record Registry : Type := mkRegistry {
  teams : list string;
  scorecards : list ScorecardDoc.t;
  services : list Service.t;
  serviceChecks : list ServiceCheck.t;
  sloDocs : list SLO.t;
  telemetryCount : string -> string -> option N;
  today : Date
}.

Definition DEFAULT_PILLARS : list Pillar.t :=
  [ Pillar.mk "telemetry" "Telemetry" (Fin 35);
    Pillar.mk "reliability" "Reliability" (Fin 35);
    Pillar.mk "ownership" "Ownership" (Fin 15);
    Pillar.mk "documentation" "Documentation" (Fin 15) ].

(** The (empty) default rules of [services/scorecard.ts]. *)
Definition DEFAULT_RULES_OF_SERVICE : list Rule.t := [].

(** The default rules of [tasks/runReadinessChecks.ts]. *)
Definition DEFAULT_RULES : list Rule.t :=
  [ Rule.mk "has_logs" "telemetry" (Fin 1)
            "Service must have logs in the last 24h";
    Rule.mk "has_traces" "telemetry" (Fin 1)
            "Service must have traces in the last 24h";
    Rule.mk "has_slo" "reliability" (Fin 1)
            "Service must have at least one SLO defined";
    Rule.mk "has_owner" "ownership" (Fin 1)
            "Service must have an owner assigned";
    Rule.mk "has_runbook" "documentation" (Fin 1)
            "Service must have a runbook URL";
    Rule.mk "has_repo" "documentation" (Fin 1)
            "Service must have a repository URL" ].

(** [Scorecard.findOne({ team: teamId })] *)
Definition findScorecard (teamId : string) (db : Registry)
  : option ScorecardDoc.t :=
  find (fun sc => String.eqb (ScorecardDoc.team sc) teamId) (scorecards db).

Definition getScorecardForTeam (teamId : string) (db : Registry)
  : list Pillar.t * list Rule.t :=
  match findScorecard teamId db with
  | None => (DEFAULT_PILLARS, DEFAULT_RULES_OF_SERVICE)
  | Some scorecard =>
      (ScorecardDoc.pillars scorecard, ScorecardDoc.rules scorecard)
  end.

(** *** The [pillarScores] object *)

Module Stats.
Record t : Type := mk { totalWeight : number; passedWeight : number }.
End Stats.

(** [Record<string, { totalWeight, passedWeight }>]: own properties only. *)
Definition PillarScores : Type := list (string * Stats.t).

(** [pillarScores[key]] *)
Fixpoint getScore (key : string) (ps : PillarScores) : option Stats.t :=
  match ps with
  | [] => None
  | (k, st) :: ps' => if String.eqb k key then Some st else getScore key ps'
  end.

(** [pillarScores[key] = st] *)
Fixpoint setScore (key : string) (st : Stats.t) (ps : PillarScores)
  : PillarScores :=
  match ps with
  | [] => [(key, st)]
  | (k, old) :: ps' =>
      if String.eqb k key then (k, st) :: ps'
      else (k, old) :: setScore key st ps'
  end.

(** [for (const pillar of pillars) pillarScores[pillar.key] =
     { totalWeight: 0, passedWeight: 0 }] *)
Definition initPillarScores (pillars : list Pillar.t) : PillarScores :=
  fold_left (fun ps pillar =>
               setScore (Pillar.key pillar) (Stats.mk (Fin 0) (Fin 0)) ps)
            pillars [].

(** The body of the aggregation loop, for a check of the given pillar key,
    weight and status. *)
Definition addCheck (ps : PillarScores) (pillarKey : string)
    (weight : number) (status : CheckStatus.t) : PillarScores :=
  match getScore pillarKey ps with
  | Some st =>
      let total := (Stats.totalWeight st + weight)%js in
      let passed :=
        match status with
        | CheckStatus.PASS => (Stats.passedWeight st + weight)%js
        | CheckStatus.FAIL => Stats.passedWeight st
        end in
      setScore pillarKey (Stats.mk total passed) ps
  | None => ps
  end.

(** [s || 'other'] *)
Definition orOther (s : option string) : string :=
  if truthy s then text s else "other"%string.

(** [x || 1] on an optional number. *)
Definition orOne (x : option number) : number :=
  match x with
  | None => Fin 1
  | Some NaN => Fin 1
  | Some (Fin a) => if Qeq_bool a 0 then Fin 1 else Fin a
  | Some y => y
  end.

(** The score loop: [(totalScore, totalPillarWeight)] after the pillars. *)
Definition overallScore (pillars : list Pillar.t) (ps : PillarScores)
  : number * number :=
  fold_left
    (fun acc pillar =>
       match getScore (Pillar.key pillar) ps with
       | Some stats =>
           if (Stats.totalWeight stats > Fin 0)%js then
             let pScore := ((Stats.passedWeight stats
                             / Stats.totalWeight stats) * Fin 100)%js in
             ((fst acc + pScore * Pillar.weight pillar)%js,
              (snd acc + Pillar.weight pillar)%js)
           else acc
       | None => acc
       end)
    pillars (Fin 0, Fin 0).

Definition finalScoreOf (acc : number * number) : number :=
  if (snd acc > Fin 0)%js then mathRound (fst acc / snd acc)%js else Fin 0.

Definition readinessOf (finalScore : number) : ServiceReadiness.t :=
  if (finalScore >= Fin 90)%js then ServiceReadiness.GOLD
  else if (finalScore >= Fin 70)%js then ServiceReadiness.SILVER
  else if (finalScore >= Fin 40)%js then ServiceReadiness.BRONZE
  else ServiceReadiness.FAIL.

(** [Service.findByIdAndUpdate(serviceId, update)]: the service of that id,
    if there is one, is updated. *)
Fixpoint updateServiceById (serviceId : string) (update : Service.t -> Service.t)
    (l : list Service.t) : list Service.t :=
  match l with
  | [] => []
  | s :: l' =>
      if String.eqb (Service._id s) serviceId then update s :: l'
      else s :: updateServiceById serviceId update l'
  end.

Definition withServices (db : Registry) (l : list Service.t) : Registry :=
  mkRegistry (teams db) (scorecards db) l (serviceChecks db) (sloDocs db)
             (telemetryCount db) (today db).

Definition withServiceChecks (db : Registry) (l : list ServiceCheck.t)
  : Registry :=
  mkRegistry (teams db) (scorecards db) (services db) l (sloDocs db)
             (telemetryCount db) (today db).

(** *** [calculateServiceScore] *)

Definition scoreOfChecks (pillars : list Pillar.t)
    (checks : list ServiceCheck.t) : number :=
  let pillarScores :=
    fold_left
      (fun ps check =>
         addCheck ps (orOther (ServiceCheck.pillar check))
                  (orOne (ServiceCheck.checkWeight check))
                  (ServiceCheck.status check))
      checks (initPillarScores pillars) in
  finalScoreOf (overallScore pillars pillarScores).

Definition calculateServiceScore (serviceId teamId : string) (db : Registry)
  : number * Registry :=
  let scorecard := getScorecardForTeam teamId db in
  let pillars := fst scorecard in
  let checks :=
    List.filter (fun c => String.eqb (ServiceCheck.service c) serviceId)
                (serviceChecks db) in
  let finalScore := scoreOfChecks pillars checks in
  let readiness := readinessOf finalScore in
  (finalScore,
   withServices db
     (updateServiceById serviceId
        (fun s => Service.mk (Service._id s) (Service.team s) (Service.name s)
                    (Service.owner s) (Service.runbookUrl s)
                    (Service.repoUrl s) (Some readiness) (Some finalScore)
                    (Service.lastSeenAt s))
        (services db))).

(** *** [RunReadinessChecksTask]: one service, one team, all teams *)

(** An element of [checkResults]. *)
Module CheckResult.
Record t : Type := mk { checkType : string; status : CheckStatus.t }.
End CheckResult.

Definition passIf (b : bool) : CheckStatus.t :=
  if b then CheckStatus.PASS else CheckStatus.FAIL.

(** [SLO.countDocuments({ team, serviceName })] *)
Definition sloCount (teamId serviceName : string) (db : Registry) : nat :=
  List.length
    (List.filter (fun s => String.eqb (SLO.team s) teamId
                           && String.eqb (SLO.serviceName s) serviceName)
                 (sloDocs db)).

(** The results pushed by the [try] block of the telemetry checks and by its
    [catch]. *)
Definition telemetryResults (db : Registry) (serviceName : string)
  : list CheckResult.t :=
  match telemetryCount db serviceName "otel_logs" with
  | None =>
      [ CheckResult.mk "has_logs" CheckStatus.FAIL;
        CheckResult.mk "has_traces" CheckStatus.FAIL ]
  | Some logCount =>
      let logs := CheckResult.mk "has_logs" (passIf (0 <? logCount)%N) in
      match telemetryCount db serviceName "otel_traces" with
      | None =>
          [ logs;
            CheckResult.mk "has_logs" CheckStatus.FAIL;
            CheckResult.mk "has_traces" CheckStatus.FAIL ]
      | Some traceCount =>
          [ logs;
            CheckResult.mk "has_traces" (passIf (0 <? traceCount)%N) ]
      end
  end.

Definition checkResultsOf (db : Registry) (teamId : string)
    (service : Service.t) : list CheckResult.t :=
  [ CheckResult.mk "has_owner" (passIf (truthy (Service.owner service)));
    CheckResult.mk "has_runbook"
                   (passIf (truthy (Service.runbookUrl service)));
    CheckResult.mk "has_repo" (passIf (truthy (Service.repoUrl service)));
    CheckResult.mk "has_slo"
      (passIf (0 <? sloCount teamId (Service.name service) db)%nat) ]
  ++ telemetryResults db (Service.name service).

(** [new Map(rules.map(r => [r.id, r])).get(id)]: the last rule of that id. *)
Definition ruleFor (rules : list Rule.t) (id : string) : option Rule.t :=
  find (fun r => String.eqb (Rule.id r) id) (rev rules).

(** [rule?.pillar || 'other'] and [rule?.weight || 1] *)
Definition pillarKeyOf (rule : option Rule.t) : string :=
  match rule with
  | Some r => orOther (Some (Rule.pillar r))
  | None => "other"%string
  end.

Definition weightOf (rule : option Rule.t) : number :=
  match rule with
  | Some r => orOne (Some (Rule.weight r))
  | None => Fin 1
  end.

(** [ServiceCheck.findOneAndUpdate({ service, checkType }, { $set: ... },
     { upsert: true })] *)
Fixpoint upsertCheck (serviceId teamId checkType : string)
    (status : CheckStatus.t) (pillarKey : string) (weight : number)
    (l : list ServiceCheck.t) : list ServiceCheck.t :=
  match l with
  | [] => [ ServiceCheck.mk serviceId teamId checkType status
                            (Some pillarKey) (Some weight) ]
  | c :: l' =>
      if String.eqb (ServiceCheck.service c) serviceId
         && String.eqb (ServiceCheck.checkType c) checkType
      then ServiceCheck.mk (ServiceCheck.service c) teamId
                           (ServiceCheck.checkType c) status
                           (Some pillarKey) (Some weight) :: l'
      else c :: upsertCheck serviceId teamId checkType status pillarKey
                            weight l'
  end.

(** The loop over [checkResults]: the pillar scores and the stored checks. *)
Definition recordResults (rules : list Rule.t) (serviceId teamId : string)
    (results : list CheckResult.t)
    (start : PillarScores * list ServiceCheck.t)
  : PillarScores * list ServiceCheck.t :=
  fold_left
    (fun acc res =>
       let rule := ruleFor rules (CheckResult.checkType res) in
       let pillarKey := pillarKeyOf rule in
       let weight := weightOf rule in
       (addCheck (fst acc) pillarKey weight (CheckResult.status res),
        upsertCheck serviceId teamId (CheckResult.checkType res)
                    (CheckResult.status res) pillarKey weight (snd acc)))
    results start.

(** The body of the loop over the services of a team. *)
Definition evaluateService (pillars : list Pillar.t) (rules : list Rule.t)
    (teamId : string) (service : Service.t) (db : Registry)
  : number * Registry :=
  let checkResults := checkResultsOf db teamId service in
  let recorded :=
    recordResults rules (Service._id service) teamId checkResults
                  (initPillarScores pillars, serviceChecks db) in
  let finalScore := finalScoreOf (overallScore pillars (fst recorded)) in
  let readiness := readinessOf finalScore in
  (finalScore,
   withServices (withServiceChecks db (snd recorded))
     (updateServiceById (Service._id service)
        (fun s => Service.mk (Service._id s) (Service.team s) (Service.name s)
                    (Service.owner s) (Service.runbookUrl s)
                    (Service.repoUrl s) (Some readiness) (Some finalScore)
                    (Some (today db)))
        (services db))).

(** The body of the loop over the teams. *)
Definition evaluateTeam (teamId : string) (db : Registry) : Registry :=
  let scorecard := findScorecard teamId db in
  let pillars := match scorecard with
                 | Some sc => ScorecardDoc.pillars sc
                 | None => DEFAULT_PILLARS
                 end in
  let rules := match scorecard with
               | Some sc => ScorecardDoc.rules sc
               | None => DEFAULT_RULES
               end in
  let found :=
    List.filter (fun s => String.eqb (Service.team s) teamId) (services db) in
  fold_left (fun db service =>
               snd (evaluateService pillars rules teamId service db))
            found db.

(** [execute] *)
Definition execute (db : Registry) : Registry :=
  fold_left (fun db teamId => evaluateTeam teamId db) (teams db) db.

(** A small registry: one team on the default scorecard, two services. *)
Definition paymentsService : Service.t :=
  Service.mk "svc-1" "team-1" "checkout" (Some "alice"%string)
             (Some "https://runbooks/checkout"%string) None None None None.

Definition bareService : Service.t :=
  Service.mk "svc-2" "team-1" "search" None None None None None None.

Definition exampleRegistry : Registry :=
  {| teams := ["team-1"%string];
     scorecards := [];
     services := [paymentsService; bareService];
     serviceChecks := [];
     sloDocs := [checkoutSLO];
     telemetryCount := fun name table =>
       if String.eqb name "checkout" then Some 12%N else Some 0%N;
     today := 2592000000000%Z |}.

(** *** Well-formed weights *)

(** A pillar weight that is a rational, not negative. *)
Definition validPillars (pillars : list Pillar.t) : Prop :=
  Forall (fun p => exists q, Pillar.weight p = Fin q /\ 0 <= q) pillars.

(** A weight that is absent or a rational, not negative. *)
Definition validWeight (x : option number) : Prop :=
  match x with
  | None => True
  | Some (Fin q) => 0 <= q
  | Some _ => False
  end.

(** Weights of an ordinary scorecard: not negative, at most [10^9], and at
    most [1000] pillars.  In this range the sums and products of the score
    stay far below the largest binary64 value, and their rounding moves the
    quotient by much less than half a point. *)
Definition boundedPillars (pillars : list Pillar.t) : Prop :=
  validPillars pillars
  /\ (List.length pillars <= 1000)%nat
  /\ Forall (fun p => (Pillar.weight p <= Fin 1000000000)%js = true) pillars.

Definition boundedWeight (x : option number) : Prop :=
  validWeight x
  /\ match x with
     | Some w => (w <= Fin 1000000000)%js = true
     | None => True
     end.

(** Totals that are rationals with [0 <= passedWeight <= totalWeight]. *)
Definition okStats (st : Stats.t) : Prop :=
  exists t p, st = Stats.mk (Fin t) (Fin p) /\ 0 <= p /\ p <= t.

Definition okScores (ps : PillarScores) : Prop :=
  Forall (fun e => okStats (snd e)) ps.


(** The two loop bodies of the score, by name. *)
Definition checkStep (ps : PillarScores) (check : ServiceCheck.t)
  : PillarScores :=
  addCheck ps (orOther (ServiceCheck.pillar check))
           (orOne (ServiceCheck.checkWeight check))
           (ServiceCheck.status check).

Definition scoreStep (ps : PillarScores) (acc : number * number)
    (pillar : Pillar.t) : number * number :=
  match getScore (Pillar.key pillar) ps with
  | Some stats =>
      if (Stats.totalWeight stats > Fin 0)%js then
        ((fst acc + (Stats.passedWeight stats / Stats.totalWeight stats)
                    * Fin 100 * Pillar.weight pillar)%js,
         (snd acc + Pillar.weight pillar)%js)
      else acc
  | None => acc
  end.

(** The stored readiness and score of a service, by id. *)
Definition storedReadiness (serviceId : string) (db : Registry)
  : option (option ServiceReadiness.t * option number) :=
  match find (fun s => String.eqb (Service._id s) serviceId) (services db) with
  | Some s => Some (Service.readiness s, Service.score s)
  | None => None
  end.

(** What the task and the recalculation read of a service and never write. *)
Definition describe (s : Service.t)
  : string * string * string * option string * option string * option string :=
  (Service._id s, Service.team s, Service.name s, Service.owner s,
   Service.runbookUrl s, Service.repoUrl s).

(** Every pillar has passed all the weight it has counted. *)
Definition allPassed (ps : PillarScores) : Prop :=
  Forall (fun e => Stats.passedWeight (snd e) = Stats.totalWeight (snd e)) ps.

(** The pillar of that key has counted a check: its total weight is
    positive. *)
Definition counted (k : string) (ps : PillarScores) : Prop :=
  exists t p, getScore k ps = Some (Stats.mk (Fin t) (Fin p)) /\ 0 < t.

(** The stored check the task writes for a result. *)
Definition checkOf (rules : list Rule.t) (serviceId teamId : string)
    (res : CheckResult.t) : ServiceCheck.t :=
  ServiceCheck.mk serviceId teamId (CheckResult.checkType res)
                  (CheckResult.status res)
                  (Some (pillarKeyOf (ruleFor rules (CheckResult.checkType res))))
                  (Some (weightOf (ruleFor rules (CheckResult.checkType res)))).

(** [ServiceCheck.findOne({ service, checkType })] *)
Definition findCheck (serviceId checkType : string) (db : Registry)
  : option ServiceCheck.t :=
  find (fun c => String.eqb (ServiceCheck.service c) serviceId
                 && String.eqb (ServiceCheck.checkType c) checkType)
       (serviceChecks db).

(** The check types stored for a service, in the order of the store. *)
Definition storedTypes (serviceId : string) (db : Registry) : list string :=
  map ServiceCheck.checkType
      (List.filter (fun c => String.eqb (ServiceCheck.service c) serviceId)
                   (serviceChecks db)).

(** The check types of the task, in the order it pushes them. *)
Definition taskTypes : list string :=
  [ "has_owner"; "has_runbook"; "has_repo"; "has_slo"; "has_logs";
    "has_traces" ]%string.

(** A service that passes everything, after a run of the task; and the small
    registry with a reported check that names no pillar. *)
Definition goldService : Service.t :=
  Service.mk "svc-3" "team-1" "checkout" (Some "alice"%string)
             (Some "https://runbooks/checkout"%string)
             (Some "https://git/checkout"%string) None None None.

Definition goldRegistry : Registry :=
  {| teams := ["team-1"%string];
     scorecards := [];
     services := [goldService];
     serviceChecks := [];
     sloDocs := [checkoutSLO];
     telemetryCount := fun name table => Some 12%N;
     today := 2592000000000%Z |}.


(** The two halves of the loop over [checkResults], by name. *)
Definition resultStep (rules : list Rule.t) (ps : PillarScores)
    (res : CheckResult.t) : PillarScores :=
  addCheck ps (pillarKeyOf (ruleFor rules (CheckResult.checkType res)))
           (weightOf (ruleFor rules (CheckResult.checkType res)))
           (CheckResult.status res).

Definition storeStep (rules : list Rule.t) (serviceId teamId : string)
    (l : list ServiceCheck.t) (res : CheckResult.t) : list ServiceCheck.t :=
  upsertCheck serviceId teamId (CheckResult.checkType res)
              (CheckResult.status res)
              (pillarKeyOf (ruleFor rules (CheckResult.checkType res)))
              (weightOf (ruleFor rules (CheckResult.checkType res))) l.

(** The score of the default scorecard, from the six answers: each pillar
    gives its weight times the fraction of its checks that pass. *)
Definition oneIf (b : bool) : Q := if b then 1 else 0.

Definition defaultScore (owner runbook repo slo logs traces : bool) : number :=
  mathRound (Fin (35 * ((oneIf logs + oneIf traces) / 2)
                  + 35 * oneIf slo
                  + 15 * oneIf owner
                  + 15 * ((oneIf runbook + oneIf repo) / 2))).

(** The same when the log check is counted twice, once as answered and once
    failed, beside a failed trace check. *)
Definition defaultScoreTraceError (owner runbook repo slo logs : bool)
  : number :=
  mathRound (Fin (35 * (oneIf logs / 3)
                  + 35 * oneIf slo
                  + 15 * oneIf owner
                  + 15 * ((oneIf runbook + oneIf repo) / 2))).

(** The small registry when ClickHouse answers nothing, and when it answers
    for the logs only. *)
Definition withTelemetry (db : Registry)
    (answer : string -> string -> option N) : Registry :=
  mkRegistry (teams db) (scorecards db) (services db) (serviceChecks db)
             (sloDocs db) answer (today db).

Definition darkRegistry : Registry :=
  withTelemetry exampleRegistry (fun _ _ => None).

Definition tracelessRegistry : Registry :=
  withTelemetry exampleRegistry
    (fun name table =>
       if String.eqb table "otel_traces" then None else Some 12%N).




(* ================================================================== *)
(** * Properties *)

(** ** Comparisons of rationals and of numbers *)

Lemma Qlt_bool_iff (a b : Q) : Qlt_bool a b = true <-> a < b.
Proof.
  unfold Qlt_bool. rewrite negb_true_iff. split; intro H.
  - apply Qnot_le_lt. intro L. apply Qle_bool_iff in L. congruence.
  - destruct (Qle_bool b a) eqn:E; [|reflexivity].
    apply Qle_bool_iff in E. lra.
Qed.

Lemma Qlt_bool_false (a b : Q) : Qlt_bool a b = false <-> b <= a.
Proof.
  unfold Qlt_bool. rewrite negb_false_iff. apply Qle_bool_iff.
Qed.

Lemma Qle_bool_false (a b : Q) : Qle_bool a b = false <-> b < a.
Proof.
  rewrite <- Qlt_bool_iff. unfold Qlt_bool.
  destruct (Qle_bool a b); simpl; split; congruence.
Qed.

Lemma Qeq_bool_false (a b : Q) : Qeq_bool a b = false <-> ~ a == b.
Proof.
  split; [apply Qeq_bool_neq|].
  intro H. destruct (Qeq_bool a b) eqn:E; [|reflexivity].
  apply Qeq_bool_iff in E. contradiction.
Qed.

Lemma Qdiv_100 (x : Q) : x / 100 == x * (1 # 100).
Proof. field. Qed.

(** Write the divisions by [100] as products, for [lra] and [nra]. *)
Ltac undiv :=
  repeat match goal with
         | H : context [(_ / 100)%Q] |- _ => rewrite Qdiv_100 in H
         end;
  rewrite ?Qdiv_100.

Ltac qlra := undiv; lra.

(** Turn every boolean test on rationals in the context into its
    proposition. *)
Ltac qprop :=
  repeat match goal with
  | H : Qle_bool _ _ = true |- _ => apply Qle_bool_iff in H
  | H : Qle_bool _ _ = false |- _ => apply Qle_bool_false in H
  | H : Qlt_bool _ _ = true |- _ => apply Qlt_bool_iff in H
  | H : Qlt_bool _ _ = false |- _ => apply Qlt_bool_false in H
  | H : Qeq_bool _ _ = true |- _ => apply Qeq_bool_iff in H
  | H : Qeq_bool _ _ = false |- _ => apply Qeq_bool_false in H
  | H : negb _ = true |- _ => apply negb_true_iff in H
  | H : negb _ = false |- _ => apply negb_false_iff in H
  end.

(** Split on the boolean test that blocks the goal. *)
Ltac qsplit :=
  match goal with
  | |- context [Qeq_bool ?a ?b] => destruct (Qeq_bool a b) eqn:?
  | |- context [Qle_bool ?a ?b] => destruct (Qle_bool a b) eqn:?
  | |- context [Qlt_bool ?a ?b] => destruct (Qlt_bool a b) eqn:?
  end.

Lemma gtb_Fin (a b : Q) : (Fin a > Fin b)%js = Qlt_bool b a.
Proof. reflexivity. Qed.

Lemma geb_Fin (a b : Q) : (Fin a >= Fin b)%js = Qle_bool b a.
Proof. reflexivity. Qed.

(** ** Counts read as numbers *)

Lemma size_small (n b : N) : (n < 2 ^ b)%N -> (N.size n <= b)%N.
Proof.
  intro H. destruct (N.eq_dec n 0) as [->|Hn]; [cbn; lia|].
  rewrite N.size_log2 by exact Hn.
  apply N.le_succ_l. apply N.log2_lt_pow2; [lia | exact H].
Qed.

Lemma nearestDouble_small (n : N) :
  (n < 2 ^ 53)%N -> nearestDouble n = n.
Proof.
  intro H. unfold nearestDouble.
  apply size_small in H. apply N.leb_le in H. now rewrite H.
Qed.

(** A count of at most [2^53] is read exactly. *)
Lemma nearestDouble_exact (n : N) :
  (n <= 2 ^ 53)%N -> nearestDouble n = n.
Proof.
  intro H. apply N.lt_eq_cases in H as [H | ->];
    [now apply nearestDouble_small | reflexivity].
Qed.

Lemma nearestDouble_positive (n : N) :
  (0 < n)%N -> (0 < nearestDouble n)%N.
Proof.
  intro Hn. unfold nearestDouble.
  destruct (N.size n <=? 53)%N eqn:E; [exact Hn|].
  apply N.leb_gt in E.
  set (k := (N.size n - 53)%N).
  assert (N.shiftr n k <> 0)%N as Hq.
  { rewrite N.shiftr_div_pow2. intro H0.
    apply N.div_small_iff in H0; [|apply N.pow_nonzero; lia].
    assert (2 ^ N.log2 n <= n)%N by (apply N.log2_spec; exact Hn).
    assert (2 ^ k <= 2 ^ N.log2 n)%N.
    { apply N.pow_le_mono_r; [lia|]. unfold k.
      rewrite N.size_log2 by lia. lia. }
    lia. }
  assert (forall q', (N.shiftr n k <= q')%N -> (0 < N.shiftl q' k)%N) as Hs.
  { intros q' Hle. rewrite N.shiftl_mul_pow2.
    apply N.mul_pos_pos; [lia|].
    assert (2 ^ k <> 0)%N by (apply N.pow_nonzero; lia). lia. }
  apply Hs.
  destruct (_ <? _)%N; [lia|]. destruct (_ <? _)%N; [lia|].
  destruct (N.even _); lia.
Qed.

Lemma ofN_exact (n : N) : (n <= 2 ^ 53)%N -> ofN n = ofZ (Z.of_N n).
Proof.
  intro H. unfold ofN. rewrite nearestDouble_exact by exact H.
  assert ((N.size n <=? 1024)%N = true) as ->; [|reflexivity].
  apply N.leb_le. apply size_small.
  apply N.le_lt_trans with (1 := H). apply N.pow_lt_mono_r; lia.
Qed.

Lemma ofN_positive (n : N) : (0 < n)%N -> (ofN n > Fin 0)%js = true.
Proof.
  intro H. apply nearestDouble_positive in H. unfold ofN.
  destruct (N.size (nearestDouble n) <=? 1024)%N; [|reflexivity].
  unfold ofZ. rewrite gtb_Fin. apply Qlt_bool_iff.
  unfold Qlt. cbn [Qnum Qden inject_Z]. lia.
Qed.

Lemma ofN_zero (n : N) : (ofN n === Fin 0)%js = true -> n = 0%N.
Proof.
  intro H. destruct (N.eq_dec n 0) as [->|Hn]; [reflexivity|].
  assert (0 < n)%N as Hpos by lia. apply ofN_positive in Hpos.
  unfold ofN in *.
  destruct (N.size (nearestDouble n) <=? 1024)%N; [|discriminate].
  unfold ofZ in *. rewrite gtb_Fin in Hpos. apply Qlt_bool_iff in Hpos.
  cbn [eqb] in H. apply Qeq_bool_iff in H. rewrite H in Hpos.
  now apply Qlt_irrefl in Hpos.
Qed.

Lemma gtb_zero_inv (x : number) :
  (x > Fin 0)%js = true -> x = Infinity \/ exists a, x = Fin a /\ 0 < a.
Proof.
  destruct x as [a| | |]; simpl; try discriminate; auto.
  intro H. right. exists a. split; [reflexivity|].
  apply Qlt_bool_iff in H. exact H.
Qed.

(** ** The record [statusOf] computes, field by field *)

Section StatusOf.

Variables (slo : SLO.t) (W : number) (ws : option Date) (now : Date).
Variables (n d : number).

Let r := value (statusOf slo W ws now n d).
Let t := SLO.targetValue slo.

Lemma statusOf_noData :
  noData n d = true ->
  statusOf slo W ws now n d =
  ret (Result.mk slo (Fin 100) t (Fin 100) HEALTHY (Fin 0) (Fin 0)
                 ws now now None).
Proof.
  unfold noData, statusOf. intros ->. reflexivity.
Qed.

Lemma achieved_eq :
  noData n d = false ->
  Result.achieved r =
  if (d > Fin 0)%js then ((n / d) * Fin 100)%js else Fin 100.
Proof.
  unfold noData, r, statusOf. intros ->.
  destruct (d > Fin 0)%js; reflexivity.
Qed.

End StatusOf.

Lemma positive_denominator_has_data (n d : number) :
  (d > Fin 0)%js = true -> noData n d = false.
Proof.
  intro H. apply gtb_zero_inv in H. unfold noData.
  destruct H as [-> | (b & -> & Hb)]; [reflexivity|].
  simpl. destruct (Qeq_bool b 0) eqn:E; [|reflexivity].
  qprop. lra.
Qed.

Section StatusFields.

Variables (slo : SLO.t) (W : number) (ws : option Date) (now : Date).
Variables (n d : number).

Let r := value (statusOf slo W ws now n d).
Let t := SLO.targetValue slo.

Lemma achieved_positive :
  (d > Fin 0)%js = true -> Result.achieved r = ((n / d) * Fin 100)%js.
Proof.
  intro H. unfold r. rewrite achieved_eq by now apply positive_denominator_has_data.
  now rewrite H.
Qed.

Lemma errorBudgetRemaining_eq :
  noData n d = false ->
  Result.errorBudgetRemaining r = errorBudgetPercentOf t W (Result.achieved r).
Proof.
  unfold noData, r, statusOf. intros ->.
  unfold errorBudgetPercentOf, errorBudgetTotalOf, errorBudgetUsedOf, t.
  destruct (d > Fin 0)%js; simpl;
    match goal with |- context [if ?c then _ else _] => destruct c end;
    reflexivity.
Qed.

Lemma status_eq :
  noData n d = false ->
  Result.status r =
  if (Result.achieved r >= t)%js then HEALTHY
  else if lowBudget (Result.errorBudgetRemaining r) then AT_RISK
  else BREACHED.
Proof.
  unfold noData, r, statusOf. intros ->.
  unfold lowBudget, t.
  destruct (d > Fin 0)%js; simpl;
    repeat match goal with
           | |- context [if ?c then _ else _] => destruct c; simpl
           end; reflexivity.
Qed.

Lemma burnRate_eq :
  noData n d = false ->
  Result.burnRate r =
  let expectedErrorRate := (Fin 1 - t / Fin 100)%js in
  let actualErrorRate :=
    if (d > Fin 0)%js then (Fin 1 - n / d)%js else Fin 0 in
  Some (if (expectedErrorRate > Fin 0)%js
        then (actualErrorRate / expectedErrorRate)%js
        else if (actualErrorRate > Fin 0)%js then Infinity else Fin 0).
Proof.
  unfold noData, r, statusOf. intros ->. unfold t.
  destruct (d > Fin 0)%js; simpl;
    repeat match goal with
           | |- context [if ?c then _ else _] => destruct c; simpl
           end; reflexivity.
Qed.

End StatusFields.

(** ** Status classification *)

Lemma ratio_times_100 (n d : number) :
  (d > Fin 0)%js = true ->
  same ((n / d) * Fin 100)%js ((Fin 100 * n) / d)%js.
Proof.
  intro H. apply gtb_zero_inv in H.
  destruct H as [-> | (b & -> & Hb)].
  - destruct n as [a| | |]; simpl; try exact I. lra.
  - assert (Qeq_bool b 0 = false) as Eb by (apply Qeq_bool_false; lra).
    assert (Qle_bool 0 b = true) as Lb by (apply Qle_bool_iff; lra).
    destruct n as [a| | |]; simpl; rewrite ?Eb, ?Lb; simpl; try exact I.
    field. lra.
Qed.

(** *** The classification in binary64 *)




(** ** Empty state *)

(** Every division [statusOf] evaluates has a non-zero divisor. *)
Lemma statusOf_divisors_nonzero :
  forall (slo : SLO.t) (W : number) (ws : option Date) (now : Date)
         (n d : number),
    Forall (fun y => (y === Fin 0)%js = false)
           (divisors (statusOf slo W ws now n d)).
Proof.
  intros slo W ws now n d.
  assert (forall y, (y > Fin 0)%js = true -> (y === Fin 0)%js = false) as P.
  { intros y H. apply gtb_zero_inv in H.
    destruct H as [-> | (b & -> & Hb)]; [reflexivity|].
    simpl. apply Qeq_bool_false. lra. }
  unfold statusOf.
  destruct ((d === Fin 0) && (n === Fin 0))%js; [constructor|].
  unfold divisors, bind, ret, divide.
  destruct (d > Fin 0)%js eqn:Hd; cbn [fst snd app];
    repeat match goal with
           | |- context [if (?c > Fin 0)%js then _ else _] =>
               let E := fresh "E" in
               destruct (c > Fin 0)%js eqn:E; cbn [fst snd app]
           end;
    repeat (constructor; try reflexivity; try (apply P; assumption)).
Qed.

(** C2.  When the summed counts are both [0], the result is the default one:
    [HEALTHY], [achieved = 100], [errorBudgetRemaining = 100]; no division is
    evaluated on that path, and on no path is a division by zero. *)
Theorem no_data_default :
  forall (slo : SLO.t) (W : number) (ws : option Date) (now : Date)
         (n d : number),
    (n === Fin 0)%js = true ->
    (d === Fin 0)%js = true ->
    let c := statusOf slo W ws now n d in
    Result.status (value c) = HEALTHY
    /\ Result.achieved (value c) = Fin 100
    /\ Result.errorBudgetRemaining (value c) = Fin 100
    /\ divisors c = []
    /\ Forall (fun y => (y === Fin 0)%js = false) (divisors c).
Proof.
  intros slo W ws now n d Hn Hd c. unfold c.
  rewrite statusOf_noData by (unfold noData; now rewrite Hn, Hd).
  repeat split; constructor.
Qed.

(** ** Burn rate *)


(** A point of the series carries the [achieved] and [burnRate] that
    [getSLOStatus] computes from the counts of its bucket (lines 241-253 apply
    the formulas of lines 121 and 133-137). *)
Lemma pointOf_as_status (slo : SLO.t) (W : number) (ws : option Date)
    (now : Date) (b : Bucket.t) :
  (0 < Bucket.denominator b)%N ->
  let p := pointOf (Fin 1 - SLO.targetValue slo / Fin 100)%js b in
  let r := value (statusOf slo W ws now (ofN (Bucket.numerator b))
                           (ofN (Bucket.denominator b))) in
  Result.achieved r = Point.achieved p
  /\ Result.burnRate r = Some (Point.burnRate p).
Proof.
  intros Hd p r.
  assert ((ofN (Bucket.denominator b) > Fin 0)%js = true) as Hgt.
  { now apply ofN_positive. }
  pose proof (positive_denominator_has_data (ofN (Bucket.numerator b)) _ Hgt)
    as Hdata.
  unfold r. split.
  - rewrite achieved_eq by exact Hdata. reflexivity.
  - rewrite burnRate_eq by exact Hdata. reflexivity.
Qed.

(** ** The [AT_RISK] branch *)

(** A product or quotient that is a rational has rational factors. *)
Lemma mul_Fin_inv (x y : number) (q : Q) :
  (x * y)%js = Fin q -> exists a b, x = Fin a /\ y = Fin b /\ q = a * b.
Proof.
  destruct x as [a| | |], y as [b| | |]; simpl; try discriminate;
    try (unfold scaleInf, inf; repeat qsplit; discriminate).
  intros [= <-]. now exists a, b.
Qed.

Lemma sub_Fin_inv (x y : number) (q : Q) :
  (x - y)%js = Fin q -> exists a b, x = Fin a /\ y = Fin b /\ q = a + - b.
Proof.
  destruct x as [a| | |], y as [b| | |]; simpl; try discriminate.
  intros [= <-]. now exists a, b.
Qed.

Lemma div100_Fin_inv (x : number) (q : Q) :
  (x / Fin 100)%js = Fin q -> exists a, x = Fin a /\ q = a / 100.
Proof.
  destruct x as [a| | |]; simpl; try discriminate.
  intros [= <-]. now exists a.
Qed.

Lemma max0_positive_inv (x : number) :
  (max (Fin 0) x > Fin 0)%js = true -> (x > Fin 0)%js = true.
Proof.
  destruct x as [a| | |]; simpl; try discriminate; auto.
  destruct (Qle_bool 0 a) eqn:E; simpl; auto.
  intro H. qprop. lra.
Qed.

Lemma div_positive_inv (x y : number) :
  (y > Fin 0)%js = true ->
  ((x / y) * Fin 100 > Fin 0)%js = true ->
  ((x / y) * Fin 100 <= Fin 10)%js = true ->
  (x > Fin 0)%js = true /\ exists a b, x = Fin a /\ y = Fin b.
Proof.
  intros Hy. apply gtb_zero_inv in Hy.
  destruct Hy as [-> | (b & -> & Hb)].
  - destruct x as [a| | |]; simpl; discriminate.
  - assert (Qeq_bool b 0 = false) as Eb by (apply Qeq_bool_false; lra).
    assert (Qle_bool 0 b = true) as Lb by (apply Qle_bool_iff; lra).
    destruct x as [a| | |]; simpl; rewrite ?Eb, ?Lb; simpl;
      try discriminate.
    intros H _. split; [|now exists a, b].
    qprop. apply Qlt_bool_iff.
    assert (0 < a / b) as Hq by lra.
    destruct (Qlt_le_dec 0 a) as [|Ha]; [assumption|exfalso].
    assert (a / b <= 0); [|lra].
    apply Qle_shift_div_r; lra.
Qed.

(** A budget percentage in [(0, 10]] comes from rational inputs with a
    positive total budget that exceeds the used budget by at most a tenth of
    the total. *)
Lemma lowBudget_inv (t W a : number) :
  lowBudget (errorBudgetPercentOf t W a) = true ->
  exists t' w a',
    t = Fin t' /\ W = Fin w /\ a = Fin a'
    /\ 0 < (1 + - (t' / 100)) * w
    /\ 0 < (1 + - (t' / 100)) * w + - ((1 + - (a' / 100)) * w)
    /\ ((1 + - (t' / 100)) * w + - ((1 + - (a' / 100)) * w))
       / ((1 + - (t' / 100)) * w) * 100 <= 10.
Proof.
  intro H0. pose proof H0 as H. revert H.
  unfold lowBudget, errorBudgetPercentOf.
  set (total := errorBudgetTotalOf t W).
  set (used := errorBudgetUsedOf W a).
  cbv zeta.
  destruct (total > Fin 0)%js eqn:Htot; [|discriminate].
  intro H. apply andb_prop in H. destruct H as [H1 H2].
  destruct (div_positive_inv _ _ Htot H1 H2) as (Hrem & r0 & b & Er & Eb).
  apply max0_positive_inv in Hrem.
  apply gtb_zero_inv in Hrem.
  destruct Hrem as [Einf | (x & Ex & Hx)].
  { rewrite Einf in Er. discriminate. }
  rewrite Eb in Htot. rewrite gtb_Fin in Htot. apply Qlt_bool_iff in Htot.
  unfold total, errorBudgetTotalOf in Eb.
  apply mul_Fin_inv in Eb. destruct Eb as (e & w & Ee & EW & ->).
  apply sub_Fin_inv in Ee. destruct Ee as (one & q1 & [= <-] & Eq1 & ->).
  apply div100_Fin_inv in Eq1. destruct Eq1 as (t' & Et & ->).
  rewrite Ex in Er. clear Er.
  apply sub_Fin_inv in Ex. destruct Ex as (tot & u & Etot & Eu & ->).
  unfold used, errorBudgetUsedOf in Eu.
  apply mul_Fin_inv in Eu. destruct Eu as (e2 & w2 & Ee2 & EW2 & ->).
  apply sub_Fin_inv in Ee2. destruct Ee2 as (one & q2 & [= <-] & Eq2 & ->).
  apply div100_Fin_inv in Eq2. destruct Eq2 as (a' & Ea & ->).
  rewrite EW in EW2. injection EW2 as <-.
  unfold total, errorBudgetTotalOf in Etot. rewrite Et, EW in Etot.
  simpl in Etot. injection Etot as <-.
  exists t', w, a'. repeat split; try assumption.
  clear H1 H2. rewrite Et, EW, Ea in H0.
  unfold lowBudget, errorBudgetPercentOf, errorBudgetTotalOf,
    errorBudgetUsedOf in H0.
  simpl in H0.
  set (X := (1 + - (t' / 100)) * w) in *.
  set (Y := (1 + - (a' / 100)) * w) in *.
  assert (Qle_bool X 0 = false) as E1 by (apply Qle_bool_false; exact Htot).
  assert (Qle_bool 0 (X + - Y) = true) as E2
      by (apply Qle_bool_iff; lra).
  assert (Qeq_bool X 0 = false) as E3 by (apply Qeq_bool_false; lra).
  rewrite E1 in H0. simpl in H0. rewrite E2 in H0.
  unfold div in H0. rewrite E3 in H0. simpl in H0.
  apply andb_prop in H0. destruct H0 as [_ H0].
  now apply Qle_bool_iff in H0.
Qed.

(** [AT_RISK] is returned only for a negative window together with a target
    above [100] and an achieved percentage above [100]. *)
Lemma at_risk_inv (slo : SLO.t) (W : number) (ws : option Date) (now : Date)
    (n d : number) :
  Result.status (value (statusOf slo W ws now n d)) = AT_RISK ->
  exists t' w a',
    SLO.targetValue slo = Fin t' /\ W = Fin w
    /\ Result.achieved (value (statusOf slo W ws now n d)) = Fin a'
    /\ w < 0 /\ 100 < t' /\ 100 < a'.
Proof.
  intro H.
  destruct (noData n d) eqn:Hdata.
  { rewrite statusOf_noData in H by assumption. discriminate. }
  rewrite status_eq in H by assumption.
  destruct (Result.achieved (value (statusOf slo W ws now n d))
            >= SLO.targetValue slo)%js eqn:Hh; [discriminate|].
  destruct (lowBudget _) eqn:Hl in H; [|discriminate].
  rewrite errorBudgetRemaining_eq in Hl by assumption.
  apply lowBudget_inv in Hl.
  destruct Hl as (t' & w & a' & Et & EW & Ea & Htot & Hdiff & Hten).
  rewrite Et, Ea in Hh. rewrite geb_Fin in Hh. apply Qle_bool_false in Hh.
  assert (((1 + - (t' / 100)) * w + - ((1 + - (a' / 100)) * w)) * 10
          <= (1 + - (t' / 100)) * w) as Hle.
  { set (X := (1 + - (t' / 100)) * w) in *.
    set (Y := (1 + - (a' / 100)) * w) in *.
    assert ((X + - Y) / X * X == X + - Y) as Hq by (field; lra).
    rewrite <- Hq. set (q := (X + - Y) / X) in *. nra. }
  clear Hten. undiv.
  assert (w < 0) as Hw.
  { clear Hle Htot.
    destruct (Qlt_le_dec w 0) as [|Hw]; [assumption|exfalso]. nra. }
  assert (100 < t') as Ht by (clear Hle Hdiff; nra).
  exists t', w, a'. repeat split; try assumption.
  clear Hdiff Htot Hh.
  destruct (Qlt_le_dec 100 a') as [|Ha]; [assumption|exfalso].
  assert (0 <= (1 + - (a' * (1 # 100)) - (9 # 10) * (1 + - (t' * (1 # 100))))
               * - w) as Hp by nra.
  nra.
Qed.

Lemma achieved_at_most_100 (n d : number) (a' : Q) :
  (d > Fin 0)%js = true -> (n <= d)%js = true ->
  ((n / d) * Fin 100)%js = Fin a' -> a' <= 100.
Proof.
  intros Hd Hn H. apply gtb_zero_inv in Hd.
  destruct Hd as [-> | (b & -> & Hb)].
  - destruct n as [a| | |]; simpl in H; try discriminate.
    injection H as <-. lra.
  - assert (Qeq_bool b 0 = false) as Eb by (apply Qeq_bool_false; lra).
    assert (Qle_bool 0 b = true) as Lb by (apply Qle_bool_iff; lra).
    destruct n as [a| | |]; simpl in H, Hn; rewrite ?Eb, ?Lb in H;
      simpl in H; try discriminate.
    injection H as <-. apply Qle_bool_iff in Hn.
    assert (a / b <= 1) by (apply Qle_shift_div_r; lra). lra.
Qed.

(** C4, as the code has it.  For a window that is not negative, or a target
    that is at most [100], or a numerator that is at most the denominator,
    [getSLOStatus] never answers [AT_RISK] when [denominator > 0]:
    [achieved >= targetValue] gives [HEALTHY], and otherwise the result is
    [BREACHED]; with rational inputs and a positive window
    [errorBudgetTotal - errorBudgetUsed] is then negative and the clamp makes
    [errorBudgetRemaining] zero. *)
Theorem at_risk_unreachable :
  forall (slo : SLO.t) (W : number) (ws : option Date) (now : Date)
         (n d : number),
    (d > Fin 0)%js = true ->
    (W >= Fin 0)%js = true \/ (SLO.targetValue slo <= Fin 100)%js = true
    \/ (n <= d)%js = true ->
    let r := value (statusOf slo W ws now n d) in
    let t := SLO.targetValue slo in
    Result.status r <> AT_RISK
    /\ ((Result.achieved r >= t)%js = true -> Result.status r = HEALTHY)
    /\ ((Result.achieved r >= t)%js = false -> Result.status r = BREACHED)
    /\ (forall w t' a' : Q,
          W = Fin w -> 0 < w -> t = Fin t' -> Result.achieved r = Fin a' ->
          a' < t' ->
          (errorBudgetTotalOf t W - errorBudgetUsedOf W (Result.achieved r)
           < Fin 0)%js = true
          /\ same (Result.errorBudgetRemaining r) (Fin 0)).
Proof.
  intros slo W ws now n d Hd Hvalid r t.
  pose proof (positive_denominator_has_data n d Hd) as Hdata.
  assert (Result.status r <> AT_RISK) as Hnot.
  { intro H. apply at_risk_inv in H.
    destruct H as (t' & w & a' & Et & EW & Ea & Hw & Ht & Ha).
    destruct Hvalid as [H|[H|H]].
    - rewrite EW in H. simpl in H. qprop. lra.
    - rewrite Et in H. simpl in H. qprop. lra.
    - rewrite achieved_positive in Ea by exact Hd.
      pose proof (achieved_at_most_100 n d a' Hd H Ea). lra. }
  pose proof (status_eq slo W ws now n d Hdata) as Hs.
  fold r in Hs. fold t in Hs.
  split; [exact Hnot|]. split; [|split].
  - intro Hh. now rewrite Hs, Hh.
  - intro Hh. rewrite Hh in Hs.
    destruct (lowBudget (Result.errorBudgetRemaining r)); congruence.
  - intros w t' a' EW Hw Et Ea Hlt.
    unfold r at 2. rewrite errorBudgetRemaining_eq by assumption.
    fold r. fold t. rewrite Ea. unfold errorBudgetPercentOf.
    rewrite EW, Et. unfold errorBudgetTotalOf, errorBudgetUsedOf. simpl.
    assert ((1 + - (t' / 100)) * w + - ((1 + - (a' / 100)) * w) < 0) as Hneg.
    { rewrite !Qdiv_100. nra. }
    set (X := (1 + - (t' / 100)) * w) in *.
    set (Y := (1 + - (a' / 100)) * w) in *.
    split.
    + apply negb_true_iff. apply Qle_bool_false. exact Hneg.
    + assert (Qle_bool 0 (X + - Y) = false) as ->
          by (apply Qle_bool_false; exact Hneg).
      destruct (Qle_bool X 0) eqn:E; simpl; [reflexivity|].
      apply Qle_bool_false in E.
      assert (Qeq_bool X 0 = false) as -> by (apply Qeq_bool_false; lra).
      simpl. field. lra.
Qed.

(** ** The two read paths over [slo_aggregates] *)

Lemma sumN_addToBucket_numerator (r : Aggregate.t) (bs : list Bucket.t) :
  sumN (map Bucket.numerator (addToBucket r bs)) =
  (Aggregate.numerator_count r + sumN (map Bucket.numerator bs))%N.
Proof.
  induction bs as [|b bs IH]; simpl; [reflexivity|].
  destruct (Aggregate.timestamp r <? Bucket.timestamp b)%Z; simpl;
    [reflexivity|].
  destruct (Aggregate.timestamp r =? Bucket.timestamp b)%Z; simpl.
  - lia.
  - rewrite IH. lia.
Qed.

Lemma sumN_addToBucket_denominator (r : Aggregate.t) (bs : list Bucket.t) :
  sumN (map Bucket.denominator (addToBucket r bs)) =
  (Aggregate.denominator_count r + sumN (map Bucket.denominator bs))%N.
Proof.
  induction bs as [|b bs IH]; simpl; [reflexivity|].
  destruct (Aggregate.timestamp r <? Bucket.timestamp b)%Z; simpl;
    [reflexivity|].
  destruct (Aggregate.timestamp r =? Bucket.timestamp b)%Z; simpl.
  - lia.
  - rewrite IH. lia.
Qed.

(** Grouping keeps the totals. *)
Lemma sumN_groupByTimestamp (rows : list Aggregate.t) :
  sumN (map Bucket.numerator (groupByTimestamp rows)) =
  sumN (map Aggregate.numerator_count rows)
  /\ sumN (map Bucket.denominator (groupByTimestamp rows)) =
     sumN (map Aggregate.denominator_count rows).
Proof.
  induction rows as [|r rows [IHn IHd]]; simpl; [split; reflexivity|].
  rewrite sumN_addToBucket_numerator, sumN_addToBucket_denominator.
  now rewrite IHn, IHd.
Qed.

(** The buckets come out in strictly ascending order of timestamp, one per
    timestamp. *)
Lemma addToBucket_ascending (r : Aggregate.t) (bs : list Bucket.t) :
  StronglySorted Z.lt (map Bucket.timestamp bs) ->
  StronglySorted Z.lt (map Bucket.timestamp (addToBucket r bs))
  /\ (forall ts, In ts (map Bucket.timestamp (addToBucket r bs)) ->
                 ts = Aggregate.timestamp r
                 \/ In ts (map Bucket.timestamp bs)).
Proof.
  induction bs as [|b bs IH]; simpl; intro S.
  - split.
    + constructor; constructor.
    + intros ts [H|[]]. now left.
  - apply StronglySorted_inv in S. destruct S as [S F].
    destruct (Aggregate.timestamp r <? Bucket.timestamp b)%Z eqn:E1; simpl.
    + apply Z.ltb_lt in E1.
      split; [|intros ts [H|H]; [now left | now right]].
      constructor; [now constructor|].
      constructor; [assumption|].
      rewrite Forall_forall in *. intros x Hx. specialize (F x Hx). lia.
    + destruct (Aggregate.timestamp r =? Bucket.timestamp b)%Z eqn:E2; simpl.
      * apply Z.eqb_eq in E2.
        split; [|intros ts [H|H]; [now left | right; now right]].
        constructor; [assumption|]. now rewrite E2.
      * destruct (IH S) as [S' I'].
        split; [|intros ts [H|H];
                 [right; now left | destruct (I' ts H); auto]].
        constructor; [assumption|].
        apply Z.ltb_ge in E1. apply Z.eqb_neq in E2.
        rewrite Forall_forall in *. intros x Hx.
        destruct (I' x Hx) as [->|Hin]; [lia|now apply F].
Qed.

Lemma groupByTimestamp_ascending (rows : list Aggregate.t) :
  StronglySorted Z.lt (map Bucket.timestamp (groupByTimestamp rows)).
Proof.
  induction rows as [|r rows IH]; simpl; [constructor|].
  now apply addToBucket_ascending.
Qed.

(** Without a row later than [timeEnd], the range of the burn-rate query
    selects the rows the status query selects. *)
Lemma inRange_inWindow (rows : list Aggregate.t) (sloId : string)
    (timeStart timeEnd : Z) :
  (forall a, In a rows -> Aggregate.slo_id a = sloId ->
             (Aggregate.timestamp a <= timeEnd)%Z) ->
  List.filter (inRange sloId timeStart timeEnd) rows =
  List.filter (inWindow sloId timeStart) rows.
Proof.
  intro H. apply filter_ext_in. intros a Ha.
  unfold inRange, inWindow.
  destruct (String.eqb (Aggregate.slo_id a) sloId) eqn:E; [|reflexivity].
  apply String.eqb_eq in E. specialize (H a Ha E).
  apply Z.leb_le in H. rewrite H. now rewrite andb_true_r.
Qed.

Lemma orZero_ofN (k : N) : orZero (ofN k) = ofN k.
Proof.
  destruct (ofN k === Fin 0)%js eqn:E.
  - apply ofN_zero in E. now subst k.
  - unfold ofN, ofZ in *.
    destruct (N.size (nearestDouble k) <=? 1024)%N; [|reflexivity].
    cbn [orZero eqb] in *. now rewrite E.
Qed.

Lemma statusOf_frame (slo : SLO.t) (W : number) (ws : option Date)
    (now : Date) (n d : number) :
  let r := value (statusOf slo W ws now n d) in
  Result.slo r = slo /\ Result.windowStart r = ws
  /\ Result.windowEnd r = now /\ Result.timestamp r = now
  /\ Result.target r = SLO.targetValue slo.
Proof.
  unfold statusOf.
  destruct ((d === Fin 0) && (n === Fin 0))%js; repeat split.
Qed.

Lemma statusOf_counts (slo : SLO.t) (W : number) (ws : option Date)
    (now : Date) (a b : N) :
  let r := value (statusOf slo W ws now (ofN a) (ofN b)) in
  Result.numerator r = ofN a /\ Result.denominator r = ofN b.
Proof.
  unfold statusOf.
  destruct ((ofN b === Fin 0) && (ofN a === Fin 0))%js eqn:E;
    [|split; reflexivity].
  apply andb_prop in E. destruct E as [Eb Ea].
  apply ofN_zero in Ea, Eb. subst a b.
  split; reflexivity.
Qed.

(** ** Running [getSLOStatus] *)

(** Unfold the plumbing of [M], leaving the arithmetic folded. *)
Arguments statusOf : simpl never.
Arguments newDate : simpl never.
Arguments statusRows : simpl never.
Arguments burnRateRows : simpl never.
Arguments firstOr0 : simpl never.
Arguments sqlDateTime : simpl never.
Arguments fourDigitYear : simpl never.
Arguments pointOf : simpl never.
Arguments matchesSLO : simpl never.
Arguments truthy : simpl never.
Arguments text : simpl never.
Arguments sub : simpl never.
Arguments div : simpl never.
Arguments ofZ : simpl never.
Arguments Z.sub : simpl never.
Arguments Z.mul : simpl never.

Ltac run :=
  unfold result, after, andThen, tryCatch, pure, throw, emit, dateNow,
    findOne, createNativeClient, clickhouse, accepts, toISOString, msM,
    logged;
  simpl.

(** A status is returned exactly when MongoDB answers the lookup with the
    SLO, the ClickHouse client is created, [ms] reads the window, the window
    start is a valid date and ClickHouse answers the query; it is then the
    one [statusOf] computes from the counts read. *)
Lemma getSLOStatus_returns (ms : string -> option number) (w : World)
    (sloId teamId : string) (realtime : bool) (r : Result.t) :
  result (getSLOStatus ms sloId teamId realtime) w = Ok (Some r) <->
  (mongoUp w = true /\ clientOk w = true)
  /\ exists slo W ws,
       find (matchesSLO sloId teamId) (slos w) = Some slo
       /\ ms (SLO.timeWindow slo) = Some W
       /\ newDate (ofZ (clock w) - W)%js = Some ws
       /\ accepts w (statusBounds w slo realtime ws) = true
       /\ r = value (statusOf slo W (Some ws) (clock w)
                              (fst (countsRead w slo realtime ws))
                              (snd (countsRead w slo realtime ws))).
Proof.
  destruct w as [clk mg sl cl up aggs raw wh tr].
  unfold getSLOStatus, countsRead, statusBounds, builderMode. run.
  destruct mg; run.
  2:{ split; [discriminate|]. intros ((? & _) & _). discriminate. }
  destruct (find (matchesSLO sloId teamId) sl) as [slo|] eqn:Ef; run.
  2:{ split; [discriminate|]. intros (_ & ? & ? & ? & [=] & _). }
  destruct cl; run.
  2:{ split; [discriminate|]. intros ((_ & ?) & _). discriminate. }
  destruct (ms (SLO.timeWindow slo)) as [W|] eqn:Ems; run.
  2:{ split; [discriminate|]. intros (_ & ? & ? & ? & [= <-] & E & _).
      congruence. }
  rewrite <- andb_assoc.
  destruct (newDate (ofZ clk - W)%js) as [ws|] eqn:Ed.
  2:{ destruct (realtime && (truthy (SLO.filter slo)
                             && truthy (SLO.goodCondition slo))); run;
        (split; [discriminate|];
         intros (_ & slo' & W' & ws' & [= <-] & E1 & E2 & _);
         congruence). }
  destruct (realtime && (truthy (SLO.filter slo)
                         && truthy (SLO.goodCondition slo))) eqn:Ert; run.
  - destruct (up && _) eqn:Eacc; run.
    + split.
      * intros [= <-]. refine (conj (conj eq_refl eq_refl) _).
        exists slo, W, ws. rewrite <- ?andb_assoc, !Ert. simpl.
        now repeat split.
      * intros (_ & slo' & W' & ws' & [= <-] & E1 & E2 & _ & ->).
        rewrite Ems in E1. injection E1 as <-.
        rewrite Ed in E2. injection E2 as <-.
        rewrite <- ?andb_assoc, !Ert. reflexivity.
    + split; [discriminate|].
      intros (_ & slo' & W' & ws' & [= <-] & E1 & E2 & E3 & _).
      rewrite Ems in E1. injection E1 as <-.
        rewrite Ed in E2. injection E2 as <-.
      rewrite Ert in E3. simpl in E3. congruence.
  - destruct (up && _) eqn:Eacc; run.
    + split.
      * intros [= <-]. refine (conj (conj eq_refl eq_refl) _).
        exists slo, W, ws. rewrite <- ?andb_assoc, !Ert. simpl.
        now repeat split.
      * intros (_ & slo' & W' & ws' & [= <-] & E1 & E2 & _ & ->).
        rewrite Ems in E1. injection E1 as <-.
        rewrite Ed in E2. injection E2 as <-.
        rewrite <- ?andb_assoc, !Ert. reflexivity.
    + split; [discriminate|].
      intros (_ & slo' & W' & ws' & [= <-] & E1 & E2 & E3 & _).
      rewrite Ems in E1. injection E1 as <-.
        rewrite Ed in E2. injection E2 as <-.
      rewrite Ert in E3. simpl in E3. congruence.
Qed.

Lemma getSLOBurnRate_returns (w : World) (sloId teamId : string)
    (timeStart timeEnd : option Date) (points : list Point.t) :
  result (getSLOBurnRate sloId teamId timeStart timeEnd) w = Ok points <->
  (mongoUp w = true /\ clientOk w = true)
  /\ exists slo t0 t1,
       find (matchesSLO sloId teamId) (slos w) = Some slo
       /\ timeStart = Some t0 /\ timeEnd = Some t1
       /\ accepts w [t0; t1] = true
       /\ points =
          map (pointOf (Fin 1 - SLO.targetValue slo / Fin 100)%js)
              (burnRateRows (slo_aggregates w) (SLO.id slo)
                            (sqlDateTime t0) (sqlDateTime t1)).
Proof.
  destruct w as [clk mg sl cl up aggs raw wh tr].
  unfold getSLOBurnRate. run.
  destruct mg; run.
  2:{ split; [discriminate|]. intros ((? & _) & _). discriminate. }
  destruct (find (matchesSLO sloId teamId) sl) as [slo|] eqn:Ef; run.
  2:{ split; [discriminate|]. intros (_ & ? & ? & ? & [=] & _). }
  destruct cl; run.
  2:{ split; [discriminate|]. intros ((_ & ?) & _). discriminate. }
  destruct timeStart as [t0|]; run.
  2:{ split; [discriminate|]. intros (_ & ? & ? & ? & _ & [=] & _). }
  destruct timeEnd as [t1|]; run.
  2:{ split; [discriminate|]. intros (_ & ? & ? & ? & _ & _ & [=] & _). }
  destruct (up && _) eqn:Eacc; run.
  2:{ split; [discriminate|].
      intros (_ & ? & ? & ? & _ & [= <-] & [= <-] & E & _). congruence. }
  split.
  - intros [= <-]. split; [now split|]. exists slo, t0, t1. now repeat split.
  - intros (_ & slo' & t0' & t1' & [= <-] & [= <-] & [= <-] & _ & ->).
    reflexivity.
Qed.

(** Numbers that are counts of at most [2^53] add up without rounding. *)
Lemma sumOf_exact (l : list N) :
  (sumN l <= 2 ^ 53)%N ->
  forall a, exists q,
    fold_left add (map ofN l) (Fin a) = Fin q
    /\ q == a + inject_Z (Z.of_N (sumN l)).
Proof.
  induction l as [|n l IH]; intros H a.
  - exists a. split; [reflexivity|]. cbn. ring.
  - cbn [sumN] in H. cbn [map fold_left].
    rewrite (ofN_exact n) by lia. unfold ofZ. cbn [add].
    destruct (IH ltac:(lia) (a + inject_Z (Z.of_N n))) as (q & E & Hq).
    exists q. split; [exact E|]. rewrite Hq. cbn [sumN].
    rewrite N2Z.inj_add, inject_Z_plus. ring.
Qed.

(** C5, as the code has it.  When no aggregate row of the SLO is later than
    [timeEnd], a date of the years 0000 to 9999, the status computed in
    aggregated mode and the series for the range from the status window's
    start to [timeEnd] read the same rows:
    the numerator and the denominator of the status are [Number] of the
    totals of the per-bucket counts, and the series has one point per
    bucket.  They are the sums of the per-bucket numbers when the totals are
    at most [2^53], where [Number] rounds nothing. *)
Theorem window_sums_agree :
  forall (ms : string -> option number) (w : World) (sloId teamId : string)
         (r : Result.t) (ws timeEnd : Date),
    result (getSLOStatus ms sloId teamId false) w = Ok (Some r) ->
    Result.windowStart r = Some ws ->
    (forall a, In a (slo_aggregates w) ->
               Aggregate.slo_id a = SLO.id (Result.slo r) ->
               (Aggregate.timestamp a <= sqlDateTime timeEnd)%Z) ->
    fourDigitYear timeEnd = true ->
    let buckets :=
      burnRateRows (slo_aggregates w) (SLO.id (Result.slo r))
                   (sqlDateTime ws) (sqlDateTime timeEnd) in
    Result.numerator r = ofN (sumN (map Bucket.numerator buckets))
    /\ Result.denominator r = ofN (sumN (map Bucket.denominator buckets))
    /\ result (getSLOBurnRate sloId teamId (Some ws) (Some timeEnd)) w =
       Ok (map (pointOf (Fin 1 - Result.target r / Fin 100)%js) buckets)
    /\ ((sumN (map Bucket.numerator buckets) <= 2 ^ 53)%N ->
        same (Result.numerator r) (sumOf (bucketNumerators buckets)))
    /\ ((sumN (map Bucket.denominator buckets) <= 2 ^ 53)%N ->
        same (Result.denominator r) (sumOf (bucketDenominators buckets))).
Proof.
  intros ms w sloId teamId r ws timeEnd Hr Hws Hlate Hend buckets.
  assert (Result.numerator r = ofN (sumN (map Bucket.numerator buckets))
          /\ Result.denominator r
             = ofN (sumN (map Bucket.denominator buckets))
          /\ result (getSLOBurnRate sloId teamId (Some ws) (Some timeEnd)) w
             = Ok (map (pointOf (Fin 1 - Result.target r / Fin 100)%js)
                       buckets)) as (H1 & H2 & H3).
  {
    apply getSLOStatus_returns in Hr.
    destruct Hr as ((Hmg & Hcl) & slo & W & ws' & Ef & Ems & Ed & Eup & Er).
    unfold countsRead in Er. cbn [andb] in Er.
    unfold statusRows, firstOr0 in Er.
    cbn [fst snd Counts.numerator Counts.denominator] in Er.
    rewrite !orZero_ofN in Er.
    pose proof (statusOf_frame slo W (Some ws') (clock w)
      (ofN (sumN (map Aggregate.numerator_count
         (List.filter (inWindow (SLO.id slo) (sqlDateTime ws'))
                      (slo_aggregates w)))))
      (ofN (sumN (map Aggregate.denominator_count
         (List.filter (inWindow (SLO.id slo) (sqlDateTime ws'))
                      (slo_aggregates w)))))) as Hframe.
    pose proof (statusOf_counts slo W (Some ws') (clock w)
      (sumN (map Aggregate.numerator_count
         (List.filter (inWindow (SLO.id slo) (sqlDateTime ws'))
                      (slo_aggregates w))))
      (sumN (map Aggregate.denominator_count
         (List.filter (inWindow (SLO.id slo) (sqlDateTime ws'))
                      (slo_aggregates w))))) as Hcounts.
    cbv zeta in Hframe, Hcounts. rewrite <- Er in Hframe, Hcounts.
    destruct Hframe as (Eslo & Estart & _ & _ & Et).
    destruct Hcounts as (En & Edn).
    rewrite Estart in Hws. injection Hws as ->.
    unfold buckets, burnRateRows. rewrite Eslo in *.
    rewrite (@inRange_inWindow _ _ (sqlDateTime ws) _ Hlate).
    destruct (sumN_groupByTimestamp
                (List.filter (inWindow (SLO.id slo) (sqlDateTime ws))
                             (slo_aggregates w))) as [-> ->].
    split; [exact En|]. split; [exact Edn|].
    apply getSLOBurnRate_returns. split; [now split|].
    exists slo, ws, timeEnd.
    repeat split; try assumption.
    { unfold accepts, statusBounds in *. cbn [andb forallb] in *.
      apply andb_true_iff in Eup as [Eup Ey]. rewrite andb_true_r in Ey.
      now rewrite Eup, Ey, Hend. }
    unfold burnRateRows. rewrite Et.
    now rewrite (@inRange_inWindow _ _ (sqlDateTime ws) _ Hlate).
  }
  split; [exact H1|]. split; [exact H2|]. split; [exact H3|].
  split; intro Hle.
  - rewrite H1, (ofN_exact _ Hle). unfold sumOf, bucketNumerators.
    rewrite <- (map_map Bucket.numerator ofN buckets).
    destruct (sumOf_exact _ Hle 0) as (q & E & Hq). rewrite E.
    unfold ofZ. cbn [same]. rewrite Hq. ring.
  - rewrite H2, (ofN_exact _ Hle). unfold sumOf, bucketDenominators.
    rewrite <- (map_map Bucket.denominator ofN buckets).
    destruct (sumOf_exact _ Hle 0) as (q & E & Hq). rewrite E.
    unfold ofZ. cbn [same]. rewrite Hq. ring.
Qed.

(** ** Real-time flag on an SLO without builder fields *)

(** [getSLOStatus] rejects only with the error of the lookup or of the
    client creation, the two calls in front of its [try] block; a failure
    inside the block is logged and answered with [null]. *)
Lemma getSLOStatus_outcome (ms : string -> option number) (w : World)
    (sloId teamId : string) (realtime : bool) :
  match result (getSLOStatus ms sloId teamId realtime) w with
  | Ok _ =>
      mongoUp w = true
      /\ (find (matchesSLO sloId teamId) (slos w) = None
          \/ clientOk w = true)
  | Throw e =>
      (mongoUp w = false /\ e = MongoError)
      \/ (mongoUp w = true
          /\ find (matchesSLO sloId teamId) (slos w) <> None
          /\ clientOk w = false /\ e = ClientError)
  end.
Proof.
  destruct w as [clk mg sl cl up aggs raw wh tr].
  unfold getSLOStatus. run.
  destruct mg; run; [|now left].
  destruct (find (matchesSLO sloId teamId) sl) as [slo|]; run;
    [|split; [reflexivity | now left]].
  destruct cl; run.
  2:{ right. repeat split. discriminate. }
  destruct (ms (SLO.timeWindow slo)) as [W|]; run;
    [|split; [reflexivity | now right]].
  destruct (realtime && truthy (SLO.filter slo)
            && truthy (SLO.goodCondition slo));
    destruct (newDate (ofZ clk - W)%js); run;
    try destruct (up && _); run;
    (split; [reflexivity | now right]).
Qed.

(** When the answer is [null]. *)
Lemma getSLOStatus_null_iff (ms : string -> option number) (w : World)
    (sloId teamId : string) (realtime : bool) :
  result (getSLOStatus ms sloId teamId realtime) w = Ok None <->
  mongoUp w = true
  /\ (find (matchesSLO sloId teamId) (slos w) = None
      \/ exists slo,
           find (matchesSLO sloId teamId) (slos w) = Some slo
           /\ clientOk w = true
           /\ (ms (SLO.timeWindow slo) = None
               \/ exists W,
                    ms (SLO.timeWindow slo) = Some W
                    /\ match newDate (ofZ (clock w) - W)%js with
                       | None => True
                       | Some ws =>
                           accepts w (statusBounds w slo realtime ws) = false
                       end)).
Proof.
  destruct w as [clk mg sl cl up aggs raw wh tr].
  unfold getSLOStatus, statusBounds, builderMode. run.
  destruct mg; run.
  2:{ split; [discriminate | intros [H _]; discriminate]. }
  destruct (find (matchesSLO sloId teamId) sl) as [slo|]; run.
  2:{ split; [intros _; split; [reflexivity | now left] | reflexivity]. }
  destruct cl; run.
  2:{ split; [discriminate|].
      intros (_ & [H | (slo' & _ & H & _)]); discriminate. }
  destruct (ms (SLO.timeWindow slo)) as [W|] eqn:Ems; run.
  2:{ split; [|reflexivity]. intros _. split; [reflexivity|].
      right. exists slo. repeat split. now left. }
  rewrite <- andb_assoc.
  destruct (newDate (ofZ clk - W)%js) as [ws|] eqn:Ed.
  2:{ destruct (realtime && (truthy (SLO.filter slo)
                             && truthy (SLO.goodCondition slo))); run;
        (split; [|reflexivity]; intros _; split; [reflexivity|]; right;
         exists slo; repeat split; right; exists W;
         split; [exact Ems|]; rewrite Ed; exact I). }
  destruct (realtime && (truthy (SLO.filter slo)
                         && truthy (SLO.goodCondition slo))) eqn:Ert; run.
  - destruct (up && _) eqn:Eacc; run.
    + split; [discriminate|].
      intros (_ & [H | (slo' & [= <-] & _ & [H | (W' & E & H)])]);
        try congruence.
      rewrite Ems in E. injection E as <-. rewrite Ed, Ert in H.
      simpl in H. congruence.
    + split; [|reflexivity]. intros _. split; [reflexivity|]. right.
      exists slo. repeat split. right. exists W.
      split; [exact Ems|]. rewrite Ed, Ert. exact Eacc.
  - destruct (up && _) eqn:Eacc; run.
    + split; [discriminate|].
      intros (_ & [H | (slo' & [= <-] & _ & [H | (W' & E & H)])]);
        try congruence.
      rewrite Ems in E. injection E as <-. rewrite Ed, Ert in H.
      simpl in H. congruence.
    + split; [|reflexivity]. intros _. split; [reflexivity|]. right.
      exists slo. repeat split. right. exists W.
      split; [exact Ems|]. rewrite Ed, Ert. exact Eacc.
Qed.

(** The effects of one call, case by case. *)
Lemma getSLOStatus_trace (ms : string -> option number) (w : World)
    (sloId teamId : string) (realtime : bool) :
  let w' := after (getSLOStatus ms sloId teamId realtime) w in
  let warn :=
    LogWarn "Failed to get SLO status from ClickHouse aggregates" in
  let found := logged w (FindOne sloId teamId) in
  if mongoUp w then
    match find (matchesSLO sloId teamId) (slos w) with
    | None => w' = found
    | Some slo =>
        if clientOk w then
          match ms (SLO.timeWindow slo) with
          | None => w' = logged found warn
          | Some W =>
              match newDate (ofZ (clock w) - W)%js with
              | None => w' = logged found warn
              | Some ws =>
                  let q :=
                    if realtime && builderMode slo
                    then RealtimeQuery (SLO.sourceTable slo)
                           (text (SLO.filter slo))
                           (text (SLO.goodCondition slo))
                           (sqlDateTime ws) (sqlDateTime (clock w))
                    else StatusQuery (SLO.id slo) (sqlDateTime ws) in
                  if accepts w (statusBounds w slo realtime ws)
                  then w' = logged found (ClickHouse q)
                  else w' = logged (logged found (ClickHouse q)) warn
              end
          end
        else w' = found
    end
  else w' = found.
Proof.
  destruct w as [clk mg sl cl up aggs raw wh tr].
  unfold getSLOStatus, statusBounds, builderMode. run.
  destruct mg; run; [|reflexivity].
  destruct (find (matchesSLO sloId teamId) sl) as [slo|]; run;
    [|reflexivity].
  destruct cl; run; [|reflexivity].
  destruct (ms (SLO.timeWindow slo)) as [W|]; run; [|reflexivity].
  rewrite <- andb_assoc.
  destruct (realtime && (truthy (SLO.filter slo)
                         && truthy (SLO.goodCondition slo)));
    destruct (newDate (ofZ clk - W)%js) as [ws|]; run; try reflexivity;
    destruct (up && _); run; reflexivity.
Qed.


(** ** Points of the burn-rate series *)

(** C9.  Every point [getSLOBurnRate] returns has [errorBudgetRemaining] equal
    to the placeholder [0], whatever the numerator and the denominator of its
    bucket. *)
Theorem series_budget_placeholder :
  forall (w : World) (sloId teamId : string) (timeStart timeEnd : option Date)
         (points : list Point.t),
    result (getSLOBurnRate sloId teamId timeStart timeEnd) w = Ok points ->
    Forall (fun p => Point.errorBudgetRemaining p = Fin 0) points
    /\ forall (expectedErrorRate : number) (d : Bucket.t),
         Point.errorBudgetRemaining (pointOf expectedErrorRate d) = Fin 0.
Proof.
  intros w sloId teamId timeStart timeEnd points H.
  split; [|reflexivity].
  apply getSLOBurnRate_returns in H.
  destruct H as (_ & slo & t0 & t1 & _ & _ & _ & _ & ->).
  apply Forall_forall. intros p Hp. apply in_map_iff in Hp.
  destruct Hp as (d & <- & _). reflexivity.
Qed.

(** ** Threshold selection *)

Lemma leb_refl (x : number) : isNaN x = false -> (x <= x)%js = true.
Proof.
  destruct x as [a| | |]; simpl; try reflexivity; try discriminate.
  intros _. apply Qle_bool_iff. lra.
Qed.

Lemma leb_trans (x y z : number) :
  (x <= y)%js = true -> (y <= z)%js = true -> (x <= z)%js = true.
Proof.
  destruct x as [a| | |], y as [b| | |], z as [c| | |]; simpl;
    try reflexivity; try discriminate.
  intros H1 H2. qprop. apply Qle_bool_iff. lra.
Qed.

Lemma ltb_leb (x y : number) : (x < y)%js = true -> (x <= y)%js = true.
Proof.
  destruct x as [a| | |], y as [b| | |]; simpl;
    try reflexivity; try discriminate.
  intro H. qprop. apply Qle_bool_iff. lra.
Qed.

Lemma not_ltb_leb (x y : number) :
  isNaN x = false -> isNaN y = false ->
  (x < y)%js = false -> (y <= x)%js = true.
Proof.
  destruct x as [a| | |], y as [b| | |]; simpl;
    try reflexivity; try discriminate.
  intros _ _ H. now apply negb_false_iff in H.
Qed.

(** The comparator [b.burnRate - a.burnRate] is positive exactly when
    [a.burnRate < b.burnRate]. *)
Lemma byBurnRateDesc_positive (a b : Threshold.t) :
  (byBurnRateDesc a b > Fin 0)%js =
  (Threshold.burnRate a < Threshold.burnRate b)%js.
Proof.
  unfold byBurnRateDesc.
  destruct (Threshold.burnRate a) as [x| | |],
           (Threshold.burnRate b) as [y| | |]; try reflexivity.
  cbv [sub add neg gtb ltb leb].
  destruct (Qle_bool (y + - x) 0) eqn:E1, (Qle_bool y x) eqn:E2;
    try reflexivity; qprop; lra.
Qed.

Lemma insertSorted_In (x z : Threshold.t) (l : list Threshold.t) :
  In z (insertSorted byBurnRateDesc x l) <-> z = x \/ In z l.
Proof.
  induction l as [|y l IH]; cbn [insertSorted In].
  - intuition congruence.
  - destruct (byBurnRateDesc x y > Fin 0)%js; cbn [In].
    + rewrite IH. intuition congruence.
    + intuition congruence.
Qed.

Lemma sort_In (z : Threshold.t) (l : list Threshold.t) :
  In z (sort byBurnRateDesc l) <-> In z l.
Proof.
  induction l as [|x l IH]; [reflexivity|].
  unfold sort in *. cbn [fold_right In]. rewrite insertSorted_In, IH.
  intuition congruence.
Qed.

Lemma insertSorted_descending (x : Threshold.t) (l : list Threshold.t) :
  isNaN (Threshold.burnRate x) = false -> noNaN l ->
  descending l -> descending (insertSorted byBurnRateDesc x l).
Proof.
  intros Hx. induction l as [|y l IH]; cbn [insertSorted]; intros Hl Hd.
  - constructor; constructor.
  - apply Forall_inv in Hl as Hy. apply Forall_inv_tail in Hl.
    apply StronglySorted_inv in Hd. destruct Hd as [Hd Hall].
    rewrite byBurnRateDesc_positive.
    destruct (Threshold.burnRate x < Threshold.burnRate y)%js eqn:E.
    + constructor; [now apply IH|].
      apply Forall_forall. intros z Hz. apply insertSorted_In in Hz.
      destruct Hz as [->|Hz]; [now apply ltb_leb|].
      rewrite Forall_forall in Hall. now apply Hall.
    + apply not_ltb_leb in E; try assumption.
      constructor; [now constructor|].
      constructor; [assumption|].
      rewrite Forall_forall in *. intros z Hz.
      eapply leb_trans; [apply Hall; exact Hz | exact E].
Qed.

Lemma sort_descending (l : list Threshold.t) :
  noNaN l -> descending (sort byBurnRateDesc l).
Proof.
  induction l as [|x l IH]; intro H; [constructor|].
  apply Forall_inv in H as Hx. apply Forall_inv_tail in H.
  unfold sort. cbn [fold_right].
  apply insertSorted_descending; try assumption.
  - apply Forall_forall. intros z Hz. apply (proj1 (sort_In z l)) in Hz.
    rewrite Forall_forall in H. now apply H.
  - now apply IH.
Qed.

(** In a descending list the first element a test accepts has the highest
    burn rate among the accepted ones. *)
Lemma find_descending (p : Threshold.t -> bool) (l : list Threshold.t)
    (th : Threshold.t) :
  noNaN l -> descending l -> find p l = Some th ->
  forall th', In th' l -> p th' = true ->
              (Threshold.burnRate th' <= Threshold.burnRate th)%js = true.
Proof.
  induction l as [|y l IH]; cbn [find In]; [discriminate|].
  intros Hl Hd Hf th' Hin Hp.
  apply Forall_inv in Hl as Hy. apply Forall_inv_tail in Hl.
  apply StronglySorted_inv in Hd. destruct Hd as [Hd Hall].
  destruct (p y) eqn:Epy.
  - injection Hf as <-. destruct Hin as [<-|Hin].
    + now apply leb_refl.
    + rewrite Forall_forall in Hall. now apply Hall.
  - destruct Hin as [<-|Hin]; [congruence|].
    now apply IH.
Qed.

(** ** Running [checkSLOBurnAlerts] *)

Lemma scanThresholds_run (slo : SLO.t) (burnRate : number)
    (l : list Threshold.t) (w : World) :
  scanThresholds slo burnRate l w =
  (Ok (match find (fun th => (burnRate >= Threshold.burnRate th)%js) l with
       | Some th => decisionFor slo (clock w) th
       | None => noAlert
       end), w).
Proof.
  induction l as [|th l IH]; cbn [scanThresholds find]; [reflexivity|].
  destruct (burnRate >= Threshold.burnRate th)%js; [|exact IH].
  unfold decisionFor. run.
  destruct (shouldAlertNow _ _ _); reflexivity.
Qed.

Lemma checkSLOBurnAlerts_run (slo : SLO.t)
    (burnRate achieved target errorBudgetRemaining : number)
    (webhook : option IWebhook) (w : World) :
  checkSLOBurnAlerts slo burnRate achieved target errorBudgetRemaining
                     webhook w =
  if alertsOff slo then (Ok noAlert, w)
  else match webhook with
       | None =>
           (Ok noAlert,
            logged w (LogWarn
              "SLO has burn alerts enabled but no webhook configured"))
       | Some _ =>
           (Ok (match matchedThreshold slo burnRate with
                | Some th => decisionFor slo (clock w) th
                | None => noAlert
                end), w)
       end.
Proof.
  unfold checkSLOBurnAlerts.
  destruct (alertsOff slo); [reflexivity|].
  destruct webhook; [apply scanThresholds_run | reflexivity].
Qed.

(** ** Alert decision *)

(** C7.  With a matched threshold, the alert fires exactly when there is no
    prior alert state, or the prior severity differs from the matched one, or
    the prior alert is older than one hour.  A prior warning 30 minutes old
    with a warning match does not fire; 90 minutes old, it fires; a critical
    match after a prior warning fires whatever the time elapsed. *)
Theorem alert_hysteresis :
  forall (slo : SLO.t) (burnRate achieved target errorBudgetRemaining : number)
         (webhook : IWebhook) (w : World) (th : Threshold.t),
    alertsOff slo = false ->
    matchedThreshold slo burnRate = Some th ->
    exists dec,
      result (checkSLOBurnAlerts slo burnRate achieved target
                errorBudgetRemaining (Some webhook)) w = Ok dec
      /\ (Decision.shouldAlert dec = true <->
          SLO.lastBurnAlertState slo = None
          \/ exists last,
               SLO.lastBurnAlertState slo = Some last
               /\ (LastAlert.severity last <> Threshold.severity th
                   \/ (LastAlert.timestamp last
                       < clock w - 60 * 60 * 1000)%Z))
      /\ (Decision.shouldAlert dec = true ->
          Decision.severity dec = Some (Threshold.severity th))
      /\ (SLO.lastBurnAlertState slo =
            Some (LastAlert.mk warning (clock w - 30 * 60 * 1000)%Z) ->
          Threshold.severity th = warning ->
          Decision.shouldAlert dec = false)
      /\ (SLO.lastBurnAlertState slo =
            Some (LastAlert.mk warning (clock w - 90 * 60 * 1000)%Z) ->
          Threshold.severity th = warning ->
          Decision.shouldAlert dec = true)
      /\ (forall ts : Date,
            SLO.lastBurnAlertState slo = Some (LastAlert.mk warning ts) ->
            Threshold.severity th = critical ->
            Decision.shouldAlert dec = true).
Proof.
  intros slo burnRate achieved target ebr webhook w th Hon Hm.
  exists (decisionFor slo (clock w) th).
  unfold result. rewrite checkSLOBurnAlerts_run, Hon, Hm.
  split; [reflexivity|].
  unfold decisionFor, shouldAlertNow.
  destruct (SLO.lastBurnAlertState slo) as [[sev ts]|]; cbn [LastAlert.severity
    LastAlert.timestamp Decision.shouldAlert Decision.severity].
  - destruct (negb (Severity_eqb sev (Threshold.severity th))) eqn:Es;
      cbn [orb].
    + assert (sev <> Threshold.severity th) as Hne.
      { intro E. rewrite E in Es.
        destruct (Threshold.severity th); discriminate. }
      repeat split; try reflexivity.
      * intros _. right. eexists. split; [reflexivity|]. now left.
      * intros [= -> _] E. rewrite E in Es. discriminate.
    + assert (sev = Threshold.severity th) as Heq.
      { destruct sev, (Threshold.severity th); try reflexivity;
          discriminate. }
      destruct (ts <? clock w - 60 * 60 * 1000)%Z eqn:Et.
      * apply Z.ltb_lt in Et.
        repeat split; try reflexivity.
        -- intros _. right. eexists. split; [reflexivity|]. now right.
        -- intros [= _ ->]. lia.
      * apply Z.ltb_ge in Et.
        repeat split; try reflexivity; try discriminate.
        -- intros [H|(last & [= <-] & [H|H])]; simpl in H;
             [discriminate|contradiction|lia].
        -- intros [= _ ->]. lia.
        -- intros ts' [= -> _] E. rewrite E in Heq. discriminate.
  - repeat split; try reflexivity; try discriminate.
    intros _. now left.
Qed.

(** C8, as the code has it.  With alerts enabled, a webhook and thresholds
    whose rates are numbers (no [NaN]): when some configured threshold is at
    most the current burn rate, the decision of [checkSLOBurnAlerts] is the
    one for a configured threshold that is at most the burn rate and at
    least as high as every other such threshold, so without an earlier alert
    it alerts with that threshold's severity; when no threshold is at most
    the burn rate it does not alert.  With [{1, warning}], [{3, critical}]
    and a burn rate of [4] it alerts with [critical]. *)
Theorem highest_threshold_wins :
  forall (slo : SLO.t) (burnRate achieved target errorBudgetRemaining : number)
         (webhook : IWebhook) (w : World),
    alertsOff slo = false ->
    noNaN (thresholdsOf slo) ->
    let reached th := (Threshold.burnRate th <= burnRate)%js in
    let check rate := result (checkSLOBurnAlerts slo rate achieved target
                                errorBudgetRemaining (Some webhook)) w in
    ((exists th, In th (thresholdsOf slo) /\ reached th = true) ->
     exists th,
       In th (thresholdsOf slo) /\ reached th = true
       /\ (forall th', In th' (thresholdsOf slo) -> reached th' = true ->
             (Threshold.burnRate th' <= Threshold.burnRate th)%js = true)
       /\ check burnRate = Ok (decisionFor slo (clock w) th)
       /\ (SLO.lastBurnAlertState slo = None ->
           check burnRate
           = Ok (Decision.mk true (Some (Threshold.severity th)))))
    /\ ((forall th, In th (thresholdsOf slo) -> reached th = false) ->
        check burnRate = Ok (Decision.mk false None))
    /\ (thresholdsOf slo = [Threshold.mk (Fin 1) warning;
                            Threshold.mk (Fin 3) critical] ->
        SLO.lastBurnAlertState slo = None ->
        check (Fin 4) = Ok (Decision.mk true (Some critical))).
Proof.
  intros slo burnRate achieved target ebr webhook w Hon Hnan reached check.
  assert (forall rate,
            check rate = Ok (match matchedThreshold slo rate with
                             | Some th => decisionFor slo (clock w) th
                             | None => noAlert
                             end)) as Hdec.
  { intro rate. unfold check, result.
    now rewrite checkSLOBurnAlerts_run, Hon. }
  split; [|split].
  - intros (th0 & Hin0 & Hr0).
    destruct (matchedThreshold slo burnRate) as [th|] eqn:Hm.
    2:{ exfalso. unfold matchedThreshold in Hm.
        apply (proj2 (sort_In th0 (thresholdsOf slo))) in Hin0.
        pose proof (find_none _ _ Hm th0 Hin0) as Hno. cbn beta in Hno.
        unfold reached in Hr0. unfold geb in Hno. congruence. }
    exists th. rewrite Hdec, Hm.
    unfold matchedThreshold in Hm.
    pose proof (find_some _ _ Hm) as [Hin Hreach].
    apply (proj1 (sort_In th (thresholdsOf slo))) in Hin.
    split; [exact Hin|]. split; [exact Hreach|]. split; [|split].
    + intros th' Hin' Hr'.
      apply (find_descending
               (fun th => (burnRate >= Threshold.burnRate th)%js)
               (sort byBurnRateDesc (thresholdsOf slo)) th); try assumption.
      * apply Forall_forall. intros z Hz.
        apply (proj1 (sort_In z (thresholdsOf slo))) in Hz.
        unfold noNaN in Hnan. rewrite Forall_forall in Hnan. now apply Hnan.
      * now apply sort_descending.
      * now apply sort_In.
    + reflexivity.
    + intros Hlast. unfold decisionFor. rewrite Hlast. reflexivity.
  - intros Hnone. rewrite Hdec.
    assert (matchedThreshold slo burnRate = None) as ->; [|reflexivity].
    unfold matchedThreshold.
    destruct (find _ _) as [th|] eqn:E; [|reflexivity].
    pose proof (find_some _ _ E) as [Hin Hreach].
    apply (proj1 (sort_In th (thresholdsOf slo))) in Hin.
    specialize (Hnone th Hin). unfold reached in Hnone.
    unfold geb in Hreach. congruence.
  - intros E Hlast. rewrite Hdec. unfold matchedThreshold. rewrite E.
    unfold decisionFor. rewrite Hlast. reflexivity.
Qed.

(** ** Effects of the alert controllers *)

Lemma sendSLOBurnAlert_run (slo : SLO.t) (burnRate : number)
    (severity : Severity) (webhook : IWebhook)
    (achieved target errorBudgetRemaining : number) (w : World) :
  sendSLOBurnAlert slo burnRate severity webhook achieved target
                   errorBudgetRemaining w =
  let sent := logged w (Webhook webhook (SLO.id slo) severity (clock w)) in
  if webhookUp w
  then (Ok tt, logged sent (LogInfo "Sent SLO burn alert notification"))
  else (Throw WebhookError,
        logged sent (LogError "Failed to send SLO burn alert notification")).
Proof.
  destruct w as [clk mg sl cl up aggs raw wh tr].
  unfold sendSLOBurnAlert, handleSendGenericWebhook. run.
  destruct wh; reflexivity.
Qed.

(** C10.  [checkSLOBurnAlerts] only decides: it always returns a decision,
    leaves the stored SLOs (and with them every [lastBurnAlertState]) and the
    rest of the world as they were, and sends nothing; at most it logs the
    warning of the missing webhook.  The webhook is sent by
    [sendSLOBurnAlert], which does not write the alert state either. *)
Theorem check_only_decides :
  forall (slo : SLO.t) (burnRate achieved target errorBudgetRemaining : number)
         (webhook : option IWebhook) (w : World),
    let check := checkSLOBurnAlerts slo burnRate achieved target
                                    errorBudgetRemaining webhook in
    (exists dec, result check w = Ok dec)
    /\ slos (after check w) = slos w
    /\ (after check w = w
        \/ after check w =
           logged w (LogWarn
             "SLO has burn alerts enabled but no webhook configured"))
    /\ (forall wh id sev time,
          In (Webhook wh id sev time) (trace (after check w)) ->
          In (Webhook wh id sev time) (trace w))
    /\ (forall (severity : Severity) (wh : IWebhook),
          let send := sendSLOBurnAlert slo burnRate severity wh achieved
                                       target errorBudgetRemaining in
          In (Webhook wh (SLO.id slo) severity (clock w))
             (trace (after send w))
          /\ slos (after send w) = slos w).
Proof.
  intros slo burnRate achieved target ebr webhook w check.
  unfold check, result, after. rewrite checkSLOBurnAlerts_run.
  split; [|split; [|split; [|split]]].
  - destruct (alertsOff slo); [eexists; reflexivity|].
    destruct webhook; eexists; reflexivity.
  - destruct (alertsOff slo); [reflexivity|].
    destruct webhook; reflexivity.
  - destruct (alertsOff slo); [now left|].
    destruct webhook; [now left | now right].
  - intros wh id sev time.
    destruct (alertsOff slo); [exact (fun H => H)|].
    destruct webhook; [exact (fun H => H)|].
    cbn [snd logged trace]. intro H. apply in_app_or in H.
    destruct H as [H|[H|[]]]; [assumption|discriminate].
  - intros severity wh. rewrite sendSLOBurnAlert_run.
    cbv zeta. destruct (webhookUp w); cbn [snd logged trace slos]; split;
      try reflexivity;
      apply in_or_app; left; apply in_or_app; right; now left.
Qed.

(* ================================================================== *)
(** * The statements at work on the small world *)

Example checkout_status_run :
  result (getSLOStatus msExample "slo-1" "team-1" false) exampleWorld
  = Ok (Some checkoutStatus)
  /\ trace (after (getSLOStatus msExample "slo-1" "team-1" false)
                  exampleWorld)
     = [ FindOne "slo-1" "team-1";
         ClickHouse (StatusQuery "slo-1" 2589408000) ].
Proof. split; vm_compute; reflexivity. Qed.

Example checkout_status_fields :
  Result.status checkoutStatus = BREACHED
  /\ same (Result.achieved checkoutStatus) (Fin (100000 # 1002))
  /\ same (Result.errorBudgetRemaining checkoutStatus) (Fin 0).
Proof. vm_compute. repeat split. Qed.

(** The scenario of a 30-day window, target 99.9 and 998 good events out of
    1000: burn rate 2. *)
Example scenario_burn_rate_two :
  let r := value (statusOf checkoutSLO (Fin 2592000000) None 0%Z
                           (Fin 998) (Fin 1000)) in
  same (Result.achieved r) (Fin 99.8)
  /\ match Result.burnRate r with
     | Some b => same b (Fin 2)
     | None => False
     end.
Proof. vm_compute. repeat split. Qed.

(** C4, as stated, fails: nothing in the code bounds the window, the target
    or the counts, and with a negative window, a target above [100] and more
    good events than events ([denominator > 0]) the [AT_RISK] branch is
    taken. *)
Example at_risk_outside_the_data_model :
  Result.status (value (statusOf overTargetSLO (Fin (-1)) None 0%Z
                                 (Fin 195) (Fin 100))) = AT_RISK.
Proof. vm_compute. reflexivity. Qed.


(** The same outside the data model in binary64: the code reaches
    [AT_RISK] with a target of [200], a window of [-1] ms and [195] good
    events out of [100]. *)
Example at_risk_outside_the_data_model_binary64 :
  Status64.status (statusOf64 (num 200) (num (-1)) (num 195) (num 100))
  = AT_RISK.
Proof. vm_compute. reflexivity. Qed.

(** C8, as stated, fails on a threshold whose rate is [NaN]: every
    comparison with it counts as a tie, the sort leaves [1, NaN, 3] as it is,
    and the scan stops at the threshold of rate [1]: with a burn rate of [4]
    the alert is a warning although the critical threshold [3] is reached. *)
Lemma nan_threshold_hides_the_highest :
  sort byBurnRateDesc (thresholdsOf nanLadderSLO) = nanLadder
  /\ In (Threshold.mk (Fin 3) critical) (thresholdsOf nanLadderSLO)
  /\ (Fin 3 <= Fin 4)%js = true
  /\ result (checkSLOBurnAlerts nanLadderSLO (Fin 4) (Fin 99.8) (Fin 99.9)
               (Fin 0) (Some "hook"%string)) exampleWorld
     = Ok (Decision.mk true (Some warning)).
Proof.
  split; [vm_compute; reflexivity|].
  split; [right; right; left; reflexivity|].
  split; vm_compute; reflexivity.
Qed.

(** C5, as stated, fails above [2^53].  With one bucket of [2^53] events
    and three of one event the status reports the denominator
    [Number(2^53 + 3)], which is [2^53 + 4]; the per-bucket numbers are
    [2^53, 1, 1, 1], whose sum is [2^53 + 3], and [2^53] when it is added
    up in binary64. *)
Lemma large_counts_do_not_add_up :
  let buckets := burnRateRows (slo_aggregates busyWorld) "slo-busy"
                              2589408000 2592000000 in
  (exists r,
      result (getSLOStatus msExample "slo-busy" "team-1" false) busyWorld
      = Ok (Some r)
      /\ Result.windowStart r = Some 2589408000000%Z
      /\ Result.denominator r = Fin 9007199254740996)
  /\ (forall a, In a (slo_aggregates busyWorld) ->
                (Aggregate.timestamp a <= sqlDateTime 2592000000000)%Z)
  /\ map Bucket.denominator buckets = [9007199254740992; 1; 1; 1]%N
  /\ sumOf (bucketDenominators buckets) = Fin 9007199254740995
  /\ Double.toZ
       (sumOf64 (map (fun d => num (Z.of_N (Bucket.denominator d))) buckets))
     = Some 9007199254740992%Z.
Proof.
  cbv zeta. split.
  - eexists. split; [vm_compute; reflexivity|]. split; reflexivity.
  - split.
    + intros a Ha. cbn [slo_aggregates busyWorld In] in Ha.
      repeat (destruct Ha as [<-|Ha]; [vm_compute; discriminate|]).
      destruct Ha.
    + repeat split; vm_compute; reflexivity.
Qed.

(** With the real-time flag, the raw-mode SLO is answered from
    [slo_aggregates]. *)
Example raw_slo_realtime_run :
  trace (after (getSLOStatus msExample "slo-raw" "team-1" true) exampleWorld)
  = [ FindOne "slo-raw" "team-1";
      ClickHouse (StatusQuery "slo-raw" 2591395200) ]
  /\ exists r,
       result (getSLOStatus msExample "slo-raw" "team-1" true) exampleWorld
       = Ok (Some r)
       /\ Result.numerator r = Fin 90 /\ Result.denominator r = Fin 100.
Proof.
  split; [vm_compute; reflexivity|].
  eexists. split; [vm_compute; reflexivity|]. split; reflexivity.
Qed.


(** ** Instances of the theorems *)


Lemma no_data_default_witness :
  (Fin 0 === Fin 0)%js = true
  /\ let c := statusOf checkoutSLO (Fin 2592000000) None 0%Z
                       (Fin 0) (Fin 0) in
     Result.status (value c) = HEALTHY
     /\ Result.achieved (value c) = Fin 100
     /\ Result.errorBudgetRemaining (value c) = Fin 100
     /\ divisors c = []
     /\ Forall (fun y => (y === Fin 0)%js = false) (divisors c).
Proof.
  split; [reflexivity|].
  exact (no_data_default checkoutSLO (Fin 2592000000) None 0%Z
           (Fin 0) (Fin 0) eq_refl eq_refl).
Defined.


Lemma at_risk_unreachable_witness :
  (Fin 1000 > Fin 0)%js = true
  /\ ((Fin 2592000000 >= Fin 0)%js = true
      \/ (SLO.targetValue checkoutSLO <= Fin 100)%js = true
      \/ (Fin 998 <= Fin 1000)%js = true)
  /\ Result.status (value (statusOf checkoutSLO (Fin 2592000000) None 0%Z
                                    (Fin 998) (Fin 1000))) <> AT_RISK.
Proof.
  split; [reflexivity|]. split; [left; reflexivity|].
  pose proof (at_risk_unreachable checkoutSLO (Fin 2592000000) None 0%Z
                (Fin 998) (Fin 1000) eq_refl (or_introl eq_refl)) as H.
  cbv zeta in H. destruct H as (H & _).
  exact H.
Defined.

Lemma window_sums_agree_witness :
  result (getSLOStatus msExample "slo-1" "team-1" false) exampleWorld
  = Ok (Some checkoutStatus)
  /\ Result.windowStart checkoutStatus = Some 2589408000000%Z
  /\ Result.numerator checkoutStatus
     = ofN (sumN (map Bucket.numerator
              (burnRateRows (slo_aggregates exampleWorld) "slo-1"
                            2589408000 2592000000)))
  /\ Result.denominator checkoutStatus
     = ofN (sumN (map Bucket.denominator
              (burnRateRows (slo_aggregates exampleWorld) "slo-1"
                            2589408000 2592000000))).
Proof.
  assert (result (getSLOStatus msExample "slo-1" "team-1" false) exampleWorld
          = Ok (Some checkoutStatus)) as Hrun
      by (vm_compute; reflexivity).
  assert (Result.windowStart checkoutStatus = Some 2589408000000%Z) as Hws
      by reflexivity.
  assert (forall a, In a (slo_aggregates exampleWorld) ->
                    Aggregate.slo_id a = SLO.id (Result.slo checkoutStatus) ->
                    (Aggregate.timestamp a
                     <= sqlDateTime 2592000000000)%Z) as Hlate.
  { intros a Ha _. simpl in Ha.
    repeat (destruct Ha as [<-|Ha]; [vm_compute; discriminate|]).
    destruct Ha. }
  split; [exact Hrun|]. split; [exact Hws|].
  pose proof (window_sums_agree msExample exampleWorld "slo-1" "team-1"
                checkoutStatus 2589408000000%Z 2592000000000%Z
                Hrun Hws Hlate eq_refl) as H.
  cbv zeta in H. destruct H as (H1 & H2 & _).
  split; [exact H1 | exact H2].
Defined.


Lemma alert_hysteresis_witness :
  alertsOff (warnedAt 2591998200000%Z) = false
  /\ matchedThreshold (warnedAt 2591998200000%Z) (Fin 2)
     = Some (Threshold.mk (Fin 1) warning)
  /\ exists dec,
       result (checkSLOBurnAlerts (warnedAt 2591998200000%Z) (Fin 2) (Fin 99.8)
                 (Fin 99.9) (Fin 0) (Some "hook"%string)) exampleWorld
       = Ok dec
       /\ Decision.shouldAlert dec = false.
Proof.
  split; [reflexivity|]. split; [reflexivity|].
  destruct (alert_hysteresis (warnedAt 2591998200000%Z) (Fin 2) (Fin 99.8)
              (Fin 99.9) (Fin 0) "hook"%string exampleWorld
              (Threshold.mk (Fin 1) warning) eq_refl eq_refl)
    as (dec & Hrun & _ & _ & Hquiet & _).
  exists dec. split; [exact Hrun|].
  exact (Hquiet eq_refl eq_refl).
Defined.

Lemma highest_threshold_wins_witness :
  result (checkSLOBurnAlerts checkoutSLO (Fin 4) (Fin 99.8) (Fin 99.9)
            (Fin 0) (Some "hook"%string)) exampleWorld
  = Ok (Decision.mk true (Some critical))
  /\ result (checkSLOBurnAlerts checkoutSLO (Fin (1 # 2)) (Fin 99.8)
               (Fin 99.9) (Fin 0) (Some "hook"%string)) exampleWorld
     = Ok (Decision.mk false None).
Proof.
  assert (noNaN (thresholdsOf checkoutSLO)) as Hnan
      by (repeat constructor).
  split.
  - pose proof (highest_threshold_wins checkoutSLO (Fin 4) (Fin 99.8)
                  (Fin 99.9) (Fin 0) "hook"%string exampleWorld
                  eq_refl Hnan) as H.
    cbv zeta in H. destruct H as (_ & _ & H).
    exact (H eq_refl eq_refl).
  - pose proof (highest_threshold_wins checkoutSLO (Fin (1 # 2)) (Fin 99.8)
                  (Fin 99.9) (Fin 0) "hook"%string exampleWorld
                  eq_refl Hnan) as H.
    cbv zeta in H. destruct H as (_ & H & _).
    apply H. intros th [<-|[<-|[]]]; reflexivity.
Defined.

Lemma series_budget_placeholder_witness :
  exists points,
    result (getSLOBurnRate "slo-1" "team-1" (Some 2589408000000%Z)
                           (Some 2592000000000%Z)) exampleWorld
    = Ok points
    /\ List.length points = 2%nat
    /\ Forall (fun p => Point.errorBudgetRemaining p = Fin 0) points.
Proof.
  eexists. split; [vm_compute; reflexivity|]. split; [reflexivity|].
  refine (proj1 (series_budget_placeholder exampleWorld "slo-1" "team-1"
                   (Some 2589408000000%Z) (Some 2592000000000%Z) _ _)).
  vm_compute. reflexivity.
Defined.

(* ================================================================== *)
(** * Further properties of the two controllers *)

(** ** Failures of [getSLOStatus] *)

(** X1.  [getSLOStatus] rejects in two cases only, both in front of its
    [try] block: with the error of the lookup when MongoDB rejects it, and
    with the error of the client creation when the SLO was found and
    [createNativeClient] throws.  Every failure inside the block is answered
    with [null]: the answer is [null] exactly when the lookup finds nothing,
    or [ms] cannot read the window, or the window start is not a valid date,
    or ClickHouse rejects the query (it is down, or a date of the query
    lies outside the years 0000 to 9999). *)
Theorem status_null_cases :
  forall (ms : string -> option number) (w : World) (sloId teamId : string)
         (realtime : bool),
    let run := getSLOStatus ms sloId teamId realtime in
    let found := find (matchesSLO sloId teamId) (slos w) in
    (forall e, result run w = Throw e <->
               (mongoUp w = false /\ e = MongoError)
               \/ (mongoUp w = true /\ found <> None
                   /\ clientOk w = false /\ e = ClientError))
    /\ (result run w = Ok None <->
        mongoUp w = true
        /\ (found = None
            \/ exists slo,
                 found = Some slo
                 /\ clientOk w = true
                 /\ (ms (SLO.timeWindow slo) = None
                     \/ (exists W, ms (SLO.timeWindow slo) = Some W
                                   /\ newDate (ofZ (clock w) - W)%js = None)
                     \/ (exists W ws,
                           ms (SLO.timeWindow slo) = Some W
                           /\ newDate (ofZ (clock w) - W)%js = Some ws
                           /\ accepts w (statusBounds w slo realtime ws)
                              = false)))).
Proof.
  intros ms w sloId teamId realtime run0 found.
  split.
  2:{ subst run0 found. split.
      - intro H. apply getSLOStatus_null_iff in H.
        destruct H as (Hmg & [Hf | (slo & Ef & Hcl
                                    & [Hms | (W & Ems & Hd)])]);
          (split; [exact Hmg|]); [now left | |].
        + right. exists slo. repeat split; try assumption. now left.
        + right. exists slo. repeat split; try assumption. right.
          destruct (newDate (ofZ (clock w) - W)%js) as [ws|] eqn:Ed.
          * right. now exists W, ws.
          * left. now exists W.
      - intros (Hmg & [Hf | (slo & Ef & Hcl
                             & [Hms | [(W & Ems & Ed)
                                      | (W & ws & Ems & Ed & Hacc)]])]);
          apply getSLOStatus_null_iff; (split; [exact Hmg|]);
          [now left | | |].
        + right. exists slo. repeat split; try assumption. now left.
        + right. exists slo. repeat split; try assumption. right.
          exists W. split; [exact Ems|]. now rewrite Ed.
        + right. exists slo. repeat split; try assumption. right.
          exists W. split; [exact Ems|]. now rewrite Ed. }
  intro e.
  pose proof (getSLOStatus_outcome ms w sloId teamId realtime) as H.
  fold run0 found in H.
  destruct (result run0 w) as [o|e'].
  - split; [discriminate|].
    destruct H as (Hmg & Hf).
    intros [(H1 & _) | (_ & H1 & H2 & _)]; [congruence|].
    destruct Hf; congruence.
  - split.
    + intros [= ->]. exact H.
    + intros [(H1 & ->) | (H1 & _ & _ & ->)];
        destruct H as [(H2 & ->) | (H2 & _ & _ & ->)];
        congruence.
Qed.

(** X2.  A call of [getSLOStatus] makes at most one ClickHouse query, and
    none when the SLO is missing or its window start cannot be computed; it
    writes nothing but its trace, and it logs the warning exactly when the
    SLO was found and the answer is [null]. *)
Theorem status_effects :
  forall (ms : string -> option number) (w : World) (sloId teamId : string)
         (realtime : bool),
    let run := getSLOStatus ms sloId teamId realtime in
    let warn :=
      LogWarn "Failed to get SLO status from ClickHouse aggregates" in
    exists added,
      trace (after run w) = trace w ++ FindOne sloId teamId :: added
      /\ slos (after run w) = slos w
      /\ slo_aggregates (after run w) = slo_aggregates w
      /\ (List.length (List.filter
            (fun e => match e with ClickHouse _ => true | _ => false end)
            added) <= 1)%nat
      /\ ((forall slo W ws,
             find (matchesSLO sloId teamId) (slos w) = Some slo ->
             ms (SLO.timeWindow slo) = Some W ->
             newDate (ofZ (clock w) - W)%js = Some ws -> False) ->
          forall q, ~ In (ClickHouse q) added)
      /\ (In warn added <->
          find (matchesSLO sloId teamId) (slos w) <> None
          /\ result run w = Ok None).
Proof.
  intros ms w sloId teamId realtime run0 warn.
  pose proof (getSLOStatus_trace ms w sloId teamId realtime) as Ht.
  pose proof (getSLOStatus_null_iff ms w sloId teamId realtime) as Hn.
  cbv zeta in Ht. fold run0 in Ht, Hn. fold warn in Ht.
  destruct (mongoUp w) eqn:Emg.
  2:{ exists []. rewrite Ht. cbn [logged trace slos slo_aggregates].
      split; [reflexivity|]. split; [reflexivity|]. split; [reflexivity|].
      split; [cbn; lia|]. split; [intros _ q []|].
      split; [intros [] | intros [_ H]]. apply Hn in H.
      destruct H as [H _]. discriminate. }
  destruct (find (matchesSLO sloId teamId) (slos w)) as [slo|] eqn:Ef.
  2:{ exists []. rewrite Ht. cbn [logged trace slos slo_aggregates].
      split; [reflexivity|]. split; [reflexivity|]. split; [reflexivity|].
      split; [cbn; lia|]. split; [intros _ q []|].
      split; [intros [] | intros [H _]; congruence]. }
  destruct (clientOk w) eqn:Ecl.
  2:{ exists []. rewrite Ht. cbn [logged trace slos slo_aggregates].
      split; [reflexivity|]. split; [reflexivity|]. split; [reflexivity|].
      split; [cbn; lia|]. split; [intros _ q []|].
      split; [intros [] | intros [_ H]]. apply Hn in H.
      destruct H as [_ [H | (slo' & _ & H & _)]]; discriminate. }
  assert (forall l, In warn l ->
            Some slo <> None /\ result run0 w = Ok None ->
            (In warn l <-> Some slo <> None /\ result run0 w = Ok None))
    as Hyes by (intros l H1 H2; split; auto).
  destruct (ms (SLO.timeWindow slo)) as [W|] eqn:Ems.
  2:{ exists [warn]. rewrite Ht. cbn [logged trace slos slo_aggregates].
      rewrite <- app_assoc.
      split; [reflexivity|]. split; [reflexivity|]. split; [reflexivity|].
      split; [cbn; lia|]. split; [intros _ q [H|[]]; discriminate|].
      apply Hyes; [now left|]. split; [discriminate|].
      apply Hn. split; [reflexivity|]. right. exists slo.
      split; [reflexivity|]. split; [reflexivity|]. now left. }
  destruct (newDate (ofZ (clock w) - W)%js) as [ws|] eqn:Ed.
  2:{ exists [warn]. rewrite Ht. cbn [logged trace slos slo_aggregates].
      rewrite <- app_assoc.
      split; [reflexivity|]. split; [reflexivity|]. split; [reflexivity|].
      split; [cbn; lia|]. split; [intros _ q [H|[]]; discriminate|].
      apply Hyes; [now left|]. split; [discriminate|].
      apply Hn. split; [reflexivity|]. right. exists slo.
      split; [reflexivity|]. split; [reflexivity|].
      right. exists W. split; [exact Ems|]. now rewrite Ed. }
  destruct (accepts w (statusBounds w slo realtime ws)) eqn:Eup.
  - eexists [ClickHouse _]. rewrite Ht.
    cbn [logged trace slos slo_aggregates]. rewrite <- app_assoc.
    split; [reflexivity|]. split; [reflexivity|]. split; [reflexivity|].
    split; [cbn; lia|].
    split; [intros H; exfalso; exact (H slo W ws eq_refl Ems Ed)|].
    split; [intros [H|[]]; discriminate|].
    intros [_ H]. exfalso. apply Hn in H.
    destruct H as [_ [H | (slo' & [= <-] & _ & [H | (W' & E & H)])]];
      try congruence.
    rewrite Ems in E. injection E as <-. rewrite Ed in H. congruence.
  - eexists [ClickHouse _; warn]. rewrite Ht.
    cbn [logged trace slos slo_aggregates]. rewrite <- !app_assoc.
    split; [reflexivity|]. split; [reflexivity|]. split; [reflexivity|].
    split; [cbn; lia|].
    split; [intros H; exfalso; exact (H slo W ws eq_refl Ems Ed)|].
    apply Hyes; [right; now left|]. split; [discriminate|].
    apply Hn. split; [reflexivity|]. right. exists slo.
    split; [reflexivity|]. split; [reflexivity|].
    right. exists W. split; [exact Ems|]. now rewrite Ed.
Qed.

(** ** Failures of [getSLOBurnRate] *)

Ltac series_case :=
  first
    [ solve [intuition (discriminate || congruence)]
    | solve [split; [discriminate|];
             intros (_ & ? & ? & ? & ? & ?);
             repeat match goal with
                    | H : Some _ = Some _ |- _ => injection H as <-
                    end;
             (discriminate || congruence)] ].

(** X3.  [getSLOBurnRate] handles no error.  It rejects with the error of
    the lookup when MongoDB rejects it, with 'SLO not found' when the lookup
    finds nothing, with the error of the client creation, with a range error
    when a bound is an invalid date, and with the ClickHouse error when the
    query is rejected (ClickHouse is down, or a bound lies outside the years
    0000 to 9999), in this order of precedence, and with nothing else.
    It sends its query only once the SLO is found, the client created and
    both bounds valid; it logs nothing and changes nothing but the trace. *)
Theorem series_failures :
  forall (w : World) (sloId teamId : string) (timeStart timeEnd : option Date),
    let run := getSLOBurnRate sloId teamId timeStart timeEnd in
    let found := find (matchesSLO sloId teamId) (slos w) in
    let valid := match timeStart, timeEnd with
                 | Some _, Some _ => true
                 | _, _ => false
                 end in
    let ready := mongoUp w = true /\ found <> None /\ clientOk w = true in
    (result run w = Throw MongoError <-> mongoUp w = false)
    /\ (result run w = Throw SLONotFound <->
        mongoUp w = true /\ found = None)
    /\ (result run w = Throw ClientError <->
        mongoUp w = true /\ found <> None /\ clientOk w = false)
    /\ (result run w = Throw RangeError <-> ready /\ valid = false)
    /\ (result run w = Throw ClickHouseError <->
        ready /\ exists t0 t1, timeStart = Some t0 /\ timeEnd = Some t1
                               /\ accepts w [t0; t1] = false)
    /\ result run w <> Throw MsError
    /\ result run w <> Throw WebhookError
    /\ (exists added,
          after run w
          = withTrace w (trace w ++ FindOne sloId teamId :: added)
          /\ (added = [] \/ exists q, added = [ClickHouse q])
          /\ (added <> [] <-> ready /\ valid = true)).
Proof.
  intros w sloId teamId timeStart timeEnd.
  destruct w as [clk mg sl cl up aggs raw wh tr].
  unfold getSLOBurnRate, withTrace. run.
  destruct mg; run.
  2:{ repeat (split; [series_case|]).
      exists []. split; [reflexivity|]. split; [now left|].
      intuition (discriminate || congruence). }
  destruct (find (matchesSLO sloId teamId) sl) as [slo|]; run.
  2:{ repeat (split; [series_case|]).
      exists []. split; [reflexivity|]. split; [now left|].
      intuition (discriminate || congruence). }
  assert (Some slo <> None) as Hs by discriminate.
  destruct cl; run.
  2:{ repeat (split; [series_case|]).
      exists []. split; [reflexivity|]. split; [now left|].
      intuition (discriminate || congruence). }
  destruct timeStart as [t0|]; run.
  2:{ repeat (split; [series_case|]).
      exists []. split; [reflexivity|]. split; [now left|].
      intuition (discriminate || congruence). }
  destruct timeEnd as [t1|]; run.
  2:{ repeat (split; [series_case|]).
      exists []. split; [reflexivity|]. split; [now left|].
      intuition (discriminate || congruence). }
  destruct (up && _) eqn:Eacc; run.
  - repeat (split; [series_case|]).
    eexists [ClickHouse _]; rewrite <- app_assoc.
    split; [reflexivity|]. split; [right; eexists; reflexivity|].
    intuition (discriminate || congruence).
  - do 4 (split; [series_case|]).
    split.
    { split; [intros _|reflexivity]. split; [now repeat split|].
      exists t0, t1. now repeat split. }
    repeat (split; [series_case|]).
    eexists [ClickHouse _]; rewrite <- app_assoc.
    split; [reflexivity|]. split; [right; eexists; reflexivity|].
    intuition (discriminate || congruence).
Qed.

(** ** Shape of the burn-rate series *)

Lemma addToBucket_timestamps (r : Aggregate.t) (bs : list Bucket.t) (ts : Z) :
  In ts (map Bucket.timestamp (addToBucket r bs)) <->
  ts = Aggregate.timestamp r \/ In ts (map Bucket.timestamp bs).
Proof.
  induction bs as [|b bs IH]; cbn [addToBucket map In Bucket.timestamp].
  - intuition congruence.
  - destruct (Aggregate.timestamp r <? Bucket.timestamp b)%Z;
      cbn [map In Bucket.timestamp]; [intuition congruence|].
    destruct (Aggregate.timestamp r =? Bucket.timestamp b)%Z eqn:E;
      cbn [map In Bucket.timestamp].
    + apply Z.eqb_eq in E. rewrite <- E. intuition congruence.
    + rewrite IH. intuition congruence.
Qed.

Lemma groupByTimestamp_timestamps (rows : list Aggregate.t) (ts : Z) :
  In ts (map Bucket.timestamp (groupByTimestamp rows)) <->
  In ts (map Aggregate.timestamp rows).
Proof.
  induction rows as [|r rows IH]; [reflexivity|].
  unfold groupByTimestamp in *. cbn [fold_right map In].
  rewrite addToBucket_timestamps, IH. intuition congruence.
Qed.

(** X4.  The series [getSLOBurnRate] returns is in strictly ascending order of
    timestamp, with exactly one point for each timestamp at which the SLO has
    an aggregate row inside the requested range (bounds included, to the
    second). *)
Theorem series_ascending :
  forall (w : World) (sloId teamId : string) (timeStart timeEnd : Date)
         (slo : SLO.t) (points : list Point.t),
    find (matchesSLO sloId teamId) (slos w) = Some slo ->
    result (getSLOBurnRate sloId teamId (Some timeStart) (Some timeEnd)) w
    = Ok points ->
    StronglySorted Z.lt (map Point.timestamp points)
    /\ forall ts,
         In ts (map Point.timestamp points) <->
         exists row,
           In row (slo_aggregates w)
           /\ Aggregate.slo_id row = SLO.id slo
           /\ Aggregate.timestamp row = ts
           /\ (sqlDateTime timeStart <= ts <= sqlDateTime timeEnd)%Z.
Proof.
  intros w sloId teamId timeStart timeEnd slo points Ef H.
  apply getSLOBurnRate_returns in H.
  destruct H as (_ & slo' & t0 & t1 & Ef' & [= <-] & [= <-] & _ & ->).
  assert (slo' = slo) as -> by congruence.
  rewrite map_map.
  rewrite (map_ext _ Bucket.timestamp) by reflexivity.
  unfold burnRateRows. split; [apply groupByTimestamp_ascending|].
  intro ts. rewrite groupByTimestamp_timestamps, in_map_iff.
  split.
  - intros (row & <- & Hin). apply filter_In in Hin.
    destruct Hin as [Hin Hr]. unfold inRange in Hr.
    apply andb_prop in Hr. destruct Hr as [Hr H2].
    apply andb_prop in Hr. destruct Hr as [H0 H1].
    apply String.eqb_eq in H0. apply Z.leb_le in H1, H2.
    exists row. repeat split; assumption.
  - intros (row & Hin & Hid & <- & H1 & H2).
    exists row. split; [reflexivity|]. apply filter_In.
    split; [assumption|]. unfold inRange.
    apply String.eqb_eq in Hid. apply Z.leb_le in H1, H2.
    now rewrite Hid, H1, H2.
Qed.

Lemma series_ascending_witness :
  exists points,
    find (matchesSLO "slo-1" "team-1") (slos exampleWorld) = Some checkoutSLO
    /\ result (getSLOBurnRate "slo-1" "team-1" (Some 2589408000000%Z)
                              (Some 2592000000000%Z)) exampleWorld
       = Ok points
    /\ StronglySorted Z.lt (map Point.timestamp points).
Proof.
  eexists. split; [reflexivity|]. split; [vm_compute; reflexivity|].
  refine (proj1 (series_ascending exampleWorld "slo-1" "team-1"
                   2589408000000%Z 2592000000000%Z checkoutSLO _
                   eq_refl _)).
  vm_compute. reflexivity.
Defined.

(** ** The status as a function of the counts *)

Lemma div_Fin (a b : Q) : ~ b == 0 -> (Fin a / Fin b)%js = Fin (a / b).
Proof.
  intro H. unfold div. apply Qeq_bool_false in H. now rewrite H.
Qed.

Lemma achieved_Fin (slo : SLO.t) (W : number) (ws : option Date) (now : Date)
    (n d : Q) :
  0 < d ->
  Result.achieved (value (statusOf slo W ws now (Fin n) (Fin d)))
  = Fin (n / d * 100).
Proof.
  intro Hd. rewrite achieved_positive
    by (rewrite gtb_Fin; now apply Qlt_bool_iff).
  rewrite div_Fin by lra. reflexivity.
Qed.

Lemma burnRate_Fin (slo : SLO.t) (W : number) (ws : option Date) (now : Date)
    (n d : Q) :
  0 < d ->
  Result.burnRate (value (statusOf slo W ws now (Fin n) (Fin d)))
  = let e := (Fin 1 - SLO.targetValue slo / Fin 100)%js in
    Some (if (e > Fin 0)%js then (Fin (1 + - (n / d)) / e)%js
          else if Qlt_bool 0 (1 + - (n / d)) then Infinity else Fin 0).
Proof.
  intro Hd.
  assert ((Fin d > Fin 0)%js = true) as Hgt
      by (rewrite gtb_Fin; now apply Qlt_bool_iff).
  rewrite burnRate_eq by now apply positive_denominator_has_data.
  cbv zeta. rewrite Hgt. rewrite div_Fin by lra. reflexivity.
Qed.

Lemma ratio_le (n1 n2 d : Q) : 0 < d -> n1 <= n2 -> n1 / d <= n2 / d.
Proof.
  intros Hd H. unfold Qdiv. apply Qmult_le_compat_r; [exact H|].
  apply Qlt_le_weak. now apply Qinv_lt_0_compat.
Qed.

Lemma ratio_le_one (n d : Q) : 0 < d -> (n / d <= 1 <-> n <= d).
Proof.
  intro Hd. assert (n / d * d == n) as H by (field; lra).
  set (q := n / d) in *. split; intro; nra.
Qed.

Lemma one_le_ratio (n d : Q) : 0 < d -> (1 <= n / d <-> d <= n).
Proof.
  intro Hd. assert (n / d * d == n) as H by (field; lra).
  set (q := n / d) in *. split; intro; nra.
Qed.

(** X5.  For a fixed positive denominator, a larger numerator never lowers
    [achieved] and never raises the burn rate, whatever the target. *)
Theorem more_good_events_never_hurt :
  forall (slo : SLO.t) (W : number) (ws : option Date) (now : Date)
         (n1 n2 d : Q),
    0 < d -> n1 <= n2 ->
    let r1 := value (statusOf slo W ws now (Fin n1) (Fin d)) in
    let r2 := value (statusOf slo W ws now (Fin n2) (Fin d)) in
    (Result.achieved r1 <= Result.achieved r2)%js = true
    /\ exists b1 b2,
         Result.burnRate r1 = Some b1 /\ Result.burnRate r2 = Some b2
         /\ (b1 >= b2)%js = true.
Proof.
  intros slo W ws now n1 n2 d Hd Hn r1 r2.
  pose proof (ratio_le n1 n2 d Hd Hn) as Hr.
  set (q1 := n1 / d) in *. set (q2 := n2 / d) in *.
  split.
  - unfold r1, r2. rewrite !achieved_Fin by exact Hd.
    fold q1 q2. apply Qle_bool_iff. lra.
  - unfold r1, r2. rewrite !burnRate_Fin by exact Hd. cbv zeta.
    fold q1 q2.
    set (e := (Fin 1 - SLO.targetValue slo / Fin 100)%js).
    do 2 eexists. split; [reflexivity|]. split; [reflexivity|].
    destruct (e > Fin 0)%js eqn:He.
    + apply gtb_zero_inv in He. destruct He as [-> | (x & -> & Hx)].
      * reflexivity.
      * rewrite !div_Fin by lra. unfold geb, leb. apply Qle_bool_iff.
        unfold Qdiv. apply Qmult_le_compat_r; [lra|].
        apply Qlt_le_weak. now apply Qinv_lt_0_compat.
    + destruct (Qlt_bool 0 (1 + - q2)) eqn:E2.
      * assert (Qlt_bool 0 (1 + - q1) = true) as ->
            by (apply Qlt_bool_iff; apply Qlt_bool_iff in E2; lra).
        reflexivity.
      * destruct (Qlt_bool 0 (1 + - q1)); reflexivity.
Qed.

Lemma more_good_events_never_hurt_witness :
  0 < 1000 /\ 990 <= 998
  /\ (Result.achieved (value (statusOf checkoutSLO (Fin 2592000000) None 0%Z
                                       (Fin 990) (Fin 1000)))
      <= Result.achieved (value (statusOf checkoutSLO (Fin 2592000000) None
                                          0%Z (Fin 998) (Fin 1000))))%js
     = true.
Proof.
  assert (0 < 1000) as Hd by reflexivity.
  assert (990 <= 998) as Hn by (vm_compute; discriminate).
  split; [exact Hd|]. split; [exact Hn|].
  pose proof (more_good_events_never_hurt checkoutSLO (Fin 2592000000) None
                0%Z 990 998 1000 Hd Hn) as H.
  cbv zeta in H. destruct H as (H & _). exact H.
Defined.

Lemma healthy_iff_achieved (slo : SLO.t) (W : number) (ws : option Date)
    (now : Date) (n d : number) :
  (d > Fin 0)%js = true ->
  let r := value (statusOf slo W ws now n d) in
  Result.status r = HEALTHY
  <-> (Result.achieved r >= SLO.targetValue slo)%js = true.
Proof.
  intros Hd r.
  pose proof (positive_denominator_has_data n d Hd) as Hdata.
  pose proof (status_eq slo W ws now n d Hdata) as Hs.
  fold r in Hs. rewrite Hs.
  destruct (Result.achieved r >= SLO.targetValue slo)%js; [tauto|].
  destruct (lowBudget (Result.errorBudgetRemaining r)); split; discriminate.
Qed.

(** X8.  With a target of exactly [100] and any data, the error budget
    remaining is reported as [0], also when the status is [HEALTHY] (every
    event good); only the empty state reports [100]. *)
Theorem full_target_has_no_budget :
  forall (slo : SLO.t) (W : number) (ws : option Date) (now : Date)
         (n d : Q),
    0 < d -> (SLO.targetValue slo === Fin 100)%js = true ->
    let r := value (statusOf slo W ws now (Fin n) (Fin d)) in
    Result.errorBudgetRemaining r = Fin 0
    /\ (Result.status r = HEALTHY <-> d <= n).
Proof.
  intros slo W ws now n d Hd Ht r.
  assert ((Fin d > Fin 0)%js = true) as Hgt
      by (rewrite gtb_Fin; now apply Qlt_bool_iff).
  destruct (SLO.targetValue slo) as [t'| | |] eqn:Et;
    cbn [eqb] in Ht; try discriminate.
  apply Qeq_bool_iff in Ht.
  split.
  - unfold r. rewrite errorBudgetRemaining_eq
      by now apply positive_denominator_has_data.
    rewrite Et. unfold errorBudgetPercentOf, errorBudgetTotalOf.
    rewrite div_Fin by lra.
    assert ((Fin 1 - Fin (t' / 100))%js = Fin (1 + - (t' / 100))) as ->
        by reflexivity.
    assert (1 + - (t' / 100) == 0) as H0 by qlra.
    destruct W as [w| | |]; cbn [mul].
    + rewrite gtb_Fin.
      assert (Qlt_bool 0 ((1 + - (t' / 100)) * w) = false) as ->.
      { apply Qlt_bool_false. rewrite H0. lra. }
      reflexivity.
    + unfold scaleInf. apply Qeq_bool_iff in H0. rewrite H0. reflexivity.
    + unfold scaleInf. apply Qeq_bool_iff in H0. rewrite H0. reflexivity.
    + reflexivity.
  - pose proof (healthy_iff_achieved slo W ws now (Fin n) (Fin d) Hgt)
      as Hh.
    cbv zeta in Hh. fold r in Hh. rewrite Hh. unfold r. rewrite achieved_Fin by exact Hd.
    rewrite Et, geb_Fin, Qle_bool_iff.
    rewrite <- (one_le_ratio n d Hd).
    set (q := n / d). split; intro; lra.
Qed.

Lemma full_target_has_no_budget_witness :
  0 < 5 /\ (SLO.targetValue strictSLO === Fin 100)%js = true
  /\ Result.errorBudgetRemaining
       (value (statusOf strictSLO (Fin 2592000000) None 0%Z
                        (Fin 5) (Fin 5))) = Fin 0
  /\ Result.status
       (value (statusOf strictSLO (Fin 2592000000) None 0%Z
                        (Fin 5) (Fin 5))) = HEALTHY.
Proof.
  assert (0 < 5) as Hd by reflexivity.
  split; [exact Hd|]. split; [reflexivity|].
  destruct (full_target_has_no_budget strictSLO (Fin 2592000000) None 0%Z
              5 5 Hd eq_refl) as (H0 & Hh).
  split; [exact H0|]. apply Hh. vm_compute. discriminate.
Defined.

(** ** Empty window *)

Lemma sumN_zero (l : list N) : Forall (fun k => k = 0%N) l -> sumN l = 0%N.
Proof.
  induction 1 as [|k l Hk _ IH]; [reflexivity|].
  cbn [sumN]. rewrite Hk, IH. reflexivity.
Qed.

(** X9.  In aggregated mode, when the SLO has no aggregate row at or after the
    window start (or only rows with zero counts), the status is the default
    one: [HEALTHY], [achieved] and [errorBudgetRemaining] both [100], counts
    [0], and no burn rate. *)
Theorem empty_window_is_healthy :
  forall (ms : string -> option number) (w : World) (sloId teamId : string)
         (r : Result.t) (ws : Date),
    result (getSLOStatus ms sloId teamId false) w = Ok (Some r) ->
    Result.windowStart r = Some ws ->
    (forall row, In row (slo_aggregates w) ->
                 Aggregate.slo_id row = SLO.id (Result.slo r) ->
                 (sqlDateTime ws <= Aggregate.timestamp row)%Z ->
                 Aggregate.numerator_count row = 0%N
                 /\ Aggregate.denominator_count row = 0%N) ->
    Result.status r = HEALTHY
    /\ Result.achieved r = Fin 100
    /\ Result.errorBudgetRemaining r = Fin 100
    /\ Result.numerator r = Fin 0 /\ Result.denominator r = Fin 0
    /\ Result.burnRate r = None.
Proof.
  intros ms w sloId teamId r ws Hr Hws Hrows.
  apply getSLOStatus_returns in Hr.
  destruct Hr as ((Hmg & Hcl) & slo & W & ws' & Ef & Ems & Ed & Eup & Er).
  unfold countsRead in Er. cbn [andb] in Er.
  unfold statusRows, firstOr0 in Er.
  cbn [fst snd Counts.numerator Counts.denominator] in Er.
  rewrite !orZero_ofN in Er.
  destruct (statusOf_frame slo W (Some ws') (clock w)
    (ofN (sumN (map Aggregate.numerator_count
       (List.filter (inWindow (SLO.id slo) (sqlDateTime ws'))
                    (slo_aggregates w)))))
    (ofN (sumN (map Aggregate.denominator_count
       (List.filter (inWindow (SLO.id slo) (sqlDateTime ws'))
                    (slo_aggregates w)))))) as (Eslo & Estart & _).
  rewrite <- Er in Eslo, Estart.
  rewrite Estart in Hws. injection Hws as ->. rewrite Eslo in Hrows.
  assert (forall f : Aggregate.t -> N,
            (forall row, In row (slo_aggregates w) ->
               Aggregate.slo_id row = SLO.id slo ->
               (sqlDateTime ws <= Aggregate.timestamp row)%Z ->
               f row = 0%N) ->
            sumN (map f (List.filter (inWindow (SLO.id slo) (sqlDateTime ws))
                                     (slo_aggregates w))) = 0%N) as Hz.
  { intros f Hf. apply sumN_zero. apply Forall_forall.
    intros k Hk. apply in_map_iff in Hk. destruct Hk as (row & <- & Hin).
    apply filter_In in Hin. destruct Hin as [Hin Hw].
    unfold inWindow in Hw. apply andb_prop in Hw. destruct Hw as [H1 H2].
    apply String.eqb_eq in H1. apply Z.leb_le in H2. now apply Hf. }
  rewrite (Hz Aggregate.numerator_count) in Er
    by (intros; now apply Hrows).
  rewrite (Hz Aggregate.denominator_count) in Er
    by (intros; now apply Hrows).
  rewrite statusOf_noData in Er by reflexivity.
  rewrite Er. repeat split.
Qed.

Lemma empty_window_is_healthy_witness :
  exists r,
    result (getSLOStatus msExample "slo-1" "team-1" false) quietWorld
    = Ok (Some r)
    /\ Result.windowStart r = Some 2589408000000%Z
    /\ Result.status r = HEALTHY /\ Result.achieved r = Fin 100.
Proof.
  eexists. split; [vm_compute; reflexivity|]. split; [reflexivity|].
  assert (forall row, In row (slo_aggregates quietWorld) ->
            Aggregate.slo_id row = "slo-1"%string ->
            (sqlDateTime 2589408000000 <= Aggregate.timestamp row)%Z ->
            Aggregate.numerator_count row = 0%N
            /\ Aggregate.denominator_count row = 0%N) as Hrows
      by (intros row []).
  destruct (empty_window_is_healthy msExample quietWorld "slo-1" "team-1" _
              2589408000000%Z eq_refl eq_refl Hrows) as (H1 & H2 & _).
  split; [exact H1 | exact H2].
Defined.

(** ** Alert decisions *)

(** X10.  An alert is decided only with alerts enabled, a webhook resolved and
    a burn rate that is a number and reaches a configured threshold, whose
    severity the decision carries; a decision not to alert carries no
    severity. *)
Theorem alert_needs_reached_threshold :
  forall (slo : SLO.t) (burnRate achieved target errorBudgetRemaining : number)
         (webhook : option IWebhook) (w : World) (dec : Decision.t),
    result (checkSLOBurnAlerts slo burnRate achieved target
              errorBudgetRemaining webhook) w = Ok dec ->
    (Decision.shouldAlert dec = false -> Decision.severity dec = None)
    /\ (Decision.shouldAlert dec = true ->
        (exists b, SLO.burnAlerts slo = Some b
                   /\ BurnAlerts.enabled b = true)
        /\ webhook <> None
        /\ isNaN burnRate = false
        /\ exists th,
             In th (thresholdsOf slo)
             /\ (Threshold.burnRate th <= burnRate)%js = true
             /\ Decision.severity dec = Some (Threshold.severity th)).
Proof.
  intros slo burnRate achieved target ebr webhook w dec H.
  unfold result in H. rewrite checkSLOBurnAlerts_run in H.
  destruct (alertsOff slo) eqn:Eoff.
  { injection H as <-. split; [reflexivity | discriminate]. }
  destruct webhook as [wh|].
  2:{ injection H as <-. split; [reflexivity | discriminate]. }
  cbn [fst] in H.
  destruct (matchedThreshold slo burnRate) as [th|] eqn:Em.
  2:{ injection H as <-. split; [reflexivity | discriminate]. }
  unfold decisionFor in H.
  destruct (shouldAlertNow _ _ _).
  2:{ injection H as <-. split; [reflexivity | discriminate]. }
  injection H as <-. split; [discriminate|]. intros _.
  unfold matchedThreshold in Em.
  pose proof (find_some _ _ Em) as [Hin Hreach].
  apply (proj1 (sort_In th (thresholdsOf slo))) in Hin.
  split.
  - unfold alertsOff in Eoff.
    destruct (SLO.burnAlerts slo) as [b|]; [|discriminate].
    exists b. split; [reflexivity|].
    apply orb_false_iff in Eoff. destruct Eoff as [E _].
    now apply negb_false_iff in E.
  - split; [discriminate|]. split.
    + destruct burnRate; try reflexivity.
      destruct (Threshold.burnRate th); discriminate.
    + exists th. repeat split; assumption.
Qed.

Lemma alert_needs_reached_threshold_witness :
  exists dec,
    result (checkSLOBurnAlerts checkoutSLO (Fin 4) (Fin 99.6) (Fin 99.9)
              (Fin 0) (Some "hook"%string)) exampleWorld = Ok dec
    /\ Decision.shouldAlert dec = true
    /\ exists th, In th (thresholdsOf checkoutSLO)
                  /\ Decision.severity dec = Some (Threshold.severity th).
Proof.
  eexists. split; [vm_compute; reflexivity|]. split; [reflexivity|].
  destruct (alert_needs_reached_threshold checkoutSLO (Fin 4) (Fin 99.6)
              (Fin 99.9) (Fin 0) (Some "hook"%string) exampleWorld _
              eq_refl) as (_ & H).
  destruct (H eq_refl) as (_ & _ & _ & th & Hin & _ & Hs).
  exists th. split; [exact Hin | exact Hs].
Defined.

(** X11.  [sendSLOBurnAlert] makes one webhook send and no second attempt:
    it returns when the transport accepts, logging the notification, and when
    the transport rejects it logs the failure and throws that error on; the
    rest of the world is untouched. *)
Theorem send_reports_transport_outcome :
  forall (slo : SLO.t) (burnRate : number) (severity : Severity)
         (webhook : IWebhook) (achieved target errorBudgetRemaining : number)
         (w : World),
    let send := sendSLOBurnAlert slo burnRate severity webhook achieved
                                 target errorBudgetRemaining in
    let sent := Webhook webhook (SLO.id slo) severity (clock w) in
    (result send w = Ok tt <-> webhookUp w = true)
    /\ (result send w = Throw WebhookError <-> webhookUp w = false)
    /\ exists note,
         trace (after send w) = trace w ++ [sent; note]
         /\ note = (if webhookUp w
                    then LogInfo "Sent SLO burn alert notification"
                    else LogError
                           "Failed to send SLO burn alert notification")
         /\ slos (after send w) = slos w
         /\ slo_aggregates (after send w) = slo_aggregates w
         /\ clock (after send w) = clock w.
Proof.
  intros slo burnRate severity webhook achieved target ebr w send sent.
  unfold send, result, after. rewrite sendSLOBurnAlert_run. cbv zeta.
  destruct (webhookUp w) eqn:Eup; cbn [fst snd].
  - split; [tauto|]. split; [split; discriminate|].
    eexists. cbn [logged trace slos slo_aggregates clock].
    rewrite <- app_assoc. repeat split.
  - split; [split; discriminate|]. split; [tauto|].
    eexists. cbn [logged trace slos slo_aggregates clock].
    rewrite <- app_assoc. repeat split.
Qed.

(* ================================================================== *)
(** * Properties of the readiness scorecard *)

(** ** The [pillarScores] object *)

Lemma getScore_setScore_same (k : string) (v : Stats.t) (ps : PillarScores) :
  getScore k (setScore k v ps) = Some v.
Proof.
  induction ps as [|[k' old] ps IH]; cbn [setScore getScore].
  - now rewrite String.eqb_refl.
  - destruct (String.eqb k' k) eqn:E; cbn [getScore]; now rewrite E.
Qed.

Lemma getScore_setScore_other (k k' : string) (v : Stats.t)
    (ps : PillarScores) :
  k' <> k -> getScore k' (setScore k v ps) = getScore k' ps.
Proof.
  intro Hne. induction ps as [|[k0 old] ps IH]; cbn [setScore getScore].
  - apply String.eqb_neq in Hne. rewrite String.eqb_sym. now rewrite Hne.
  - destruct (String.eqb k0 k) eqn:E; cbn [getScore].
    + apply String.eqb_eq in E. subst k0.
      destruct (String.eqb k k') eqn:E'; [|reflexivity].
      apply String.eqb_eq in E'. congruence.
    + now rewrite IH.
Qed.

Lemma okScores_setScore (k : string) (v : Stats.t) (ps : PillarScores) :
  okStats v -> okScores ps -> okScores (setScore k v ps).
Proof.
  intros Hv. induction ps as [|[k' old] ps IH]; cbn [setScore]; intro H.
  - constructor; [exact Hv | constructor].
  - apply Forall_inv in H as H1. apply Forall_inv_tail in H.
    destruct (String.eqb k' k); constructor;
      [exact Hv | exact H | exact H1 | exact (IH H)].
Qed.

Lemma okScores_getScore (k : string) (ps : PillarScores) (st : Stats.t) :
  okScores ps -> getScore k ps = Some st -> okStats st.
Proof.
  induction ps as [|[k' old] ps IH]; cbn [getScore]; [discriminate|].
  intros H Hg. apply Forall_inv in H as H1. apply Forall_inv_tail in H.
  destruct (String.eqb k' k); [now injection Hg as <- | auto].
Qed.

Lemma okScores_init (pillars : list Pillar.t) :
  okScores (initPillarScores pillars).
Proof.
  unfold initPillarScores.
  assert (forall ps, okScores ps ->
            okScores (fold_left
              (fun ps pillar =>
                 setScore (Pillar.key pillar) (Stats.mk (Fin 0) (Fin 0)) ps)
              pillars ps)) as H.
  { induction pillars as [|p pillars IH]; intros ps Hps; [exact Hps|].
    cbn [fold_left]. apply IH. apply okScores_setScore; [|exact Hps].
    exists 0, 0. repeat split; lra. }
  apply H. constructor.
Qed.

Lemma orOne_valid (x : option number) :
  validWeight x -> exists q, orOne x = Fin q /\ 0 < q.
Proof.
  destruct x as [[a| | |]|]; cbn [validWeight orOne]; try contradiction.
  - intro Ha. destruct (Qeq_bool a 0) eqn:E.
    + exists 1. split; [reflexivity | lra].
    + exists a. split; [reflexivity|]. apply Qeq_bool_false in E. lra.
  - intros _. exists 1. split; [reflexivity | lra].
Qed.

Lemma okScores_addCheck (ps : PillarScores) (k : string) (q : Q)
    (status : CheckStatus.t) :
  0 <= q -> okScores ps -> okScores (addCheck ps k (Fin q) status).
Proof.
  intros Hq Hps. unfold addCheck.
  destruct (getScore k ps) as [st|] eqn:Eg; [|exact Hps].
  apply okScores_setScore; [|exact Hps].
  destruct (okScores_getScore k ps st Hps Eg) as (t & p & -> & Hp & Hpt).
  cbn [Stats.totalWeight Stats.passedWeight add].
  destruct status.
  - exists (t + q), (p + q). repeat split; lra.
  - exists (t + q), p. repeat split; lra.
Qed.

(** ** The score *)

Lemma mathRound_percent (x : Q) :
  0 <= x -> x <= 100 ->
  exists z, mathRound (Fin x) = Fin (inject_Z z) /\ (0 <= z <= 100)%Z.
Proof.
  intros H0 H100. exists (Qfloor (x + (1 # 2))). split; [reflexivity|].
  split.
  - change 0%Z with (Qfloor 0). apply Qfloor_resp_le. lra.
  - change 100%Z with (Qfloor (201 # 2)). apply Qfloor_resp_le. lra.
Qed.

Lemma overallScore_ok (pillars : list Pillar.t) (ps : PillarScores) :
  validPillars pillars -> okScores ps ->
  exists s t, overallScore pillars ps = (Fin s, Fin t)
              /\ 0 <= s /\ s <= 100 * t /\ 0 <= t.
Proof.
  intros Hp Hps. unfold overallScore.
  assert (forall acc,
            (exists s t, acc = (Fin s, Fin t)
                         /\ 0 <= s /\ s <= 100 * t /\ 0 <= t) ->
            exists s t,
              fold_left
                (fun acc pillar =>
                   match getScore (Pillar.key pillar) ps with
                   | Some stats =>
                       if (Stats.totalWeight stats > Fin 0)%js then
                         ((fst acc + (Stats.passedWeight stats
                                      / Stats.totalWeight stats) * Fin 100
                                     * Pillar.weight pillar)%js,
                          (snd acc + Pillar.weight pillar)%js)
                       else acc
                   | None => acc
                   end) pillars acc = (Fin s, Fin t)
              /\ 0 <= s /\ s <= 100 * t /\ 0 <= t) as H.
  { induction Hp as [|pillar pillars (wg & Ew & Hw) _ IH]; intros acc Hacc;
      [exact Hacc|].
    cbn [fold_left]. apply IH.
    destruct (getScore (Pillar.key pillar) ps) as [st|] eqn:Eg;
      [|exact Hacc].
    destruct (okScores_getScore _ ps st Hps Eg) as (t0 & p0 & -> & Hp0 & Hpt).
    cbn [Stats.totalWeight Stats.passedWeight].
    rewrite gtb_Fin. destruct (Qlt_bool 0 t0) eqn:Et; [|exact Hacc].
    apply Qlt_bool_iff in Et.
    destruct Hacc as (s & t & -> & Hs0 & Hst & Ht0).
    rewrite Ew, div_Fin by lra. cbn [fst snd add mul].
    do 2 eexists. split; [reflexivity|].
    assert (0 <= p0 / t0) as Hq0 by (apply Qle_shift_div_l; lra).
    assert (p0 / t0 <= 1) as Hq1 by (apply Qle_shift_div_r; lra).
    set (q := p0 / t0) in *. repeat split; nra. }
  apply H. exists 0, 0. repeat split; lra.
Qed.

Lemma finalScore_percent (pillars : list Pillar.t) (ps : PillarScores) :
  validPillars pillars -> okScores ps ->
  exists z, finalScoreOf (overallScore pillars ps) = Fin (inject_Z z)
            /\ (0 <= z <= 100)%Z.
Proof.
  intros Hp Hps.
  destruct (overallScore_ok pillars ps Hp Hps) as (s & t & -> & Hs & Hst & Ht).
  unfold finalScoreOf. cbn [fst snd]. rewrite gtb_Fin.
  destruct (Qlt_bool 0 t) eqn:E.
  - apply Qlt_bool_iff in E. rewrite div_Fin by lra.
    apply mathRound_percent.
    + apply Qle_shift_div_l; lra.
    + apply Qle_shift_div_r; lra.
  - exists 0%Z. split; [reflexivity | lia].
Qed.

Lemma scoreOfChecks_percent (pillars : list Pillar.t)
    (checks : list ServiceCheck.t) :
  validPillars pillars ->
  Forall (fun c => validWeight (ServiceCheck.checkWeight c)) checks ->
  exists z, scoreOfChecks pillars checks = Fin (inject_Z z)
            /\ (0 <= z <= 100)%Z.
Proof.
  intros Hp Hc. unfold scoreOfChecks. apply finalScore_percent; [exact Hp|].
  assert (forall ps, okScores ps ->
            okScores (fold_left
              (fun ps check =>
                 addCheck ps (orOther (ServiceCheck.pillar check))
                          (orOne (ServiceCheck.checkWeight check))
                          (ServiceCheck.status check)) checks ps)) as H.
  { induction Hc as [|c checks Hv _ IH]; intros ps Hps; [exact Hps|].
    cbn [fold_left]. apply IH.
    destruct (orOne_valid _ Hv) as (q & -> & Hq).
    apply okScores_addCheck; [lra | exact Hps]. }
  apply H. apply okScores_init.
Qed.

(** X12.  On a scorecard of at most [1000] pillars, with pillar weights
    and check weights that are numbers between [0] and [10^9], the score
    [calculateServiceScore] returns is an integer between [0] and [100]. *)
Theorem service_score_is_a_percentage :
  forall (serviceId teamId : string) (db : Registry),
    boundedPillars (fst (getScorecardForTeam teamId db)) ->
    (forall c, In c (serviceChecks db) ->
               ServiceCheck.service c = serviceId ->
               boundedWeight (ServiceCheck.checkWeight c)) ->
    exists z, fst (calculateServiceScore serviceId teamId db)
              = Fin (inject_Z z)
              /\ (0 <= z <= 100)%Z.
Proof.
  intros serviceId teamId db (Hp & _) Hc.
  unfold calculateServiceScore. cbn [fst].
  apply scoreOfChecks_percent; [exact Hp|].
  apply Forall_forall. intros c Hin. apply filter_In in Hin.
  destruct Hin as [Hin Hs]. apply String.eqb_eq in Hs.
  now apply (Hc c Hin Hs).
Qed.

Lemma scoreOfChecks_steps (pillars : list Pillar.t)
    (checks : list ServiceCheck.t) :
  scoreOfChecks pillars checks =
  finalScoreOf (fold_left (scoreStep (fold_left checkStep checks
                                        (initPillarScores pillars)))
                          pillars (Fin 0, Fin 0)).
Proof. reflexivity. Qed.

(** ** Keys of the pillar scores *)

Lemma getScore_init (pillars : list Pillar.t) (k : string) :
  getScore k (initPillarScores pillars) =
  if existsb (fun p => String.eqb (Pillar.key p) k) pillars
  then Some (Stats.mk (Fin 0) (Fin 0)) else None.
Proof.
  unfold initPillarScores.
  assert (forall ps,
            getScore k (fold_left
              (fun ps pillar =>
                 setScore (Pillar.key pillar) (Stats.mk (Fin 0) (Fin 0)) ps)
              pillars ps) =
            if existsb (fun p => String.eqb (Pillar.key p) k) pillars
            then Some (Stats.mk (Fin 0) (Fin 0)) else getScore k ps) as H.
  { induction pillars as [|p pillars IH]; intro ps; [reflexivity|].
    cbn [fold_left existsb]. rewrite IH.
    destruct (existsb _ pillars); [now rewrite orb_true_r|].
    rewrite orb_false_r.
    destruct (String.eqb (Pillar.key p) k) eqn:E.
    - apply String.eqb_eq in E. subst k. apply getScore_setScore_same.
    - apply String.eqb_neq in E. apply getScore_setScore_other. congruence. }
  apply H.
Qed.

Lemma addCheck_keys (ps : PillarScores) (k k' : string) (w : number)
    (status : CheckStatus.t) :
  getScore k (addCheck ps k' w status) = None <-> getScore k ps = None.
Proof.
  unfold addCheck. destruct (getScore k' ps) as [st|] eqn:E; [|reflexivity].
  destruct (String.eqb k k') eqn:Ek.
  - apply String.eqb_eq in Ek. subst k'.
    rewrite getScore_setScore_same, E. split; discriminate.
  - apply String.eqb_neq in Ek. now rewrite getScore_setScore_other.
Qed.







(** ** The stored service *)

Lemma find_update_same (serviceId : string) (update : Service.t -> Service.t)
    (l : list Service.t) :
  (forall s, Service._id (update s) = Service._id s) ->
  find (fun s => String.eqb (Service._id s) serviceId)
       (updateServiceById serviceId update l)
  = option_map update
      (find (fun s => String.eqb (Service._id s) serviceId) l).
Proof.
  intro Hid. induction l as [|s l IH]; [reflexivity|].
  cbn [updateServiceById find].
  destruct (String.eqb (Service._id s) serviceId) eqn:E; cbn [find].
  - now rewrite Hid, E.
  - now rewrite E.
Qed.

Lemma find_update_other (serviceId other : string)
    (update : Service.t -> Service.t) (l : list Service.t) :
  (forall s, Service._id (update s) = Service._id s) ->
  other <> serviceId ->
  find (fun s => String.eqb (Service._id s) other)
       (updateServiceById serviceId update l)
  = find (fun s => String.eqb (Service._id s) other) l.
Proof.
  intros Hid Hne. induction l as [|s l IH]; [reflexivity|].
  cbn [updateServiceById find].
  destruct (String.eqb (Service._id s) serviceId) eqn:E; cbn [find].
  - rewrite Hid. apply String.eqb_eq in E.
    destruct (String.eqb (Service._id s) other) eqn:E'; [|reflexivity].
    apply String.eqb_eq in E'. congruence.
  - now rewrite IH.
Qed.

Lemma describe_update (serviceId : string) (update : Service.t -> Service.t)
    (l : list Service.t) :
  (forall s, describe (update s) = describe s) ->
  map describe (updateServiceById serviceId update l) = map describe l.
Proof.
  intro Hd. induction l as [|s l IH]; [reflexivity|].
  cbn [updateServiceById].
  destruct (String.eqb (Service._id s) serviceId); cbn [map].
  - now rewrite Hd.
  - now rewrite IH.
Qed.

Lemma update_absent (serviceId : string) (update : Service.t -> Service.t)
    (l : list Service.t) :
  find (fun s => String.eqb (Service._id s) serviceId) l = None ->
  updateServiceById serviceId update l = l.
Proof.
  induction l as [|s l IH]; [reflexivity|]. cbn [updateServiceById find].
  destruct (String.eqb (Service._id s) serviceId); [discriminate|].
  intro H. now rewrite IH.
Qed.



(** X14.  [calculateServiceScore] stores what it returns: the service of
    that id, if there is one, gets the returned score and the readiness of
    that score; no other service changes, no service is created, and the
    description of every service, the checks and the scorecards stay as they
    are. *)
Theorem recalculation_stores_its_result :
  forall (serviceId teamId : string) (db : Registry),
    let score := fst (calculateServiceScore serviceId teamId db) in
    let db' := snd (calculateServiceScore serviceId teamId db) in
    storedReadiness serviceId db'
    = match storedReadiness serviceId db with
      | Some _ => Some (Some (readinessOf score), Some score)
      | None => None
      end
    /\ (forall other, other <> serviceId ->
                      storedReadiness other db' = storedReadiness other db)
    /\ map describe (services db') = map describe (services db)
    /\ map Service.lastSeenAt (services db')
       = map Service.lastSeenAt (services db)
    /\ serviceChecks db' = serviceChecks db
    /\ scorecards db' = scorecards db
    /\ (storedReadiness serviceId db = None -> db' = db).
Proof.
  intros serviceId teamId db score db'.
  unfold db', score, calculateServiceScore. cbn [fst snd].
  unfold storedReadiness, withServices. cbn [services serviceChecks scorecards].
  split; [|split; [|split; [|split; [|split; [|split]]]]].
  - rewrite find_update_same by reflexivity.
    now destruct (find _ (services db)).
  - intros other Hne. now rewrite find_update_other.
  - now apply describe_update.
  - generalize (services db). intro l.
    induction l as [|s l IH]; [reflexivity|]. cbn [updateServiceById].
    destruct (String.eqb (Service._id s) serviceId); cbn [map];
      [reflexivity | now rewrite IH].
  - reflexivity.
  - reflexivity.
  - destruct (find _ (services db)) eqn:E; [discriminate|]. intros _.
    rewrite update_absent by exact E. now destruct db.
Qed.

(** ** Checks that all pass *)

Lemma allPassed_setScore (k : string) (v : Stats.t) (ps : PillarScores) :
  Stats.passedWeight v = Stats.totalWeight v ->
  allPassed ps -> allPassed (setScore k v ps).
Proof.
  intros Hv. induction ps as [|[k' old] ps IH]; cbn [setScore]; intro H.
  - constructor; [exact Hv | constructor].
  - apply Forall_inv in H as H1. apply Forall_inv_tail in H.
    destruct (String.eqb k' k); constructor;
      [exact Hv | exact H | exact H1 | exact (IH H)].
Qed.

Lemma allPassed_getScore (k : string) (ps : PillarScores) (st : Stats.t) :
  allPassed ps -> getScore k ps = Some st ->
  Stats.passedWeight st = Stats.totalWeight st.
Proof.
  induction ps as [|[k' old] ps IH]; cbn [getScore]; [discriminate|].
  intros H Hg. apply Forall_inv in H as H1. apply Forall_inv_tail in H.
  destruct (String.eqb k' k); [now injection Hg as <- | auto].
Qed.

Lemma allPassed_init (pillars : list Pillar.t) :
  allPassed (initPillarScores pillars).
Proof.
  unfold initPillarScores.
  assert (forall ps, allPassed ps ->
            allPassed (fold_left
              (fun ps pillar =>
                 setScore (Pillar.key pillar) (Stats.mk (Fin 0) (Fin 0)) ps)
              pillars ps)) as H.
  { induction pillars as [|p pillars IH]; intros ps Hps; [exact Hps|].
    cbn [fold_left]. apply IH. now apply allPassed_setScore. }
  apply H. constructor.
Qed.

Lemma allPassed_addCheck (ps : PillarScores) (k : string) (w : number) :
  allPassed ps -> allPassed (addCheck ps k w CheckStatus.PASS).
Proof.
  intro Hps. unfold addCheck.
  destruct (getScore k ps) as [st|] eqn:Eg; [|exact Hps].
  apply allPassed_setScore; [|exact Hps].
  cbn [Stats.totalWeight Stats.passedWeight].
  now rewrite (allPassed_getScore k ps st Hps Eg).
Qed.

Lemma counted_addCheck_keep (ps : PillarScores) (k k' : string) (q : Q)
    (status : CheckStatus.t) :
  okScores ps -> 0 <= q -> counted k ps ->
  counted k (addCheck ps k' (Fin q) status).
Proof.
  intros Hps Hq (t & p & Hg & Ht). unfold counted, addCheck.
  destruct (getScore k' ps) as [st|] eqn:Eg; [|now exists t, p].
  destruct (String.eqb k k') eqn:E.
  - apply String.eqb_eq in E. subst k'. rewrite Hg in Eg.
    injection Eg as <-. rewrite getScore_setScore_same.
    cbn [Stats.totalWeight Stats.passedWeight add].
    destruct status; do 2 eexists; (split; [reflexivity | lra]).
  - apply String.eqb_neq in E. rewrite getScore_setScore_other by exact E.
    now exists t, p.
Qed.

Lemma counted_addCheck_new (ps : PillarScores) (k : string) (q : Q)
    (status : CheckStatus.t) :
  okScores ps -> 0 < q -> getScore k ps <> None ->
  counted k (addCheck ps k (Fin q) status).
Proof.
  intros Hps Hq Hk. unfold counted, addCheck.
  destruct (getScore k ps) as [st|] eqn:Eg; [|congruence].
  destruct (okScores_getScore k ps st Hps Eg) as (t & p & -> & Hp & Hpt).
  rewrite getScore_setScore_same.
  cbn [Stats.totalWeight Stats.passedWeight add].
  destruct status; do 2 eexists; (split; [reflexivity | lra]).
Qed.

Lemma okScores_checkStep (ps : PillarScores) (c : ServiceCheck.t) :
  validWeight (ServiceCheck.checkWeight c) -> okScores ps ->
  okScores (checkStep ps c).
Proof.
  intros Hv Hps. unfold checkStep.
  destruct (orOne_valid _ Hv) as (q & -> & Hq).
  apply okScores_addCheck; [lra | exact Hps].
Qed.

Lemma counted_fold_keep (checks : list ServiceCheck.t) (k : string) :
  Forall (fun c => validWeight (ServiceCheck.checkWeight c)) checks ->
  forall ps, okScores ps -> counted k ps ->
             okScores (fold_left checkStep checks ps)
             /\ counted k (fold_left checkStep checks ps).
Proof.
  induction 1 as [|c checks Hv _ IH]; intros ps Hps Hk; [now split|].
  cbn [fold_left]. apply IH; [now apply okScores_checkStep|].
  unfold checkStep. destruct (orOne_valid _ Hv) as (q & -> & Hq).
  apply counted_addCheck_keep; [exact Hps | lra | exact Hk].
Qed.

Lemma counted_fold (checks : list ServiceCheck.t) (c : ServiceCheck.t) :
  Forall (fun c => validWeight (ServiceCheck.checkWeight c)) checks ->
  In c checks ->
  forall ps, okScores ps ->
             getScore (orOther (ServiceCheck.pillar c)) ps <> None ->
             counted (orOther (ServiceCheck.pillar c))
                     (fold_left checkStep checks ps).
Proof.
  induction 1 as [|c0 checks Hv Hvs IH]; intros Hin ps Hps Hk; [destruct Hin|].
  cbn [fold_left]. destruct Hin as [->|Hin].
  - apply counted_fold_keep; [exact Hvs | now apply okScores_checkStep|].
    unfold checkStep. destruct (orOne_valid _ Hv) as (q & -> & Hq).
    now apply counted_addCheck_new.
  - apply IH; [exact Hin | now apply okScores_checkStep|].
    unfold checkStep. now rewrite addCheck_keys.
Qed.

Lemma allPassed_fold (checks : list ServiceCheck.t) :
  Forall (fun c => ServiceCheck.status c = CheckStatus.PASS) checks ->
  forall ps, allPassed ps -> allPassed (fold_left checkStep checks ps).
Proof.
  induction 1 as [|c checks Hpass _ IH]; intros ps Hps; [exact Hps|].
  cbn [fold_left]. apply IH. unfold checkStep. rewrite Hpass.
  now apply allPassed_addCheck.
Qed.

Lemma okScores_fold (checks : list ServiceCheck.t) :
  Forall (fun c => validWeight (ServiceCheck.checkWeight c)) checks ->
  forall ps, okScores ps -> okScores (fold_left checkStep checks ps).
Proof.
  induction 1 as [|c checks Hv _ IH]; intros ps Hps; [exact Hps|].
  cbn [fold_left]. apply IH. now apply okScores_checkStep.
Qed.

Lemma scoreStep_all_pass (pillars : list Pillar.t) (ps : PillarScores) :
  validPillars pillars -> okScores ps -> allPassed ps ->
  forall s t, s == 100 * t -> 0 <= t ->
    exists s' t',
      fold_left (scoreStep ps) pillars (Fin s, Fin t) = (Fin s', Fin t')
      /\ s' == 100 * t' /\ t <= t'
      /\ forall p w, In p pillars -> counted (Pillar.key p) ps ->
                     Pillar.weight p = Fin w -> t + w <= t'.
Proof.
  intros Hp Hps Hall.
  induction Hp as [|pillar pillars (wg & Ew & Hw) _ IH]; intros s t Hst Ht.
  - exists s, t. repeat split; [exact Hst | lra | intros p w []].
  - cbn [fold_left]. unfold scoreStep at 2.
    destruct (getScore (Pillar.key pillar) ps) as [st|] eqn:Eg.
    + destruct (okScores_getScore _ ps st Hps Eg)
        as (t0 & p0 & -> & Hp0 & Hpt).
      pose proof (allPassed_getScore _ ps _ Hall Eg) as Heq.
      cbn [Stats.totalWeight Stats.passedWeight] in Heq |- *.
      injection Heq as ->.
      rewrite gtb_Fin. destruct (Qlt_bool 0 t0) eqn:Et.
      * apply Qlt_bool_iff in Et.
        rewrite Ew, div_Fin by lra. cbn [fst snd add mul].
        assert (t0 / t0 == 1) as H1 by (field; lra).
        destruct (IH (s + t0 / t0 * 100 * wg) (t + wg))
          as (s' & t' & E & Hs' & Ht' & Hin);
          [rewrite H1; lra | lra |].
        exists s', t'. repeat split; [exact E | exact Hs' | lra |].
        intros p w [<-|Hp'] Hc Ewp.
        -- rewrite Ew in Ewp. injection Ewp as <-. exact Ht'.
        -- specialize (Hin p w Hp' Hc Ewp). lra.
      * destruct (IH s t Hst Ht) as (s' & t' & E & Hs' & Ht' & Hin).
        exists s', t'. repeat split; [exact E | exact Hs' | exact Ht' |].
        intros p w [<-|Hp'] Hc Ewp; [|exact (Hin p w Hp' Hc Ewp)].
        destruct Hc as (tc & pc & Hg & Hpos). rewrite Eg in Hg.
        injection Hg as <- _. apply Qlt_bool_iff in Hpos. congruence.
    + destruct (IH s t Hst Ht) as (s' & t' & E & Hs' & Ht' & Hin).
      exists s', t'. repeat split; [exact E | exact Hs' | exact Ht' |].
      intros p w [<-|Hp'] Hc Ewp; [|exact (Hin p w Hp' Hc Ewp)].
      destruct Hc as (tc & pc & Hg & _). congruence.
Qed.

Lemma scoreOfChecks_all_pass (pillars : list Pillar.t)
    (checks : list ServiceCheck.t) (c : ServiceCheck.t) (p : Pillar.t)
    (w : Q) :
  validPillars pillars ->
  Forall (fun c => validWeight (ServiceCheck.checkWeight c)) checks ->
  Forall (fun c => ServiceCheck.status c = CheckStatus.PASS) checks ->
  In c checks -> In p pillars ->
  Pillar.key p = orOther (ServiceCheck.pillar c) ->
  Pillar.weight p = Fin w -> 0 < w ->
  scoreOfChecks pillars checks = Fin 100.
Proof.
  intros Hp Hv Hpass Hc Hpin Hkey Hw Hpos. rewrite scoreOfChecks_steps.
  set (ps := fold_left checkStep checks (initPillarScores pillars)).
  assert (okScores ps) as Hok
    by (apply okScores_fold; [exact Hv | apply okScores_init]).
  assert (allPassed ps) as Hall
    by (apply allPassed_fold; [exact Hpass | apply allPassed_init]).
  assert (counted (Pillar.key p) ps) as Hcount.
  { rewrite Hkey. apply counted_fold; [exact Hv | exact Hc | apply okScores_init|].
    rewrite getScore_init.
    assert (existsb (fun p0 => String.eqb (Pillar.key p0)
                                 (orOther (ServiceCheck.pillar c))) pillars
            = true) as ->; [|discriminate].
    apply existsb_exists. exists p. split; [exact Hpin|].
    rewrite Hkey. apply String.eqb_refl. }
  destruct (scoreStep_all_pass pillars ps Hp Hok Hall 0 0)
    as (s' & t' & E & Hs' & Ht' & Hin); [lra | lra |].
  specialize (Hin p w Hpin Hcount Hw). rewrite E.
  unfold finalScoreOf. cbn [fst snd]. rewrite gtb_Fin.
  assert (0 < t') as Htpos by lra.
  apply Qlt_bool_iff in Htpos as Hb. rewrite Hb.
  rewrite div_Fin by lra. cbn [mathRound].
  change (Fin 100) with (Fin (inject_Z (Qfloor (201 # 2)))).
  do 2 f_equal. apply Qfloor_comp.
  assert (s' / t' == 100) as -> by (rewrite Hs'; field; lra).
  reflexivity.
Qed.

(** X15.  On a scorecard of at most [1000] pillars, with pillar weights
    and check weights that are numbers between [0] and [10^9], a service
    whose checks all pass, at least one of them on a pillar of positive
    weight, scores [100] and is rated [GOLD], whatever the weights are
    within that range. *)
Theorem all_checks_passing_is_gold :
  forall (serviceId teamId : string) (db : Registry)
         (c : ServiceCheck.t) (p : Pillar.t) (w : Q),
    let pillars := fst (getScorecardForTeam teamId db) in
    boundedPillars pillars ->
    (forall c', In c' (serviceChecks db) ->
                ServiceCheck.service c' = serviceId ->
                boundedWeight (ServiceCheck.checkWeight c')
                /\ ServiceCheck.status c' = CheckStatus.PASS) ->
    In c (serviceChecks db) -> ServiceCheck.service c = serviceId ->
    In p pillars -> Pillar.key p = orOther (ServiceCheck.pillar c) ->
    Pillar.weight p = Fin w -> 0 < w ->
    fst (calculateServiceScore serviceId teamId db) = Fin 100
    /\ readinessOf (fst (calculateServiceScore serviceId teamId db))
       = ServiceReadiness.GOLD.
Proof.
  intros serviceId teamId db c p w pillars (Hp & _) Hall Hc Hs Hpin Hkey
         Hw Hpos.
  assert (fst (calculateServiceScore serviceId teamId db) = Fin 100) as H.
  { unfold calculateServiceScore. cbn [fst]. fold pillars.
    apply (scoreOfChecks_all_pass pillars _ c p w); try assumption.
    - apply Forall_forall. intros c' Hin. apply filter_In in Hin.
      destruct Hin as [Hin E]. apply String.eqb_eq in E.
      now apply (Hall c' Hin E).
    - apply Forall_forall. intros c' Hin. apply filter_In in Hin.
      destruct Hin as [Hin E]. apply String.eqb_eq in E.
      now apply Hall.
    - apply filter_In. split; [exact Hc|]. now apply String.eqb_eq. }
  split; [exact H|]. rewrite H. reflexivity.
Qed.

Lemma all_checks_passing_is_gold_witness :
  fst (calculateServiceScore "svc-3" "team-1" (execute goldRegistry))
  = Fin 100
  /\ readinessOf
       (fst (calculateServiceScore "svc-3" "team-1" (execute goldRegistry)))
     = ServiceReadiness.GOLD.
Proof.
  apply (all_checks_passing_is_gold
           "svc-3" "team-1" (execute goldRegistry)
           (ServiceCheck.mk "svc-3" "team-1" "has_owner" CheckStatus.PASS
                            (Some "ownership"%string) (Some (Fin 1)))
           (Pillar.mk "ownership" "Ownership" (Fin 15)) 15).
  - split; [|split; [cbn; lia | repeat constructor]].
    repeat constructor; eexists; (split; [reflexivity | discriminate]).
  - intros c' Hin _. vm_compute in Hin.
    repeat (destruct Hin as [<-|Hin];
            [split; [split; [discriminate | reflexivity] | reflexivity]|]).
    destruct Hin.
  - vm_compute. left. reflexivity.
  - reflexivity.
  - vm_compute. do 2 right. left. reflexivity.
  - reflexivity.
  - reflexivity.
  - reflexivity.
Defined.

Lemma service_score_is_a_percentage_witness :
  exists z, fst (calculateServiceScore "svc-1" "team-1"
                   (execute exampleRegistry))
            = Fin (inject_Z z)
            /\ (0 <= z <= 100)%Z.
Proof.
  apply (service_score_is_a_percentage
           "svc-1" "team-1" (execute exampleRegistry)).
  - split; [|split; [cbn; lia | repeat constructor]].
    repeat constructor; eexists; (split; [reflexivity | discriminate]).
  - intros c Hin _. vm_compute in Hin.
    repeat (destruct Hin as [<-|Hin];
            [split; [discriminate | reflexivity]|]).
    destruct Hin.
Defined.

(** ** The readiness task *)

Lemma recordResults_split (rules : list Rule.t) (serviceId teamId : string)
    (results : list CheckResult.t) (ps : PillarScores)
    (l : list ServiceCheck.t) :
  recordResults rules serviceId teamId results (ps, l)
  = (fold_left (resultStep rules) results ps,
     fold_left (storeStep rules serviceId teamId) results l).
Proof.
  revert ps l. induction results as [|r results IH]; intros ps l;
    [reflexivity|].
  unfold recordResults in *. cbn [fold_left fst snd]. apply IH.
Qed.

Lemma evaluateService_score (pillars : list Pillar.t) (rules : list Rule.t)
    (teamId : string) (service : Service.t) (db : Registry) :
  fst (evaluateService pillars rules teamId service db)
  = finalScoreOf
      (overallScore pillars
         (fold_left (resultStep rules) (checkResultsOf db teamId service)
                    (initPillarScores pillars))).
Proof.
  unfold evaluateService. cbn [fst]. now rewrite recordResults_split.
Qed.

Lemma evaluateService_checks (pillars : list Pillar.t) (rules : list Rule.t)
    (teamId : string) (service : Service.t) (db : Registry) :
  serviceChecks (snd (evaluateService pillars rules teamId service db))
  = fold_left (storeStep rules (Service._id service) teamId)
              (checkResultsOf db teamId service) (serviceChecks db).
Proof.
  unfold evaluateService. cbn [snd]. now rewrite recordResults_split.
Qed.

(** X16.  On the default scorecard with the default rules, when both
    telemetry queries are answered, the score of the task is the rounded sum
    of 35 times the fraction of {logs, traces} present, 35 for an SLO, 15 for
    an owner and 15 times the fraction of {runbook, repository} present; the
    service is [GOLD] exactly when it has an owner, an SLO, logs, traces and
    a runbook or a repository. *)
Theorem default_scorecard_score :
  forall (teamId : string) (service : Service.t) (db : Registry)
         (logCount traceCount : N),
    telemetryCount db (Service.name service) "otel_logs" = Some logCount ->
    telemetryCount db (Service.name service) "otel_traces"
    = Some traceCount ->
    let owner := truthy (Service.owner service) in
    let runbook := truthy (Service.runbookUrl service) in
    let repo := truthy (Service.repoUrl service) in
    let slo := (0 <? sloCount teamId (Service.name service) db)%nat in
    let logs := (0 <? logCount)%N in
    let traces := (0 <? traceCount)%N in
    let score :=
      fst (evaluateService DEFAULT_PILLARS DEFAULT_RULES teamId service db) in
    score = defaultScore owner runbook repo slo logs traces
    /\ (readinessOf score = ServiceReadiness.GOLD
        <-> owner = true /\ slo = true /\ logs = true /\ traces = true
            /\ (runbook = true \/ repo = true)).
Proof.
  intros teamId service db logCount traceCount Hl Ht.
  intros owner runbook repo slo logs traces score.
  unfold score. rewrite evaluateService_score.
  unfold checkResultsOf, telemetryResults. rewrite Hl, Ht.
  fold owner runbook repo slo logs traces.
  destruct owner, runbook, repo, slo, logs, traces;
    (split; [vm_compute; reflexivity|]);
    vm_compute; intuition discriminate.
Qed.

Lemma default_scorecard_score_witness :
  fst (evaluateService DEFAULT_PILLARS DEFAULT_RULES "team-1" goldService
                       goldRegistry)
  = Fin 100.
Proof.
  pose proof (default_scorecard_score "team-1" goldService goldRegistry
                                      12%N 12%N eq_refl eq_refl) as H.
  cbv zeta in H. destruct H as (H & _). exact H.
Defined.

(** ** The stored checks *)

Lemma upsert_nil (serviceId teamId checkType : string)
    (status : CheckStatus.t) (pillarKey : string) (weight : number) :
  upsertCheck serviceId teamId checkType status pillarKey weight []
  = [ ServiceCheck.mk serviceId teamId checkType status (Some pillarKey)
                      (Some weight) ].
Proof. reflexivity. Qed.

Lemma upsert_replace_head (serviceId teamId checkType : string)
    (status : CheckStatus.t) (pillarKey : string) (weight : number)
    (c : ServiceCheck.t) (l : list ServiceCheck.t) :
  ServiceCheck.service c = serviceId ->
  ServiceCheck.checkType c = checkType ->
  upsertCheck serviceId teamId checkType status pillarKey weight (c :: l)
  = ServiceCheck.mk serviceId teamId checkType status (Some pillarKey)
                    (Some weight) :: l.
Proof.
  intros <- <-. cbn [upsertCheck]. now rewrite !String.eqb_refl.
Qed.

Lemma upsert_skip_head (serviceId teamId checkType : string)
    (status : CheckStatus.t) (pillarKey : string) (weight : number)
    (c : ServiceCheck.t) (l : list ServiceCheck.t) :
  ServiceCheck.checkType c <> checkType ->
  upsertCheck serviceId teamId checkType status pillarKey weight (c :: l)
  = c :: upsertCheck serviceId teamId checkType status pillarKey weight l.
Proof.
  intro Hne. cbn [upsertCheck]. apply String.eqb_neq in Hne.
  now rewrite Hne, andb_false_r.
Qed.

Lemma upsert_filter (serviceId teamId checkType : string)
    (status : CheckStatus.t) (pillarKey : string) (weight : number)
    (l : list ServiceCheck.t) :
  List.filter (fun c => String.eqb (ServiceCheck.service c) serviceId)
    (upsertCheck serviceId teamId checkType status pillarKey weight l)
  = upsertCheck serviceId teamId checkType status pillarKey weight
      (List.filter (fun c => String.eqb (ServiceCheck.service c) serviceId)
                   l).
Proof.
  induction l as [|c l IH]; cbn [upsertCheck List.filter].
  - cbn [ServiceCheck.service]. now rewrite String.eqb_refl.
  - destruct (String.eqb (ServiceCheck.service c) serviceId) eqn:Es;
      cbn [andb].
    + destruct (String.eqb (ServiceCheck.checkType c) checkType) eqn:Et;
        cbn [List.filter upsertCheck ServiceCheck.service];
        rewrite Es; cbn [andb]; rewrite ?Et; [reflexivity|].
      now rewrite IH.
    + cbn [List.filter]. now rewrite Es.
Qed.

Lemma store_filter (rules : list Rule.t) (serviceId teamId : string)
    (results : list CheckResult.t) (l : list ServiceCheck.t) :
  List.filter (fun c => String.eqb (ServiceCheck.service c) serviceId)
    (fold_left (storeStep rules serviceId teamId) results l)
  = fold_left (storeStep rules serviceId teamId) results
      (List.filter (fun c => String.eqb (ServiceCheck.service c) serviceId)
                   l).
Proof.
  revert l. induction results as [|r results IH]; intro l; [reflexivity|].
  cbn [fold_left]. rewrite IH. unfold storeStep at 2 4.
  now rewrite upsert_filter.
Qed.

Lemma store_skip_head (rules : list Rule.t) (serviceId teamId : string)
    (results : list CheckResult.t) (c : ServiceCheck.t)
    (l : list ServiceCheck.t) :
  ~ In (ServiceCheck.checkType c) (map CheckResult.checkType results) ->
  fold_left (storeStep rules serviceId teamId) results (c :: l)
  = c :: fold_left (storeStep rules serviceId teamId) results l.
Proof.
  revert l. induction results as [|r results IH]; intros l Hnot;
    [reflexivity|].
  cbn [fold_left]. unfold storeStep at 2 4.
  rewrite upsert_skip_head.
  - apply IH. intro Hin. apply Hnot. now right.
  - intro E. apply Hnot. now left.
Qed.

Lemma store_in_order (rules : list Rule.t) (serviceId teamId : string)
    (results : list CheckResult.t) :
  NoDup (map CheckResult.checkType results) ->
  forall (l : list ServiceCheck.t) (k : nat),
    Forall (fun c => ServiceCheck.service c = serviceId) l ->
    map ServiceCheck.checkType l
    = firstn k (map CheckResult.checkType results) ->
    fold_left (storeStep rules serviceId teamId) results l
    = map (checkOf rules serviceId teamId) results.
Proof.
  induction results as [|r results IH]; intros Hnd l k Hown Hl.
  - rewrite firstn_nil in Hl. apply map_eq_nil in Hl. now subst l.
  - cbn [map] in Hnd. apply NoDup_cons_iff in Hnd as (Hnot & Hnd).
    cbn [fold_left map]. unfold storeStep at 2.
    destruct l as [|c l].
    + cbn [upsertCheck]. fold (checkOf rules serviceId teamId r).
      rewrite store_skip_head by exact Hnot.
      f_equal. apply (IH Hnd [] 0%nat); [constructor | reflexivity].
    + destruct k as [|k]; [discriminate|].
      cbn [map firstn] in Hl. injection Hl as Hc Hl.
      apply Forall_inv in Hown as Hs. apply Forall_inv_tail in Hown.
      rewrite upsert_replace_head by assumption.
      fold (checkOf rules serviceId teamId r).
      rewrite store_skip_head by exact Hnot.
      f_equal. now apply (IH Hnd l k).
Qed.

Lemma find_upsert_same (serviceId teamId checkType : string)
    (status : CheckStatus.t) (pillarKey : string) (weight : number)
    (l : list ServiceCheck.t) :
  exists c,
    find (fun c => String.eqb (ServiceCheck.service c) serviceId
                   && String.eqb (ServiceCheck.checkType c) checkType)
         (upsertCheck serviceId teamId checkType status pillarKey weight l)
    = Some c
    /\ ServiceCheck.status c = status
    /\ ServiceCheck.pillar c = Some pillarKey
    /\ ServiceCheck.checkWeight c = Some weight.
Proof.
  induction l as [|c l IH]; cbn [upsertCheck find].
  - cbn [ServiceCheck.service ServiceCheck.checkType].
    rewrite !String.eqb_refl. cbn [andb]. eexists. now repeat split.
  - destruct (String.eqb (ServiceCheck.service c) serviceId
              && String.eqb (ServiceCheck.checkType c) checkType) eqn:E;
      cbn [find ServiceCheck.service ServiceCheck.checkType]; rewrite E.
    + eexists. now repeat split.
    + exact IH.
Qed.

Lemma find_upsert_other (serviceId teamId checkType other : string)
    (status : CheckStatus.t) (pillarKey : string) (weight : number)
    (l : list ServiceCheck.t) :
  other <> checkType ->
  find (fun c => String.eqb (ServiceCheck.service c) serviceId
                 && String.eqb (ServiceCheck.checkType c) other)
       (upsertCheck serviceId teamId checkType status pillarKey weight l)
  = find (fun c => String.eqb (ServiceCheck.service c) serviceId
                   && String.eqb (ServiceCheck.checkType c) other) l.
Proof.
  intro Hne. induction l as [|c l IH]; cbn [upsertCheck find].
  - cbn [ServiceCheck.service ServiceCheck.checkType].
    assert (String.eqb checkType other = false) as ->
      by (apply String.eqb_neq; congruence).
    now rewrite andb_false_r.
  - destruct (String.eqb (ServiceCheck.service c) serviceId
              && String.eqb (ServiceCheck.checkType c) checkType) eqn:E;
      cbn [find ServiceCheck.service ServiceCheck.checkType].
    + apply andb_prop in E as (Es & Et). apply String.eqb_eq in Et.
      assert (String.eqb (ServiceCheck.checkType c) other = false) as ->
        by (apply String.eqb_neq; congruence).
      now rewrite andb_false_r.
    + now rewrite IH.
Qed.

(** ** Recalculation after the task *)

Lemma orOther_pillarKeyOf (rule : option Rule.t) :
  orOther (Some (pillarKeyOf rule)) = pillarKeyOf rule.
Proof.
  destruct rule as [r|]; [|reflexivity].
  unfold pillarKeyOf, orOther, truthy, text.
  destruct (String.eqb (Rule.pillar r) EmptyString) eqn:E; cbn [negb].
  - reflexivity.
  - now rewrite E.
Qed.

Lemma orOne_weightOf (rule : option Rule.t) :
  orOne (Some (weightOf rule)) = weightOf rule.
Proof.
  destruct rule as [r|]; [|reflexivity]. unfold weightOf.
  destruct (Rule.weight r) as [a| | |]; cbn [orOne]; try reflexivity.
  destruct (Qeq_bool a 0) eqn:E; cbn [orOne]; [reflexivity | now rewrite E].
Qed.

Lemma resultStep_checkOf (rules : list Rule.t) (serviceId teamId : string)
    (results : list CheckResult.t) (ps : PillarScores) :
  fold_left checkStep (map (checkOf rules serviceId teamId) results) ps
  = fold_left (resultStep rules) results ps.
Proof.
  revert ps. induction results as [|r results IH]; intro ps; [reflexivity|].
  cbn [map fold_left]. rewrite IH. f_equal.
  unfold checkStep, resultStep, checkOf.
  cbn [ServiceCheck.pillar ServiceCheck.checkWeight ServiceCheck.status].
  now rewrite orOther_pillarKeyOf, orOne_weightOf.
Qed.

Lemma update_update (serviceId : string)
    (first second : Service.t -> Service.t) (l : list Service.t) :
  (forall s, Service._id (first s) = Service._id s) ->
  (forall s, second (first s) = first s) ->
  updateServiceById serviceId second (updateServiceById serviceId first l)
  = updateServiceById serviceId first l.
Proof.
  intros Hid Hsame. induction l as [|s l IH]; [reflexivity|].
  cbn [updateServiceById].
  destruct (String.eqb (Service._id s) serviceId) eqn:E;
    cbn [updateServiceById].
  - now rewrite Hid, E, Hsame.
  - now rewrite E, IH.
Qed.

Lemma taskTypes_of_results (db : Registry) (teamId : string)
    (service : Service.t) :
  telemetryCount db (Service.name service) "otel_logs" = None
  \/ telemetryCount db (Service.name service) "otel_traces" <> None ->
  map CheckResult.checkType (checkResultsOf db teamId service) = taskTypes.
Proof.
  intro H. unfold checkResultsOf, telemetryResults.
  destruct (telemetryCount db (Service.name service) "otel_logs");
    [|reflexivity].
  destruct (telemetryCount db (Service.name service) "otel_traces");
    [reflexivity|].
  destruct H; congruence.
Qed.

(** X17.  A recalculation right after the task agrees with it.  If the
    service has no stored checks, or the six of an earlier run in the task's
    order, and the task did not lose the trace query after an answered log
    query, then after the task the store holds exactly the six checks of
    this run, [calculateServiceScore] returns the score the task stored, and
    it leaves the whole registry as the task left it. *)
Theorem recalculation_agrees_with_task :
  forall (rules : list Rule.t) (teamId : string) (service : Service.t)
         (db : Registry),
    let serviceId := Service._id service in
    let pillars := fst (getScorecardForTeam teamId db) in
    let result := evaluateService pillars rules teamId service db in
    storedTypes serviceId db = [] \/ storedTypes serviceId db = taskTypes ->
    telemetryCount db (Service.name service) "otel_logs" = None
    \/ telemetryCount db (Service.name service) "otel_traces" <> None ->
    storedTypes serviceId (snd result) = taskTypes
    /\ fst (calculateServiceScore serviceId teamId (snd result))
       = fst result
    /\ snd (calculateServiceScore serviceId teamId (snd result))
       = snd result.
Proof.
  intros rules teamId service db serviceId pillars result Hstored Htel.
  pose proof (taskTypes_of_results db teamId service Htel) as Htypes.
  assert (List.filter
            (fun c => String.eqb (ServiceCheck.service c) serviceId)
            (serviceChecks (snd result))
          = map (checkOf rules serviceId teamId)
                (checkResultsOf db teamId service)) as Hchecks.
  { unfold result. rewrite evaluateService_checks. fold serviceId.
    rewrite store_filter.
    apply (store_in_order rules serviceId teamId _
             ltac:(rewrite Htypes; repeat constructor;
                   cbn [In]; intuition discriminate)
             _ (match storedTypes serviceId db with
                | [] => 0 | _ => 6 end)%nat).
    - apply Forall_forall. intros c Hin. apply filter_In in Hin.
      now apply String.eqb_eq.
    - rewrite Htypes. fold (storedTypes serviceId db).
      destruct Hstored as [-> | ->]; reflexivity. }
  assert (fst (calculateServiceScore serviceId teamId (snd result))
          = fst result) as Hscore.
  { unfold calculateServiceScore. cbn [fst]. rewrite Hchecks.
    unfold result at 2. rewrite evaluateService_score.
    rewrite scoreOfChecks_steps, resultStep_checkOf. reflexivity. }
  split; [|split].
  - unfold storedTypes. rewrite Hchecks, map_map. exact Htypes.
  - exact Hscore.
  - unfold calculateServiceScore in *. cbn [fst snd] in *. rewrite Hscore.
    unfold result, evaluateService, withServices, withServiceChecks.
    cbn [fst snd services serviceChecks teams scorecards sloDocs
         telemetryCount today].
    fold serviceId. f_equal. now apply update_update.
Qed.

Lemma recalculation_agrees_with_task_witness :
  fst (calculateServiceScore "svc-1" "team-1"
         (snd (evaluateService DEFAULT_PILLARS DEFAULT_RULES "team-1"
                               paymentsService exampleRegistry)))
  = fst (evaluateService DEFAULT_PILLARS DEFAULT_RULES "team-1"
                         paymentsService exampleRegistry).
Proof.
  pose proof (recalculation_agrees_with_task
                DEFAULT_RULES "team-1" paymentsService exampleRegistry) as H.
  cbv zeta in H. destruct H as (_ & H & _).
  - left. reflexivity.
  - right. discriminate.
  - exact H.
Defined.

(** ** Telemetry queries that fail *)

(** X18.  When the log query of the task fails, both telemetry checks are
    stored and counted as failed: on the default scorecard the score is that
    of a service without logs and traces, at most 65, so the service is
    never [GOLD] or [SILVER]. *)
Theorem log_query_failure_caps_readiness :
  forall (teamId : string) (service : Service.t) (db : Registry),
    telemetryCount db (Service.name service) "otel_logs" = None ->
    let owner := truthy (Service.owner service) in
    let runbook := truthy (Service.runbookUrl service) in
    let repo := truthy (Service.repoUrl service) in
    let slo := (0 <? sloCount teamId (Service.name service) db)%nat in
    let result :=
      evaluateService DEFAULT_PILLARS DEFAULT_RULES teamId service db in
    fst result = defaultScore owner runbook repo slo false false
    /\ (fst result <= Fin 65)%js = true
    /\ readinessOf (fst result) <> ServiceReadiness.GOLD
    /\ readinessOf (fst result) <> ServiceReadiness.SILVER
    /\ (exists c, findCheck (Service._id service) "has_logs" (snd result)
                  = Some c
                  /\ ServiceCheck.status c = CheckStatus.FAIL)
    /\ (exists c, findCheck (Service._id service) "has_traces" (snd result)
                  = Some c
                  /\ ServiceCheck.status c = CheckStatus.FAIL).
Proof.
  intros teamId service db Hl owner runbook repo slo result.
  assert (fst result = defaultScore owner runbook repo slo false false) as E.
  { unfold result. rewrite evaluateService_score.
    unfold checkResultsOf, telemetryResults. rewrite Hl.
    fold owner runbook repo slo.
    destruct owner, runbook, repo, slo; vm_compute; reflexivity. }
  split; [exact E|]. rewrite E.
  split; [|split; [|split; [|split]]].
  - destruct owner, runbook, repo, slo; vm_compute; reflexivity.
  - destruct owner, runbook, repo, slo; vm_compute; discriminate.
  - destruct owner, runbook, repo, slo; vm_compute; discriminate.
  - unfold findCheck, result. rewrite evaluateService_checks.
    unfold checkResultsOf, telemetryResults. rewrite Hl.
    cbn [app fold_left]. unfold storeStep at 1.
    cbn [CheckResult.checkType CheckResult.status].
    rewrite find_upsert_other by discriminate.
    unfold storeStep at 1. cbn [CheckResult.checkType CheckResult.status].
    destruct (find_upsert_same (Service._id service) teamId "has_logs"
                CheckStatus.FAIL
                (pillarKeyOf (ruleFor DEFAULT_RULES "has_logs"))
                (weightOf (ruleFor DEFAULT_RULES "has_logs"))
                (fold_left
                   (storeStep DEFAULT_RULES (Service._id service) teamId)
                   [ CheckResult.mk "has_owner" (passIf owner);
                     CheckResult.mk "has_runbook" (passIf runbook);
                     CheckResult.mk "has_repo" (passIf repo);
                     CheckResult.mk "has_slo" (passIf slo) ]
                   (serviceChecks db)))
      as (c & Hc & Hs & _).
    exists c. split; [exact Hc | exact Hs].
  - unfold findCheck, result. rewrite evaluateService_checks.
    unfold checkResultsOf, telemetryResults. rewrite Hl.
    cbn [app fold_left]. unfold storeStep at 1.
    cbn [CheckResult.checkType CheckResult.status].
    match goal with
    | |- context [upsertCheck ?i ?t ?ty ?st ?pk ?w ?l] =>
        destruct (find_upsert_same i t ty st pk w l) as (c & Hc & Hs & _)
    end.
    exists c. split; [exact Hc | exact Hs].
Qed.

Lemma log_query_failure_caps_readiness_witness :
  readinessOf
    (fst (evaluateService DEFAULT_PILLARS DEFAULT_RULES "team-1"
                          paymentsService darkRegistry))
  <> ServiceReadiness.GOLD.
Proof.
  pose proof (log_query_failure_caps_readiness
                "team-1" paymentsService darkRegistry eq_refl) as H.
  cbv zeta in H. destruct H as (_ & _ & H & _). exact H.
Defined.

(** X19.  When the log query is answered and the trace query fails, the log
    check is pushed twice: the task counts it once as answered and once as
    failed (beside the failed trace check), so on the default scorecard the
    telemetry pillar gets a third of its weight at most; the store keeps the
    failed log check.  For a service without stored checks and a team
    without scorecard, a recalculation from the store gives the score of a
    service without logs and traces. *)
Theorem trace_query_failure_counts_logs_twice :
  forall (teamId : string) (service : Service.t) (db : Registry)
         (logCount : N),
    telemetryCount db (Service.name service) "otel_logs" = Some logCount ->
    telemetryCount db (Service.name service) "otel_traces" = None ->
    let serviceId := Service._id service in
    let owner := truthy (Service.owner service) in
    let runbook := truthy (Service.runbookUrl service) in
    let repo := truthy (Service.repoUrl service) in
    let slo := (0 <? sloCount teamId (Service.name service) db)%nat in
    let logs := (0 <? logCount)%N in
    let result :=
      evaluateService DEFAULT_PILLARS DEFAULT_RULES teamId service db in
    fst result = defaultScoreTraceError owner runbook repo slo logs
    /\ readinessOf (fst result) <> ServiceReadiness.GOLD
    /\ (exists c, findCheck serviceId "has_logs" (snd result) = Some c
                  /\ ServiceCheck.status c = CheckStatus.FAIL)
    /\ (findScorecard teamId db = None ->
        storedTypes serviceId db = [] ->
        fst (calculateServiceScore serviceId teamId (snd result))
        = defaultScore owner runbook repo slo false false).
Proof.
  intros teamId service db logCount Hl Ht.
  intros serviceId owner runbook repo slo logs result.
  assert (fst result = defaultScoreTraceError owner runbook repo slo logs)
    as E.
  { unfold result. rewrite evaluateService_score.
    unfold checkResultsOf, telemetryResults. rewrite Hl, Ht.
    fold owner runbook repo slo logs.
    destruct owner, runbook, repo, slo, logs; vm_compute; reflexivity. }
  split; [exact E|]. rewrite E.
  split; [|split].
  - destruct owner, runbook, repo, slo, logs; vm_compute; discriminate.
  - unfold findCheck, result. rewrite evaluateService_checks.
    unfold checkResultsOf, telemetryResults. rewrite Hl, Ht.
    cbn [app fold_left]. unfold storeStep at 1.
    cbn [CheckResult.checkType CheckResult.status].
    rewrite find_upsert_other by discriminate.
    unfold storeStep at 1. cbn [CheckResult.checkType CheckResult.status].
    match goal with
    | |- context [upsertCheck ?i ?t ?ty ?st ?pk ?w ?l] =>
        destruct (find_upsert_same i t ty st pk w l) as (c & Hc & Hs & _)
    end.
    exists c. split; [exact Hc | exact Hs].
  - intros Hsc Hnone.
    unfold calculateServiceScore. cbn [fst].
    assert (fst (getScorecardForTeam teamId (snd result)) = DEFAULT_PILLARS)
      as ->.
    { unfold getScorecardForTeam.
      change (findScorecard teamId (snd result))
        with (findScorecard teamId db).
      now rewrite Hsc. }
    unfold result. rewrite evaluateService_checks. fold serviceId.
    rewrite store_filter.
    apply map_eq_nil in Hnone. rewrite Hnone.
    unfold checkResultsOf, telemetryResults. rewrite Hl, Ht.
    fold owner runbook repo slo logs.
    cbn [app fold_left]. unfold storeStep.
    cbn [CheckResult.checkType CheckResult.status].
    repeat first
      [ rewrite upsert_nil
      | rewrite upsert_replace_head by reflexivity
      | rewrite upsert_skip_head by discriminate ].
    destruct owner, runbook, repo, slo, logs; vm_compute; reflexivity.
Qed.

Lemma trace_query_failure_counts_logs_twice_witness :
  fst (evaluateService DEFAULT_PILLARS DEFAULT_RULES "team-1"
                       paymentsService tracelessRegistry)
  = Fin 69
  /\ fst (calculateServiceScore "svc-1" "team-1"
            (snd (evaluateService DEFAULT_PILLARS DEFAULT_RULES "team-1"
                                  paymentsService tracelessRegistry)))
     = Fin 58.
Proof.
  pose proof (trace_query_failure_counts_logs_twice
                "team-1" paymentsService tracelessRegistry 12%N
                eq_refl eq_refl) as H.
  cbv zeta in H. destruct H as (H1 & _ & _ & H2).
  split; [exact H1 | exact (H2 eq_refl eq_refl)].
Defined.

(** ** A run of the task *)



















Lemma recalculation_stores_its_result_witness :
  storedReadiness "svc-2"
    (snd (calculateServiceScore "svc-1" "team-1" (execute exampleRegistry)))
  = storedReadiness "svc-2" (execute exampleRegistry).
Proof.
  pose proof (recalculation_stores_its_result
                "svc-1" "team-1" (execute exampleRegistry)) as H.
  cbv zeta in H. destruct H as (_ & H & _).
  apply H. discriminate.
Defined.
